(** * The build command of img: context ingestion and request building

    A shallow embedding of [build.go]: the archive classifier
    ([isArchive]), the extractor ([untar]), the stdin materializers
    ([dockerfileFromStdin], [contextFromStdin]) and the build command's
    [Run], over a small model of the packages they call
    (path/filepath, filepath-securejoin, os, io/ioutil, compress/gzip,
    archive/tar, docker's pkg/archive and distribution/reference). *)

From stdpp Require Import gmap strings list fin_maps.
From Stdlib Require Import ZArith.
From Stdlib.Strings Require Import Ascii Byte.

Open Scope string_scope.
Open Scope list_scope.

(** ** Errors *)

Inductive Errno := ENOENT | ENOTDIR | EISDIR | EEXIST.

(** Go [error] values.  The sentinels the code compares against
    ([io.EOF]) are constructors of their own, so that [err == io.EOF] is a
    comparison of values and not of messages. *)
Inductive error :=
| io_EOF
| io_ErrUnexpectedEOF
| gzip_ErrHeader
| errorString (msg : string)
| PathError (op path : string) (errno : Errno).

Definition Errno_Error (e : Errno) : string :=
  match e with
  | ENOENT => "no such file or directory"
  | ENOTDIR => "not a directory"
  | EISDIR => "is a directory"
  | EEXIST => "file exists"
  end.

(** [err.Error()], what [%v] prints. *)
Definition Error (e : error) : string :=
  match e with
  | io_EOF => "EOF"
  | io_ErrUnexpectedEOF => "unexpected EOF"
  | gzip_ErrHeader => "gzip: invalid header"
  | errorString msg => msg
  | PathError op path errno => op +:+ " " +:+ path +:+ ": " +:+ Errno_Error errno
  end.

Definition errors_New (msg : string) : error := errorString msg.

(** ** package strings *)
Module strings.

(** [strings.Split(s, "/")]. *)
Fixpoint Split (s : string) : list string :=
  match s with
  | "" => [""]
  | String c r =>
      if Ascii.eqb c "/"%char then "" :: Split r
      else match Split r with
           | h :: t => String c h :: t
           | [] => [String c ""]
           end
  end.

(** [strings.Join(elems, sep)]. *)
Definition Join (elems : list string) (sep : string) : string :=
  String.concat sep elems.

(** [strings.SplitN(s, "=", 2)]: cut at the first [=]; a string without
    [=] comes back as the one-element slice. *)
Fixpoint SplitN2 (s : string) : list string :=
  match s with
  | "" => [""]
  | String c r =>
      if Ascii.eqb c "="%char then [""; r]
      else match SplitN2 r with
           | h :: t => String c h :: t
           | [] => [String c ""]
           end
  end.

End strings.

(** ** package path/filepath (unix) *)
Module filepath.

Definition IsAbs (path : string) : bool :=
  match path with
  | String c _ => Ascii.eqb c "/"%char
  | "" => false
  end.

(** One element of [Clean]'s scan; [out] is the output so far, last
    element first.  Empty and [.] elements are dropped, [..] removes the
    element before it, is dropped at the root of a rooted path and is
    kept at the front of a relative one. *)
Definition clean_step (rooted : bool) (out : list string) (c : string)
  : list string :=
  if String.eqb c "" || String.eqb c "." then out
  else if String.eqb c ".." then
    match out with
    | top :: rest => if String.eqb top ".." then c :: out else rest
    | [] => if rooted then [] else [c]
    end
  else c :: out.

Definition clean_elems (rooted : bool) (elems : list string) : list string :=
  rev (fold_left (clean_step rooted) elems []).

(** [filepath.Clean(path)]. *)
Definition Clean (path : string) : string :=
  let out := clean_elems (IsAbs path) (strings.Split path) in
  if IsAbs path then "/" +:+ strings.Join out "/"
  else match out with
       | [] => "."
       | _ => strings.Join out "/"
       end.

Fixpoint strip_trailing_empty (relems : list string) : list string :=
  match relems with
  | "" :: r => strip_trailing_empty r
  | _ => relems
  end.

(** [filepath.Base(path)]: the last element, trailing slashes removed;
    [.] for the empty path and [/] for a path of slashes only. *)
Definition Base (path : string) : string :=
  if String.eqb path "" then "."
  else match strip_trailing_empty (rev (strings.Split path)) with
       | last :: _ => last
       | [] => "/"
       end.

(** [filepath.Dir(path)]: [Clean] of everything up to the last slash. *)
Definition Dir (path : string) : string :=
  match rev (strings.Split path) with
  | _ :: (_ :: _) as rdir => Clean (strings.Join (rev rdir) "/" +:+ "/")
  | _ => "."
  end.

(** [filepath.Join(dir, name)] for two elements. *)
Definition Join2 (dir name : string) : string :=
  if String.eqb dir "" then
    (if String.eqb name "" then "" else Clean name)
  else if String.eqb name "" then Clean dir
  else Clean (dir +:+ "/" +:+ name).

End filepath.

(** A resolved location in the file tree: the names from the root down.
    Names are resolved with the root as working directory. *)
Abbreviation path := (list string).

Definition key_of (name : string) : path :=
  filepath.clean_elems true (strings.Split name).

Definition path_string (p : path) : string := "/" +:+ strings.Join p "/".

(** ** package filepath-securejoin *)
Module securejoin.

(** The pieces [SecureJoin]'s loop takes off the front of [unsafePath],
    one per iteration: the text up to the next separator.  The loop stops
    when nothing is left, so a trailing separator yields no last empty
    piece. *)
Definition pieces (unsafePath : string) : list string :=
  if String.eqb unsafePath "" then []
  else match rev (strings.Split unsafePath) with
       | "" :: r => rev r
       | _ => strings.Split unsafePath
       end.

(** One iteration on a file tree without symbolic links: the piece is
    appended to the scoped path unless the path cleans to the root, in
    which case the scoped path is reset. *)
Definition step (scoped : string) (p : string) : string :=
  if String.eqb (filepath.Clean ("/" +:+ scoped +:+ p)) "/" then ""
  else scoped +:+ p +:+ "/".

(** [securejoin.SecureJoin(root, unsafePath)].  The file trees of this
    development hold directories and regular files and no symbolic
    links: [Lstat] then never reports a link, no link is expanded, and
    the function returns no error. *)
Definition SecureJoin (root unsafePath : string) : string :=
  let scoped := fold_left step (pieces unsafePath) "" in
  filepath.Clean (root +:+ filepath.Clean ("/" +:+ scoped)).

End securejoin.

(** ** Data of the packages the command calls *)

(** [tar.Header], the fields [untar] reads. *)
Record Header := { Name : string; Typeflag : byte; Mode : Z }.

Definition tar_TypeReg : byte := x30.   (* '0' *)
Definition tar_TypeDir : byte := x35.   (* '5' *)

(** What a [tar.Reader] delivers for one entry: the header [Next] returns
    ([None] for a nil header), the bytes [Read] yields for the entry and
    the error, if any, that ends them before the entry is complete. *)
Record tar_entry := {
  entry_header : option Header;
  entry_data : list byte;
  entry_fault : option error
}.

(** The calls of [Next] in order: the entries, then the error that ends
    the stream ([io.EOF] at a clean end). *)
Record tar_stream := { entries : list tar_entry; last_error : error }.

(** An [io.Reader] with a finite content, ended by [io.EOF] or by a read
    error. *)
Record Reader := { rd_bytes : list byte; rd_fault : option error }.

(** [reference.Named] as the library's [reference] struct holds it: an
    empty tag or digest is an absent one. *)
Record Named := {
  ref_domain : string;
  ref_path : string;
  ref_tag : string;
  ref_digest : string
}.

(** [controlapi.SolveRequest]. *)
Record SolveRequest := {
  Ref : string;
  Session : string;
  Exporter : string;
  ExporterAttrs : gmap string string;
  Frontend : string;
  FrontendAttrs : gmap string string
}.

(** What the command takes from outside this file: the process
    environment, constants and functions of the repository declared in
    other files, and the behaviour of the libraries that is not modelled
    here (decompression, the tar format, the reference grammar, the
    buildkit client). *)
Record Env := {
  umask : Z;
  os_TempDir : string;
  (** the n-th random suffix ioutil draws *)
  nextSuffix : nat -> string;
  (** [defaultDockerfileName], declared elsewhere in the package *)
  defaultDockerfileName : string;
  (** gzip: the optional header fields after the ten fixed bytes *)
  gzip_readExtra : Reader -> option error;
  (** tar over gzip: what [tar.NewReader(gzr)] yields for a stream whose
      gzip header was accepted *)
  tar_over_gzip : Reader -> tar_stream;
  (** tar: the result of the first [Next] on a buffer that holds at
      least one 512-byte block ([None] for a nil error) *)
  tar_parseHeader : list byte -> option error;
  platforms_DefaultString : string;
  reference_ParseNormalizedNamed : string -> Named + error;
  (** [%q] of fmt *)
  fmt_q : string -> string;
  installRuncIfDNE : option error;
  (** [client.New(stateDir, backend, localDirs)] *)
  client_New : gmap string string -> option error;
  client_Session : option error;
  session_ID : string;
  identity_NewID : string;
  (** the result of [eg.Wait()] for the three tasks started on a request *)
  errgroup_Wait : SolveRequest -> option error
}.

(** ** The file tree and the process state

    A file tree maps the locations that exist to a directory or to a
    regular file.  There are no symbolic links (the extractor creates
    none), and the process has access to every file and directory: no
    operation fails for lack of permission or of space.  An operation on a
    name looks at the node of the name and at the node of its parent, as
    the system does in a tree in which every location that exists has a
    directory for parent. *)

Inductive node :=
| Dir (mode : Z)
| File (mode : Z) (data : list byte).

(** An open [*os.File]. *)
Record handle := { fd_key : path; fd_name : string }.

Record world := mkWorld {
  fs : gmap path node;
  open_files : list path;
  stdin : Reader;
  draws : nat;
  stdout : list string;
  solves : list SolveRequest
}.

Definition set_fs (t : gmap path node) (w : world) : world :=
  mkWorld t (open_files w) (stdin w) (draws w) (stdout w) (solves w).
Definition set_open_files (o : list path) (w : world) : world :=
  mkWorld (fs w) o (stdin w) (draws w) (stdout w) (solves w).
Definition set_stdin (r : Reader) (w : world) : world :=
  mkWorld (fs w) (open_files w) r (draws w) (stdout w) (solves w).
Definition set_draws (n : nat) (w : world) : world :=
  mkWorld (fs w) (open_files w) (stdin w) n (stdout w) (solves w).
Definition set_stdout (o : list string) (w : world) : world :=
  mkWorld (fs w) (open_files w) (stdin w) (draws w) o (solves w).
Definition set_solves (l : list SolveRequest) (w : world) : world :=
  mkWorld (fs w) (open_files w) (stdin w) (draws w) (stdout w) l.

(** A call either returns its Go results or panics; the state is threaded
    through both. *)
Inductive result (A : Type) :=
| Ret (a : A)
| Panic (msg : string).
Arguments Ret {A} a.
Arguments Panic {A} msg.

Definition M (A : Type) : Type := world -> result A * world.

Definition ret {A} (a : A) : M A := fun w => (Ret a, w).

Definition bind {A B} (m : M A) (k : A -> M B) : M B :=
  fun w => match m w with
           | (Ret a, w') => k a w'
           | (Panic msg, w') => (Panic msg, w')
           end.

Definition panic {A} (msg : string) : M A := fun w => (Panic msg, w).

(** [defer f(); rest]: [f] runs when [rest] returns or panics. *)
Definition defer {A B} (f : M B) (rest : M A) : M A :=
  fun w => let (r, w') := rest w in (r, snd (f w')).

Definition modify (f : world -> world) : M unit := fun w => (Ret tt, f w).

Notation "'let!' x ':=' m 'in' k" := (bind m (fun x => k))
  (at level 10, x pattern, m at level 100, k at level 200).
Notation "m ';;;' k" := (bind m (fun _ => k))
  (at level 100, k at level 200, right associativity).

Definition fmt_Errorf (prefix : string) (err : error) : error :=
  errorString (prefix +:+ Error err).

Definition fmt_Print (line : string) : M unit :=
  modify (fun w => set_stdout (stdout w ++ [line]) w).

(** ** package os *)

Definition O_RDWR : Z := 0x2.
Definition O_CREATE : Z := 0x40.
Definition O_EXCL : Z := 0x80.
Definition O_TRUNC : Z := 0x200.

Definition has_flag (flag bit : Z) : bool := negb (Z.land flag bit =? 0)%Z.

(** [os.FileMode(m)] of an [int64]: the conversion to [uint32]. *)
Definition os_FileMode (m : Z) : Z := (m mod 2 ^ 32)%Z.

(** [syscallMode]: the nine permission bits, and the setuid, setgid and
    sticky bits from where [os.FileMode] keeps them. *)
Definition syscallMode (i : Z) : Z :=
  Z.lor (Z.land i 0x1ff)
    (Z.lor (if Z.testbit i 23 then 0x800 else 0)
       (Z.lor (if Z.testbit i 22 then 0x400 else 0)
          (if Z.testbit i 20 then 0x200 else 0)))%Z.

Definition os_IsExist (err : option error) : bool :=
  match err with
  | Some (PathError _ _ EEXIST) => true
  | _ => false
  end.

Definition os_IsNotExist (err : option error) : bool :=
  match err with
  | Some (PathError _ _ ENOENT) => true
  | _ => false
  end.

(** The errno of a name that does not resolve. *)
Definition missing_errno (t : gmap path node) (key : path) : Errno :=
  match t !! removelast key with
  | Some (File _ _) => ENOTDIR
  | _ => ENOENT
  end.

Definition is_dir (o : option node) : bool :=
  match o with
  | Some (Dir _) => true
  | _ => false
  end.

(** Writing [data] from offset 0 of a file that holds [old]: what is
    beyond the written bytes stays. *)
Definition write_at0 (data old : list byte) : list byte :=
  data ++ drop (length data) old.

Fixpoint remove_first (key : path) (l : list path) : list path :=
  match l with
  | [] => []
  | k :: r => if decide (k = key) then r else k :: remove_first key r
  end.

(** ** docker's pkg/archive *)

(** [bytes.HasPrefix(s, m)]. *)
Fixpoint HasPrefix (s m : list byte) : bool :=
  match m with
  | [] => true
  | b :: m' =>
      match s with
      | [] => false
      | c :: s' => Byte.eqb c b && HasPrefix s' m'
      end
  end.

Inductive Compression := Uncompressed | Bzip2 | Gzip | Xz.

Definition is_Uncompressed (c : Compression) : bool :=
  match c with
  | Uncompressed => true
  | _ => false
  end.

(** [archive.DetectCompression(source)]: the magic numbers of the
    supported envelopes. *)
Definition DetectCompression (source : list byte) : Compression :=
  if HasPrefix source [x42; x5a; x68] then Bzip2
  else if HasPrefix source [x1f; x8b; x08] then Gzip
  else if HasPrefix source [xfd; x37; x7a; x58; x5a; x00] then Xz
  else Uncompressed.

(** ** docker's distribution/reference *)

Definition reference_IsNameOnly (ref : Named) : bool :=
  String.eqb (ref_tag ref) "" && String.eqb (ref_digest ref) "".

Definition reference_WithTag (name : Named) (tag : string) : Named :=
  {| ref_domain := ref_domain name; ref_path := ref_path name;
     ref_tag := tag; ref_digest := ref_digest name |}.

Definition defaultTag : string := "latest".

(** [reference.TagNameOnly(ref)]. *)
Definition reference_TagNameOnly (ref : Named) : Named :=
  if reference_IsNameOnly ref then reference_WithTag ref defaultTag else ref.

Definition Named_Name (ref : Named) : string :=
  if String.eqb (ref_domain ref) "" then ref_path ref
  else ref_domain ref +:+ "/" +:+ ref_path ref.

(** [named.String()]. *)
Definition Named_String (ref : Named) : string :=
  Named_Name ref
  +:+ (if String.eqb (ref_tag ref) "" then "" else ":" +:+ ref_tag ref)
  +:+ (if String.eqb (ref_digest ref) "" then "" else "@" +:+ ref_digest ref).

(** ** The build command *)

Record buildCommand := {
  buildArgs : list string;
  dockerfilePath : string;
  labels : list string;
  target : string;
  tags : list string;
  platforms : list string;
  contextDir : string;
  noConsole : bool;
  noCache : bool
}.

Definition with_dockerfilePath (v : string) (cmd : buildCommand) : buildCommand :=
  {| buildArgs := buildArgs cmd; dockerfilePath := v; labels := labels cmd;
     target := target cmd; tags := tags cmd; platforms := platforms cmd;
     contextDir := contextDir cmd; noConsole := noConsole cmd;
     noCache := noCache cmd |}.

Definition with_contextDir (v : string) (cmd : buildCommand) : buildCommand :=
  {| buildArgs := buildArgs cmd; dockerfilePath := dockerfilePath cmd;
     labels := labels cmd; target := target cmd; tags := tags cmd;
     platforms := platforms cmd; contextDir := v; noConsole := noConsole cmd;
     noCache := noCache cmd |}.

Definition with_tags (v : list string) (cmd : buildCommand) : buildCommand :=
  {| buildArgs := buildArgs cmd; dockerfilePath := dockerfilePath cmd;
     labels := labels cmd; target := target cmd; tags := v;
     platforms := platforms cmd; contextDir := contextDir cmd;
     noConsole := noConsole cmd; noCache := noCache cmd |}.

Definition with_platforms (v : list string) (cmd : buildCommand) : buildCommand :=
  {| buildArgs := buildArgs cmd; dockerfilePath := dockerfilePath cmd;
     labels := labels cmd; target := target cmd; tags := tags cmd;
     platforms := v; contextDir := contextDir cmd;
     noConsole := noConsole cmd; noCache := noCache cmd |}.

Definition LF : string := String "010"%char "".
Definition DQ : string := String "034"%char "".

Section Build.

Variable E : Env.

(** The mode a new file or directory gets. *)
Definition create_mode (perm : Z) : Z :=
  Z.land (syscallMode perm) (Z.lnot (umask E)).

(** [os.Stat(name)]. *)
Definition os_Stat (name : string) : M (option node * option error) :=
  fun w =>
    match fs w !! key_of name with
    | Some n => (Ret (Some n, None), w)
    | None =>
        (Ret (None, Some (PathError "stat" name
                            (missing_errno (fs w) (key_of name)))), w)
    end.

Definition mkdir (key : path) (perm : Z) (t : gmap path node)
  : gmap path node + Errno :=
  match t !! key with
  | Some _ => inr EEXIST
  | None =>
      if is_dir (t !! removelast key)
      then inl (<[key := Dir (create_mode perm)]> t)
      else inr (missing_errno t key)
  end.

(** [os.Mkdir(name, perm)]. *)
Definition os_Mkdir (name : string) (perm : Z) : M (option error) :=
  fun w =>
    match mkdir (key_of name) perm (fs w) with
    | inl t => (Ret None, set_fs t w)
    | inr errno => (Ret (Some (PathError "mkdir" name errno)), w)
    end.

(** [os.MkdirAll]'s recursion, on the names of the path last first: a
    path that is a directory is left as it is, one that is a file is an
    error, and a missing one is made after its parent. *)
Fixpoint mkdirAll (rkey : list string) (perm : Z) (t : gmap path node)
  : gmap path node + error :=
  match t !! rev rkey with
  | Some (Dir _) => inl t
  | Some (File _ _) => inr (PathError "mkdir" (path_string (rev rkey)) ENOTDIR)
  | None =>
      let made_parent :=
        match rkey with
        | [] => inl t
        | _ :: rparent => mkdirAll rparent perm t
        end in
      match made_parent with
      | inr err => inr err
      | inl t' =>
          match mkdir (rev rkey) perm t' with
          | inl t'' => inl t''
          | inr errno => inr (PathError "mkdir" (path_string (rev rkey)) errno)
          end
      end
  end.

(** [os.MkdirAll(name, perm)]. *)
Definition os_MkdirAll (name : string) (perm : Z) : M (option error) :=
  fun w =>
    match mkdirAll (rev (key_of name)) perm (fs w) with
    | inl t => (Ret None, set_fs t w)
    | inr err => (Ret (Some err), w)
    end.

(** [os.OpenFile(name, flag, perm)], for the flag sets of this program
    (all of them read-write). *)
Definition os_OpenFile (name : string) (flag perm : Z) : M (handle + error) :=
  fun w =>
    let key := key_of name in
    let f := {| fd_key := key; fd_name := name |} in
    match fs w !! key with
    | Some (Dir _) => (Ret (inr (PathError "open" name EISDIR)), w)
    | Some (File m d) =>
        if has_flag flag O_CREATE && has_flag flag O_EXCL
        then (Ret (inr (PathError "open" name EEXIST)), w)
        else
          let d' := if has_flag flag O_TRUNC then [] else d in
          (Ret (inl f),
           set_open_files (key :: open_files w)
             (set_fs (<[key := File m d']> (fs w)) w))
    | None =>
        if has_flag flag O_CREATE && is_dir (fs w !! removelast key)
        then (Ret (inl f),
              set_open_files (key :: open_files w)
                (set_fs (<[key := File (create_mode perm) []]> (fs w)) w))
        else (Ret (inr (PathError "open" name (missing_errno (fs w) key))), w)
    end.

(** [os.Create(name)]. *)
Definition os_Create (name : string) : M (handle + error) :=
  os_OpenFile name (Z.lor O_RDWR (Z.lor O_CREATE O_TRUNC)) 0x1b6.

(** [f.Write(data)] on a file just opened: the bytes go to offset 0. *)
Definition file_Write (f : handle) (data : list byte) : M (option error) :=
  fun w =>
    match fs w !! fd_key f with
    | Some (File m old) =>
        (Ret None, set_fs (<[fd_key f := File m (write_at0 data old)]> (fs w)) w)
    | _ => (Ret (Some (PathError "write" (fd_name f) ENOENT)), w)
    end.

(** [f.Close()]; its error is never looked at. *)
Definition file_Close (f : handle) : M unit :=
  modify (fun w => set_open_files (remove_first (fd_key f) (open_files w)) w).

(** [io.Copy(f, src)] for a source that yields [data] and then ends, by
    [io.EOF] (no error) or by [fault]. *)
Definition io_Copy (f : handle) (data : list byte) (fault : option error)
  : M (option error) :=
  let! werr := file_Write f data in
  match werr with
  | Some err => ret (Some err)
  | None => ret fault
  end.

(** [os.RemoveAll(name)]: the name and everything below it. *)
Definition os_RemoveAll (name : string) : M (option error) :=
  fun w =>
    (Ret None,
     set_fs (filter (fun kv => ¬ key_of name `prefix_of` kv.1) (fs w)) w).

(** ** package io/ioutil *)

(** [ioutil.ReadAll(os.Stdin)]. *)
Definition ioutil_ReadAll_stdin : M (list byte * option error) :=
  fun w =>
    (Ret (rd_bytes (stdin w), rd_fault (stdin w)),
     set_stdin {| rd_bytes := []; rd_fault := rd_fault (stdin w) |} w).

Definition draw_suffix : M string :=
  fun w => (Ret (nextSuffix E (draws w)), set_draws (S (draws w)) w).

(** The loop of [ioutil.TempDir]: 10000 names are tried at most; a name
    that exists is skipped, any other outcome ends the loop.  [more] is
    the number of tries left after this one. *)
Fixpoint TempDir_loop (more : nat) (dir prefix : string)
  : M (string * option error) :=
  let! suffix := draw_suffix in
  let try := filepath.Join2 dir (prefix +:+ suffix) in
  let! err := os_Mkdir try 0x1c0 in
  if os_IsExist err then
    match more with
    | O => ret ("", err)
    | S more' => TempDir_loop more' dir prefix
    end
  else if os_IsNotExist err then
    let! (_, serr) := os_Stat dir in
    if os_IsNotExist serr then ret ("", serr) else ret ("", err)
  else
    match err with
    | None => ret (try, None)
    | Some _ => ret ("", err)
    end.

(** [ioutil.TempDir("", prefix)]. *)
Definition ioutil_TempDir (prefix : string) : M (string * option error) :=
  TempDir_loop (Z.to_nat 9999) (os_TempDir E) prefix.

(** The loop of [ioutil.TempFile], bounded the same way. *)
Fixpoint TempFile_loop (more : nat) (dir prefix : string) : M (handle + error) :=
  let! suffix := draw_suffix in
  let name := filepath.Join2 dir (prefix +:+ suffix) in
  let! opened :=
    os_OpenFile name (Z.lor O_RDWR (Z.lor O_CREATE O_EXCL)) 0x180 in
  match opened with
  | inr err =>
      if os_IsExist (Some err) then
        match more with
        | O => ret (inr err)
        | S more' => TempFile_loop more' dir prefix
        end
      else ret (inr err)
  | inl f => ret (inl f)
  end.

(** [ioutil.TempFile("", prefix)]. *)
Definition ioutil_TempFile (prefix : string) : M (handle + error) :=
  TempFile_loop (Z.to_nat 9999) (os_TempDir E) prefix.

(** [f.Name()]: a nil [*os.File] is dereferenced. *)
Definition file_Name (f : option handle) : M string :=
  match f with
  | Some h => ret (fd_name h)
  | None => panic "invalid memory address or nil pointer dereference"
  end.

(** ** package bufio, on [os.Stdin] *)

(** [buf.Peek(n)]: the next [n] bytes without consuming them; fewer,
    with the error that ended the stream, when it is shorter. *)
Definition bufio_Peek (n : nat) : M (list byte * option error) :=
  fun w =>
    let b := take n (rd_bytes (stdin w)) in
    (Ret (b, if (length b <? n)%nat
             then Some (default io_EOF (rd_fault (stdin w)))
             else None), w).

(** Handing the buffered stdin to a consumer that reads it to its end. *)
Definition drain_stdin : M Reader :=
  fun w =>
    (Ret (stdin w),
     set_stdin {| rd_bytes := []; rd_fault := rd_fault (stdin w) |} w).

(** ** compress/gzip and archive/tar *)

(** [gzip.NewReader(r)]: [io.ReadFull] of the ten fixed header bytes,
    the check of the two identification bytes and of the deflate method,
    then the optional fields.  [None] is a nil error. *)
Definition gzip_NewReader (r : Reader) : option error :=
  if (length (rd_bytes r) <? 10)%nat then
    Some (default (match rd_bytes r with
                   | [] => io_EOF
                   | _ => io_ErrUnexpectedEOF
                   end) (rd_fault r))
  else if HasPrefix (rd_bytes r) [x1f; x8b; x08] then gzip_readExtra E r
  else Some gzip_ErrHeader.

(** The first [Next] of [tar.NewReader(bytes.NewBuffer(header))]:
    [io.ReadFull] of one 512-byte block fails on a shorter buffer. *)
Definition tar_Next_first (header : list byte) : option error :=
  if (length header <? 512)%nat then
    Some (match header with
          | [] => io_EOF
          | _ => io_ErrUnexpectedEOF
          end)
  else tar_parseHeader E header.

(** ** build.go *)

(** [isArchive] checks for the magic bytes of a tar or any supported
    compression algorithm. *)
Definition isArchive (header : list byte) : bool :=
  let compression := DetectCompression header in
  if negb (is_Uncompressed compression) then true
  else
    match tar_Next_first header with
    | None => true
    | Some _ => false
    end.

(** The body of [untar]'s loop for one entry that [Next] returned
    without error. *)
Definition untar_entry (dest : string) (e : tar_entry) : M (option error) :=
  match entry_header e with
  | None => ret None
  | Some header =>
      let target := securejoin.SecureJoin dest (Name header) in
      if Byte.eqb (Typeflag header) tar_TypeDir then
        let! (_, err) := os_Stat target in
        match err with
        | Some _ =>
            let! err := os_MkdirAll target 0x1ed in
            match err with
            | Some err => ret (Some err)
            | None => ret None
            end
        | None => ret None
        end
      else if Byte.eqb (Typeflag header) tar_TypeReg then
        let! opened :=
          os_OpenFile target (Z.lor O_CREATE O_RDWR) (os_FileMode (Mode header)) in
        match opened with
        | inr err => ret (Some err)
        | inl f =>
            let! err := io_Copy f (entry_data e) (entry_fault e) in
            file_Close f ;;;
            match err with
            | Some err => ret (Some err)
            | None => ret None
            end
        end
      else ret None
  end.

(** [untar]'s loop: [io.EOF] from [Next] ends it without error, any
    other error is returned. *)
Fixpoint untar_entries (dest : string) (es : list tar_entry) (last : error)
  : M (option error) :=
  match es with
  | [] =>
      match last with
      | io_EOF => ret None
      | err => ret (Some err)
      end
  | e :: es' =>
      let! err := untar_entry dest e in
      match err with
      | Some err => ret (Some err)
      | None => untar_entries dest es' last
      end
  end.

(** [untar] unpacks a tarball to a given directory. *)
Definition untar (dest : string) (r : Reader) : M (option error) :=
  match gzip_NewReader r with
  | Some err => ret (Some err)
  | None =>
      let tr := tar_over_gzip E r in
      untar_entries dest (entries tr) (last_error tr)
  end.

(** [dockerfileFromStdin] copies a dockerfile from stdin to a temporary
    file. *)
Definition dockerfileFromStdin : M (string * option error) :=
  let! (stdin, err) := ioutil_ReadAll_stdin in
  match err with
  | Some err => ret ("", Some (fmt_Errorf "reading from stdin failed: " err))
  | None =>
      let! created := ioutil_TempFile "img-build-dockerfile-" in
      match created with
      | inr err =>
          let! name := file_Name None in
          ret (name, Some (fmt_Errorf
                 "unable to create temporary file for dockerfile: " err))
      | inl f =>
          defer (file_Close f)
            (let! werr := file_Write f stdin in
             match werr with
             | Some err =>
                 ret (fd_name f, Some (fmt_Errorf
                        "writing to temporary file for dockerfile failed: " err))
             | None => ret (fd_name f, None)
             end)
      end
  end.

(** [contextFromStdin] reads the contents of stdin as either a Dockerfile
    or tar archive and returns the path to a temporary directory for the
    build context. *)
Definition contextFromStdin (dockerfileName : string) : M (string * option error) :=
  let dockerfileName :=
    if String.eqb dockerfileName "" then defaultDockerfileName E
    else dockerfileName in
  let! (tmpDir, err) := ioutil_TempDir "img-build-context-" in
  match err with
  | Some err =>
      ret ("", Some (fmt_Errorf
             "unable to create temporary context directory: " err))
  | None =>
      let archiveHeaderSize := 512%nat in
      let! (magic, err) := bufio_Peek archiveHeaderSize in
      match err with
      | Some io_EOF | None =>
          if isArchive magic then
            let! buf := drain_stdin in
            let! err := untar tmpDir buf in
            ret (tmpDir, err)
          else if String.eqb dockerfileName "-" then
            ret (tmpDir, Some (errors_New "build context is not an archive"))
          else
            let dockerfilePath := securejoin.SecureJoin tmpDir dockerfileName in
            let! created := os_Create dockerfilePath in
            match created with
            | inr err => ret (tmpDir, Some err)
            | inl f =>
                defer (file_Close f)
                  (let! buf := drain_stdin in
                   let! err := io_Copy f (rd_bytes buf) (rd_fault buf) in
                   ret (tmpDir, err))
            end
      | Some err =>
          ret (tmpDir, Some (fmt_Errorf
                 "failed to peek context header from STDIN: " err))
      end
  end.

(** [cmd.getLocalDirs()]. *)
Definition getLocalDirs (cmd : buildCommand) : gmap string string :=
  <["dockerfile" := filepath.Dir (dockerfilePath cmd)]>
    (<["context" := contextDir cmd]> ∅).

(** [Run], the loop over [cmd.tags]: every tag is parsed, given the
    default tag when it has none, and written back in its place. *)
Fixpoint Run_tags (tags : list string) : list string + error :=
  match tags with
  | [] => inl []
  | tag :: rest =>
      match reference_ParseNormalizedNamed E tag with
      | inr err =>
          inr (errorString ("parsing image name " +:+ fmt_q E tag
                            +:+ " failed: " +:+ Error err))
      | inl named =>
          let named := reference_TagNameOnly named in
          match Run_tags rest with
          | inr err => inr err
          | inl rest' => inl (Named_String named :: rest')
          end
      end
  end.

(** [Run], the loop over [cmd.buildArgs]. *)
Fixpoint Run_buildArgs (buildArgs : list string)
  (frontendAttrs : gmap string string) : gmap string string + error :=
  match buildArgs with
  | [] => inl frontendAttrs
  | buildArg :: rest =>
      match strings.SplitN2 buildArg with
      | [k; v] => Run_buildArgs rest (<["build-arg:" +:+ k := v]> frontendAttrs)
      | _ => inr (errorString ("invalid build-arg value " +:+ buildArg))
      end
  end.

(** [Run], the loop over [cmd.labels]. *)
Fixpoint Run_labels (labels : list string)
  (frontendAttrs : gmap string string) : gmap string string + error :=
  match labels with
  | [] => inl frontendAttrs
  | label :: rest =>
      match strings.SplitN2 label with
      | [k; v] => Run_labels rest (<["label:" +:+ k := v]> frontendAttrs)
      | _ => inr (errorString ("invalid label value " +:+ label))
      end
  end.

(** [Run], "Create the frontend attrs" and the two loops that add the
    build args and the labels to them. *)
Definition Run_frontendAttrs (cmd : buildCommand) (platforms : string)
  : gmap string string + error :=
  let frontendAttrs : gmap string string :=
    <["platform" := platforms]>
      (<["target" := target cmd]>
         (<["filename" := filepath.Base (dockerfilePath cmd)]> ∅)) in
  let frontendAttrs :=
    if noCache cmd then <["no-cache" := ""]> frontendAttrs
    else frontendAttrs in
  match Run_buildArgs (buildArgs cmd) frontendAttrs with
  | inr err => inr err
  | inl frontendAttrs => Run_labels (labels cmd) frontendAttrs
  end.

(** [Run] from the session on: the request is handed to the three tasks
    of the errgroup and [eg.Wait()] gives the result. *)
Definition Run_solve (cmd : buildCommand) (initialTag : string)
  (frontendAttrs : gmap string string) : M (option error) :=
  fmt_Print ("Building " +:+ initialTag +:+ LF) ;;;
  fmt_Print ("Setting up the rootfs... this may take a bit." +:+ LF) ;;;
  match client_Session E with
  | Some err => ret (Some err)
  | None =>
      let req :=
        {| Ref := identity_NewID E;
           Session := session_ID E;
           Exporter := "image";
           ExporterAttrs := <["name" := strings.Join (tags cmd) ","]> ∅;
           Frontend := "dockerfile.v0";
           FrontendAttrs := frontendAttrs |} in
      modify (fun w => set_solves (solves w ++ [req]) w) ;;;
      match errgroup_Wait E req with
      | Some err => ret (Some err)
      | None =>
          fmt_Print ("Successfully built " +:+ initialTag +:+ LF) ;;;
          ret None
      end
  end.

(** [Run] from the loop over the tags to the frontend attributes. *)
Definition Run_request (cmd : buildCommand) : M (option error) :=
  match Run_tags (tags cmd) with
  | inr err => ret (Some err)
  | inl normalized =>
      let cmd := with_tags normalized cmd in
      let initialTag := hd "" (tags cmd) in
      let cmd :=
        if String.eqb (dockerfilePath cmd) ""
        then with_dockerfilePath
               (securejoin.SecureJoin (contextDir cmd) (defaultDockerfileName E)) cmd
        else cmd in
      let cmd :=
        if (length (platforms cmd) <? 1)%nat
        then with_platforms [platforms_DefaultString E] cmd
        else cmd in
      let platforms := strings.Join (platforms cmd) "," in
      match client_New E (getLocalDirs cmd) with
      | Some err => ret (Some err)
      | None =>
          match Run_frontendAttrs cmd platforms with
          | inr err => ret (Some err)
          | inl frontendAttrs => Run_solve cmd initialTag frontendAttrs
          end
      end
  end.

(** [Run] from the check of the context: a context of [-] is read from
    stdin into a temporary directory, removed on exit. *)
Definition Run_context (cmd : buildCommand) : M (option error) :=
  if String.eqb (contextDir cmd) "" then
    ret (Some (errors_New
      ("please specify build context (e.g. " +:+ DQ +:+ "." +:+ DQ
       +:+ " for the current directory)")))
  else if String.eqb (contextDir cmd) "-" then
    let! (dir, err) := contextFromStdin (dockerfilePath cmd) in
    match err with
    | Some err =>
        ret (Some (fmt_Errorf "reading context from stdin failed: " err))
    | None =>
        let cmd := with_contextDir dir cmd in
        defer (os_RemoveAll (contextDir cmd)) (Run_request cmd)
    end
  else Run_request cmd.

(** [Run] of the build command. *)
Definition Run (cmd : buildCommand) (args : list string) : M (option error) :=
  if (length args <? 1)%nat then
    ret (Some (errorString "must pass a path to build"))
  else if (length (tags cmd) <? 1)%nat then
    ret (Some (errors_New "please specify an image tag with `-t`"))
  else
    match installRuncIfDNE E with
    | Some err => ret (Some err)
    | None =>
        let cmd := with_contextDir (hd "" args) cmd in
        if String.eqb (dockerfilePath cmd) "-" then
          let! (name, err) := dockerfileFromStdin in
          match err with
          | Some err =>
              ret (Some (fmt_Errorf "reading dockerfile from stdin failed: " err))
          | None =>
              let cmd := with_dockerfilePath name cmd in
              defer (os_RemoveAll (dockerfilePath cmd)) (Run_context cmd)
          end
        else Run_context cmd
    end.

End Build.

(** ** A concrete environment and concrete states for the examples *)

Definition byte_of_Z (v : Z) : byte := default x00 (Byte.of_N (Z.to_N v)).

Definition Z_of_byte (b : byte) : Z := Z.of_N (Byte.to_N b).

(** [width] octal digits of [v], most significant first. *)
Definition octal (width : nat) (v : Z) : list byte :=
  map (fun i => byte_of_Z (48 + (v / 8 ^ Z.of_nat i) mod 8)%Z) (rev (seq 0 width)).

(** The checksum of a tar header block: the sum of its bytes, those of the
    checksum field (offsets 148 to 155) counted as spaces. *)
Definition tar_checksum (block : list byte) : Z :=
  foldr Z.add 0%Z
    (imap (fun i b => if ((148 <=? i) && (i <? 156))%nat then 32%Z else Z_of_byte b)
       block).

(** The six octal digits stored in the checksum field. *)
Definition tar_stored_checksum (block : list byte) : Z :=
  fold_left (fun acc b => (acc * 8 + (Z_of_byte b - 48))%Z)
    (take 6 (drop 148 block)) 0%Z.

(** A ustar header block for an entry without link, owner names or
    prefix. *)
Definition ustar_block (name : string) (typeflag : byte) (size mode : Z)
  : list byte :=
  let fields (chksum : list byte) :=
    take 100 (String.list_byte_of_string name ++ replicate 100 x00)
    ++ octal 7 mode ++ [x00] ++ octal 7 0 ++ [x00] ++ octal 7 0 ++ [x00]
    ++ octal 11 size ++ [x00] ++ octal 11 0 ++ [x00]
    ++ chksum ++ [typeflag] ++ replicate 100 x00
    ++ String.list_byte_of_string "ustar" ++ [x00; x30; x30]
    ++ replicate 32 x00 ++ replicate 32 x00
    ++ octal 7 0 ++ [x00] ++ octal 7 0 ++ [x00]
    ++ replicate 155 x00 ++ replicate 12 x00 in
  fields (octal 6 (tar_checksum (fields (replicate 8 x20))) ++ [x00; x20]).

(** A host with umask 022 and [/tmp] as temporary directory.  The
    libraries' answers are fixed to what the examples need: the reference
    parser knows the name [myapp]; the tar reader over gzip yields the
    stream [ts]; and a 512-byte block is taken as a tar header when it is
    not all zeros and its checksum field holds the checksum of the block. *)
Definition host (ts : tar_stream) : Env :=
  {| umask := 0x12;
     os_TempDir := "/tmp";
     nextSuffix := fun n => String.concat "" (replicate (S n) "7");
     defaultDockerfileName := "Dockerfile";
     gzip_readExtra := fun _ => None;
     tar_over_gzip := fun _ => ts;
     tar_parseHeader := fun buf =>
       let block := take 512 buf in
       if forallb (Byte.eqb x00) block then Some io_EOF
       else if (tar_checksum block =? tar_stored_checksum block)%Z then None
       else Some (errorString "archive/tar: invalid tar header");
     platforms_DefaultString := "linux/amd64";
     reference_ParseNormalizedNamed := fun s =>
       if String.eqb s "myapp"
       then inl {| ref_domain := "docker.io"; ref_path := "library/myapp";
                   ref_tag := ""; ref_digest := "" |}
       else inr (errorString "invalid reference format");
     fmt_q := fun s => DQ +:+ s +:+ DQ;
     installRuncIfDNE := None;
     client_New := fun _ => None;
     client_Session := None;
     session_ID := "session0";
     identity_NewID := "ref0";
     errgroup_Wait := fun _ => None |}.

Definition no_entries : tar_stream := {| entries := []; last_error := io_EOF |}.

(** The ten fixed bytes of a gzip header (deflate, no optional field). *)
Definition gzip_header : list byte :=
  [x1f; x8b; x08; x00; x00; x00; x00; x00; x00; x03].

Definition gzip_stream : Reader :=
  {| rd_bytes := gzip_header; rd_fault := None |}.

(** An uncompressed tar archive with one entry, an empty regular file
    [Dockerfile]: its header block and the two blocks of zeros that end an
    archive. *)
Definition plain_tar : list byte :=
  ustar_block "Dockerfile" tar_TypeReg 0 0x1a4 ++ replicate 1024 x00.

(** A file tree with the directories [/tmp] and [/ctx]. *)
Definition tree0 : gmap path node :=
  <[ ["ctx"] := Dir 0x1ed ]> (<[ ["tmp"] := Dir 0x1ff ]> (<[ [] := Dir 0x1ed ]> ∅)).

Definition world_of (t : gmap path node) (input : list byte) : world :=
  {| fs := t; open_files := [];
     stdin := {| rd_bytes := input; rd_fault := None |};
     draws := 0; stdout := []; solves := [] |}.

Definition bytes_of (s : string) : list byte := String.list_byte_of_string s.

Definition reader_of (input : list byte) : Reader :=
  {| rd_bytes := input; rd_fault := None |}.

(** One regular-file entry. *)
Definition file_entry (name : string) (mode : Z) (content : string) : tar_entry :=
  {| entry_header := Some {| Name := name; Typeflag := tar_TypeReg; Mode := mode |};
     entry_data := bytes_of content;
     entry_fault := None |}.

(** One directory entry. *)
Definition dir_entry (name : string) : tar_entry :=
  {| entry_header := Some {| Name := name; Typeflag := tar_TypeDir; Mode := 0x1ed |};
     entry_data := [];
     entry_fault := None |}.

Definition archive (es : list tar_entry) : tar_stream :=
  {| entries := es; last_error := io_EOF |}.

Definition build_cmd (tags buildArgs labels : list string) : buildCommand :=
  {| buildArgs := buildArgs; dockerfilePath := ""; labels := labels;
     target := ""; tags := tags; platforms := []; contextDir := "";
     noConsole := false; noCache := false |}.

(** ** Vocabulary of the statements *)

(** [name] contains the byte [c]. *)
Fixpoint contains (c : ascii) (s : string) : bool :=
  match s with
  | "" => false
  | String d r => Ascii.eqb d c || contains c r
  end.

(** A path element that [Clean] keeps as it is. *)
Definition plain (c : string) : bool :=
  negb (String.eqb c "") && negb (String.eqb c ".")
  && negb (String.eqb c "..") && negb (contains "/" c).

(** An entry name with a [..] element. *)
Definition has_traversal (name : string) : bool :=
  existsb (String.eqb "..") (strings.Split name).

(** The location [p] is the directory [dest] or lies below it. *)
Definition inside (dest : string) (p : path) : Prop :=
  key_of dest `prefix_of` p.

(** How an extraction into [dest] may change a file tree [t] into [t']:
    directories stay as they are, files stay files with their mode, and
    when [dest] is a directory nothing changes outside it. *)
Definition fs_step (dest : string) (t t' : gmap path node) : Prop :=
  (∀ p m, t !! p = Some (Dir m) → t' !! p = Some (Dir m))
  ∧ (∀ p m d, t !! p = Some (File m d) → ∃ d', t' !! p = Some (File m d'))
  ∧ (is_dir (t !! key_of dest) = true →
     ∀ p, ¬ inside dest p → t' !! p = t !! p).

(** The elements [SecureJoin] appends to its root for an unsafe path. *)
Definition scoped_elems (unsafePath : string) : path :=
  key_of ("/" +:+ fold_left securejoin.step (securejoin.pieces unsafePath) "").

(** The shape of a file tree: the root is a directory, and what exists
    below it has a directory for parent. *)
Definition wf_tree (t : gmap path node) : Prop :=
  is_dir (t !! []) = true
  ∧ ∀ p, is_Some (t !! p) → is_dir (t !! removelast p) = true.

(** A directory entry whose target is there already. *)
Definition dir_present (dest : string) (t : gmap path node) (e : tar_entry)
  : Prop :=
  ∃ h, entry_header e = Some h ∧ Typeflag h = tar_TypeDir
       ∧ is_Some (t !! key_of (securejoin.SecureJoin dest (Name h))).

(** The first option of a list that has no [=]. *)
Definition first_malformed (opts : list string) : option string :=
  find (fun opt => negb (contains "=" opt)) opts.

(** The frontend attributes before the build args and labels are added. *)
Definition base_attrs (cmd : buildCommand) (platforms : string)
  : gmap string string :=
  let attrs : gmap string string :=
    <["platform" := platforms]>
      (<["target" := target cmd]>
         (<["filename" := filepath.Base (dockerfilePath cmd)]> ∅)) in
  if noCache cmd then <["no-cache" := ""]> attrs else attrs.

(** A computation that issues no solve request. *)
Definition keeps_solves {A} (m : M A) : Prop :=
  ∀ w, solves (m w).2 = solves w.

(** The request [Run] hands to the solver for a command and its
    attributes. *)
Definition request_of (E : Env) (cmd : buildCommand)
  (attrs : gmap string string) : SolveRequest :=
  {| Ref := identity_NewID E;
     Session := session_ID E;
     Exporter := "image";
     ExporterAttrs := <["name" := strings.Join (tags cmd) ","]> ∅;
     Frontend := "dockerfile.v0";
     FrontendAttrs := attrs |}.

(** What a run of the command started on [cmd] in [w] comes to: either it
    ends without success and without a request, or it built the request of
    a command [cmd'] that has the options of [cmd] and its tags
    normalized, issued it, and returned what the solve returned. *)
Definition Run_post (E : Env) (cmd : buildCommand) (w : world)
  (out : result (option error) * world) : Prop :=
  (out.1 ≠ Ret None ∧ solves out.2 = solves w)
  ∨ ∃ cmd' platforms attrs,
      buildArgs cmd' = buildArgs cmd ∧ labels cmd' = labels cmd
      ∧ target cmd' = target cmd ∧ noCache cmd' = noCache cmd
      ∧ Run_tags E (tags cmd) = inl (tags cmd')
      ∧ Run_frontendAttrs cmd' platforms = inl attrs
      ∧ out.1 = Ret (errgroup_Wait E (request_of E cmd' attrs))
      ∧ solves out.2 = solves w ++ [request_of E cmd' attrs].

(** A tag as the loop over the tags leaves it: the string of the parsed
    reference, with the default tag when the reference had neither tag nor
    digest. *)
Definition normalized_tag (E : Env) (tag normalized : string) : Prop :=
  ∃ named,
    reference_ParseNormalizedNamed E tag = inl named
    ∧ normalized = Named_String (reference_TagNameOnly named)
    ∧ (reference_IsNameOnly named = true →
       normalized = Named_Name named +:+ ":" +:+ defaultTag).

(** ** Further vocabulary *)

(** The entries of a stream that name a location at or below [p]: the
    only ones that can make [untar] touch [p]. *)
Definition targets (dest : string) (es : list tar_entry) (p : path) : Prop :=
  ∃ e h, e ∈ es ∧ entry_header e = Some h
         ∧ p `prefix_of` key_of (securejoin.SecureJoin dest (Name h)).

(** A computation that prints nothing. *)
Definition keeps_stdout {A} (m : M A) : Prop :=
  ∀ w, stdout (m w).2 = stdout w.

(** The two lines [Run] prints before the build and the line it prints
    after it, for the first tag of [tags]. *)
Definition lines_before (tags : list string) : list string :=
  [ "Building " +:+ hd "" tags +:+ LF;
    "Setting up the rootfs... this may take a bit." +:+ LF ].

Definition line_after (tags : list string) : string :=
  "Successfully built " +:+ hd "" tags +:+ LF.

(** What a run prints: nothing, the two lines before the build, or those
    and the line after it; the last of these exactly when it returns
    nil. *)
Definition Run_prints (E : Env) (cmd : buildCommand) (w : world)
  (out : result (option error) * world) : Prop :=
  (out.1 ≠ Ret None ∧ stdout out.2 = stdout w)
  ∨ ∃ tags', Run_tags E (tags cmd) = inl tags'
             ∧ ((out.1 ≠ Ret None
                 ∧ stdout out.2 = stdout w ++ lines_before tags')
                ∨ (out.1 = Ret None
                   ∧ stdout out.2
                     = stdout w ++ lines_before tags' ++ [line_after tags'])).

(** * Properties *)

(** ** Strings and paths *)

Lemma append_cons c a b : String c a +:+ b = String c (a +:+ b).
Proof. reflexivity. Qed.

Lemma Split_not_nil s : strings.Split s ≠ [].
Proof.
  destruct s as [|c r]; simpl; [done|].
  destruct (Ascii.eqb c "/"); [done|].
  destruct (strings.Split r); done.
Qed.

Lemma Split_app_slash a b :
  strings.Split (a +:+ String "/" b) = strings.Split a ++ strings.Split b.
Proof.
  induction a as [|c a IH].
  - reflexivity.
  - rewrite append_cons. simpl. rewrite IH.
    destruct (Ascii.eqb c "/"); [done|].
    pose proof (Split_not_nil a) as Hne.
    destruct (strings.Split a); done.
Qed.

Lemma Split_contains s : Forall (fun c => contains "/" c = false) (strings.Split s).
Proof.
  induction s as [|c r IH]; simpl.
  - by constructor.
  - destruct (Ascii.eqb c "/") eqn:Hc.
    + by constructor.
    + destruct (strings.Split r) as [|h t].
      * constructor; [|done]. simpl. by rewrite Hc.
      * inversion IH; subst. constructor; [|done]. simpl. by rewrite Hc.
Qed.

Lemma Split_one c : contains "/" c = false → strings.Split c = [c].
Proof.
  induction c as [|d r IH]; simpl; [done|].
  intros H. apply orb_false_iff in H as [Hd Hr].
  rewrite Hd, (IH Hr). done.
Qed.

Lemma Split_Join cs :
  cs ≠ [] → Forall (fun c => contains "/" c = false) cs →
  strings.Split (strings.Join cs "/") = cs.
Proof.
  unfold strings.Join.
  induction cs as [|c cs IH]; [done|].
  intros _ Hall. inversion Hall as [|? ? Hc Hcs]; subst.
  destruct cs as [|c' cs'].
  - simpl. by apply Split_one.
  - change (String.concat "/" (c :: c' :: cs'))
      with (c +:+ String "/" (String.concat "/" (c' :: cs'))).
    rewrite Split_app_slash, (Split_one c Hc), IH; done.
Qed.

Lemma plain_spec c :
  plain c = true ↔ c ≠ "" ∧ c ≠ "." ∧ c ≠ ".." ∧ contains "/" c = false.
Proof.
  unfold plain. rewrite !andb_true_iff, !negb_true_iff, !String.eqb_neq.
  tauto.
Qed.

Lemma clean_step_plain rooted out c :
  plain c = true → filepath.clean_step rooted out c = c :: out.
Proof.
  intros (H1 & H2 & H3 & _)%plain_spec. unfold filepath.clean_step.
  apply String.eqb_neq in H1, H2, H3. by rewrite H1, H2, H3.
Qed.

Lemma clean_fold_plain rooted cs out :
  Forall (fun c => plain c = true) cs →
  fold_left (filepath.clean_step rooted) cs out = rev cs ++ out.
Proof.
  intros Hall. revert out.
  induction Hall as [|c cs Hc _ IH]; intros out; simpl; [done|].
  rewrite clean_step_plain, IH by done. by rewrite <- app_assoc.
Qed.

Lemma clean_elems_plain rooted cs :
  Forall (fun c => plain c = true) cs → filepath.clean_elems rooted cs = cs.
Proof.
  intros H. unfold filepath.clean_elems.
  rewrite clean_fold_plain, app_nil_r by done. apply rev_involutive.
Qed.

(** What [Clean] keeps of a rooted path are plain elements. *)
Lemma clean_fold_rooted_plain cs out :
  Forall (fun c => contains "/" c = false) cs →
  Forall (fun c => plain c = true) out →
  Forall (fun c => plain c = true) (fold_left (filepath.clean_step true) cs out).
Proof.
  intros Hcs. revert out.
  induction Hcs as [|c cs Hc _ IH]; intros out Hout; simpl; [done|].
  apply IH. unfold filepath.clean_step.
  destruct (String.eqb_spec c ""); [done|].
  destruct (String.eqb_spec c "."); [done|]. simpl.
  destruct (String.eqb_spec c "..").
  - destruct out as [|top rest]; [done|].
    inversion Hout as [|? ? Htop Hrest]; subst.
    destruct (String.eqb_spec top ".."); [|done].
    subst. done.
  - constructor; [|done]. apply plain_spec. done.
Qed.

Lemma key_of_plain name : Forall (fun c => plain c = true) (key_of name).
Proof.
  unfold key_of, filepath.clean_elems.
  apply Forall_rev, clean_fold_rooted_plain; [apply Split_contains | done].
Qed.

(** The scan of a relative path keeps what the scan of the same path from
    the root keeps, over a run of [..] elements. *)
Lemma clean_fold_relative cs outT k :
  Forall (fun c => contains "/" c = false) cs →
  Forall (fun c => plain c = true) outT →
  ∃ k', fold_left (filepath.clean_step false) cs (outT ++ replicate k "..")
        = fold_left (filepath.clean_step true) cs outT ++ replicate k' "..".
Proof.
  intros Hcs. revert outT k.
  induction Hcs as [|c cs Hc _ IH]; intros outT k HoutT; simpl.
  - by exists k.
  - unfold filepath.clean_step at 2 4.
    destruct (String.eqb_spec c ""); [by apply IH|].
    destruct (String.eqb_spec c "."); [by apply IH|]. simpl.
    destruct (String.eqb_spec c "..") as [->|Hdd].
    + destruct outT as [|top rest].
      * simpl. destruct k as [|k]; simpl.
        -- apply (IH [] 1). done.
        -- apply (IH [] (S (S k))). done.
      * inversion HoutT as [|? ? Htop Hrest]; subst. simpl.
        apply plain_spec in Htop as (_ & _ & Htop & _).
        apply String.eqb_neq in Htop. rewrite Htop. by apply IH.
    + apply (IH (c :: outT) k). constructor; [|done].
      apply plain_spec. done.
Qed.

Lemma clean_dots cs :
  Forall (fun c => c = "..") cs →
  fold_left (filepath.clean_step true) cs [] = [].
Proof. induction 1 as [|c cs -> _ IH]; simpl; done. Qed.

Lemma clean_elems_relative cs :
  Forall (fun c => contains "/" c = false) cs →
  filepath.clean_elems true (filepath.clean_elems false cs)
  = filepath.clean_elems true cs.
Proof.
  intros Hcs.
  destruct (clean_fold_relative cs [] 0 Hcs) as [k' Hk']; [done|].
  simpl in Hk'. unfold filepath.clean_elems at 2. rewrite Hk'.
  rewrite rev_app_distr.
  unfold filepath.clean_elems at 1.
  rewrite fold_left_app, (clean_dots (rev (replicate k' "..")))
    by (apply Forall_rev, Forall_replicate; done).
  rewrite clean_fold_plain, app_nil_r, rev_involutive.
  - done.
  - apply Forall_rev, clean_fold_rooted_plain; done.
Qed.

Lemma clean_relative_contains cs out :
  Forall (fun c => contains "/" c = false) cs →
  Forall (fun c => contains "/" c = false) out →
  Forall (fun c => contains "/" c = false)
    (fold_left (filepath.clean_step false) cs out).
Proof.
  intros Hcs. revert out.
  induction Hcs as [|c cs Hc _ IH]; intros out Hout; simpl; [done|].
  apply IH. unfold filepath.clean_step.
  destruct (String.eqb c "" || String.eqb c "."); [done|].
  destruct (String.eqb c "..").
  - destruct out as [|top rest]; [by constructor|].
    inversion Hout; subst. destruct (String.eqb top ".."); [by constructor|done].
  - by constructor.
Qed.

Lemma plain_contains cs :
  Forall (fun c => plain c = true) cs →
  Forall (fun c => contains "/" c = false) cs.
Proof. intros H. eapply Forall_impl; [exact H|]. intros c Hc%plain_spec. tauto. Qed.

(** Cleaning a name does not change the location it resolves to. *)
Lemma key_of_Clean name : key_of (filepath.Clean name) = key_of name.
Proof.
  unfold filepath.Clean.
  destruct (filepath.IsAbs name) eqn:Habs.
  - fold (key_of name).
    pose proof (key_of_plain name) as Hplain.
    unfold key_of at 1.
    change ("/" +:+ strings.Join (key_of name) "/")
      with ("" +:+ String "/" (strings.Join (key_of name) "/")).
    rewrite Split_app_slash. simpl strings.Split at 1.
    destruct (key_of name) as [|c cs] eqn:Hk.
    + reflexivity.
    + rewrite Split_Join; [|done|by apply plain_contains].
      transitivity (filepath.clean_elems true (c :: cs)); [reflexivity|].
      by apply clean_elems_plain.
  - pose proof (Split_contains name) as Hsplit.
    pose proof (clean_elems_relative _ Hsplit) as Hrel.
    assert (Forall (fun c => contains "/" c = false)
              (filepath.clean_elems false (strings.Split name))) as Hout.
    { apply Forall_rev, clean_relative_contains; done. }
    destruct (filepath.clean_elems false (strings.Split name)) as [|c cs] eqn:Hk.
    + unfold key_of at 2. rewrite <- Hrel. reflexivity.
    + unfold key_of. rewrite Split_Join; done.
Qed.

(** Appending a rooted clean path to a name appends its elements to the
    location. *)
Lemma key_of_append root name :
  key_of (root +:+ filepath.Clean ("/" +:+ name))
  = key_of root ++ key_of ("/" +:+ name).
Proof.
  unfold filepath.Clean.
  change (filepath.IsAbs ("/" +:+ name)) with true. cbv iota.
  fold (key_of ("/" +:+ name)).
  pose proof (key_of_plain ("/" +:+ name)) as Hplain.
  set (tail := key_of ("/" +:+ name)) in *.
  change ("/" +:+ strings.Join tail "/") with (String "/" (strings.Join tail "/")).
  unfold key_of at 1. rewrite Split_app_slash.
  unfold filepath.clean_elems. rewrite fold_left_app.
  fold (filepath.clean_elems true (strings.Split root)).
  destruct tail as [|c cs] eqn:Ht.
  - change (strings.Split (strings.Join [] "/")) with [""].
    change (fold_left (filepath.clean_step true) [""] ?out) with out.
    by rewrite app_nil_r.
  - rewrite Split_Join; [|done|by apply plain_contains].
    rewrite clean_fold_plain by done.
    by rewrite rev_app_distr, rev_involutive.
Qed.

Lemma key_of_SecureJoin_scoped root unsafePath :
  key_of (securejoin.SecureJoin root unsafePath)
  = key_of root ++ scoped_elems unsafePath.
Proof.
  unfold securejoin.SecureJoin, scoped_elems.
  rewrite key_of_Clean. apply key_of_append.
Qed.

(** [SecureJoin] resolves to a location inside its root, whatever the
    unsafe path is. *)
Lemma key_of_SecureJoin root unsafePath :
  ∃ tail, key_of (securejoin.SecureJoin root unsafePath) = key_of root ++ tail.
Proof. eexists. apply key_of_SecureJoin_scoped. Qed.

(** ** The file tree *)

Lemma set_fs_id w : set_fs (fs w) w = w.
Proof. by destruct w. Qed.

Lemma set_fs_set_fs t t' w : set_fs t' (set_fs t w) = set_fs t' w.
Proof. by destruct w. Qed.

Lemma fs_set_fs t w : fs (set_fs t w) = t.
Proof. by destruct w. Qed.

Lemma fs_step_refl dest t : fs_step dest t t.
Proof. split; [|split]; eauto. Qed.

Lemma fs_step_trans dest t1 t2 t3 :
  fs_step dest t1 t2 → fs_step dest t2 t3 → fs_step dest t1 t3.
Proof.
  intros (Hd1 & Hf1 & Hc1) (Hd2 & Hf2 & Hc2). split; [|split].
  - intros p m Hp. eauto.
  - intros p m d Hp. destruct (Hf1 _ _ _ Hp) as [d' Hp']. eauto.
  - intros Hdest p Hp. rewrite Hc2, Hc1; auto.
    destruct (t1 !! key_of dest) as [[m|]|] eqn:Hk; try done.
    by rewrite (Hd1 _ _ Hk).
Qed.

Lemma insert_file_step dest t key m d :
  (∀ m', t !! key ≠ Some (Dir m')) →
  (∀ m0 d0, t !! key = Some (File m0 d0) → m0 = m) →
  inside dest key →
  fs_step dest t (<[key := File m d]> t).
Proof.
  intros Hnd Hmode Hin. split; [|split].
  - intros p m0 Hp. rewrite lookup_insert_ne; [done|].
    intros ->. by eapply Hnd.
  - intros p m0 d0 Hp. destruct (decide (key = p)) as [->|Hne].
    + rewrite lookup_insert_eq, (Hmode _ _ Hp). eauto.
    + rewrite lookup_insert_ne by done. eauto.
  - intros _ p Hout. rewrite lookup_insert_ne; [done|]. by intros ->.
Qed.

Lemma remove_first_head key l : remove_first key (key :: l) = l.
Proof. simpl. by rewrite decide_True. Qed.

Lemma prefix_snoc_inv (d l : path) c :
  d `prefix_of` l ++ [c] → d = l ++ [c] ∨ d `prefix_of` l.
Proof.
  intros [k Hk].
  destruct (decide (k = [])) as [->|Hne].
  - left. by rewrite app_nil_r in Hk.
  - right. destruct (exists_last Hne) as (k' & c' & ->).
    rewrite app_assoc in Hk. apply app_inj_tail in Hk as [Hl _].
    by exists k'.
Qed.

Section TreeLemmas.

Variable E : Env.

Lemma mkdir_inl key perm t t' :
  mkdir E key perm t = inl t' →
  t !! key = None ∧ t' = <[key := Dir (create_mode E perm)]> t.
Proof.
  unfold mkdir. destruct (t !! key); [done|].
  destruct (is_dir _); [|done]. intros [= <-]. done.
Qed.

Lemma mkdirAll_unfold rkey perm t :
  mkdirAll E rkey perm t =
  match t !! rev rkey with
  | Some (Dir _) => inl t
  | Some (File _ _) => inr (PathError "mkdir" (path_string (rev rkey)) ENOTDIR)
  | None =>
      match match rkey with
            | [] => inl t
            | _ :: rparent => mkdirAll E rparent perm t
            end with
      | inr err => inr err
      | inl t' =>
          match mkdir E (rev rkey) perm t' with
          | inl t'' => inl t''
          | inr errno => inr (PathError "mkdir" (path_string (rev rkey)) errno)
          end
      end
  end.
Proof. by destruct rkey. Qed.

(** [MkdirAll] changes the tree only by adding directories on the way
    from the deepest existing ancestor down to the path. *)
Lemma mkdirAll_changes rkey perm t t' :
  mkdirAll E rkey perm t = inl t' →
  is_dir (t' !! rev rkey) = true ∧
  ∀ p, t' !! p = t !! p ∨
       (t !! p = None ∧ t' !! p = Some (Dir (create_mode E perm))
        ∧ p `prefix_of` rev rkey
        ∧ ∀ d, d `prefix_of` rev rkey → is_Some (t !! d) → d `prefix_of` p).
Proof.
  revert t'. induction rkey as [|c rparent IH]; intros t';
    rewrite mkdirAll_unfold;
    destruct (t !! rev _) as [[m|m d]|] eqn:Hk; try done;
    try (intros [= <-]; rewrite Hk; split; [done|]; by left).
  - destruct (mkdir E (rev []) perm t) as [t''|] eqn:Hm; [|done].
    intros [= <-]. apply mkdir_inl in Hm as [_ ->]. split.
    + by rewrite lookup_insert_eq.
    + intros p. destruct (decide (p = rev [])) as [->|Hne].
      * right. rewrite lookup_insert_eq. repeat split; try done.
      * left. by rewrite lookup_insert_ne.
  - destruct (mkdirAll E rparent perm t) as [t1|] eqn:Hparent; [|done].
    destruct (mkdir E (rev (c :: rparent)) perm t1) as [t''|] eqn:Hm; [|done].
    intros [= <-]. apply mkdir_inl in Hm as [Hnone ->].
    destruct (IH t1 eq_refl) as [_ IHp]. split.
    + by rewrite lookup_insert_eq.
    + intros p. destruct (decide (p = rev (c :: rparent))) as [->|Hne].
      * right. rewrite lookup_insert_eq. repeat split; try done.
      * rewrite lookup_insert_ne by done.
        destruct (IHp p) as [Heq|(Hn & Hd & Hpre & Hanc)]; [by left|right].
        repeat split; try done.
        -- simpl. by apply prefix_app_r.
        -- intros d Hdpre Hsome. apply Hanc; [|done].
           simpl in Hdpre. apply prefix_snoc_inv in Hdpre as [->|Hdpre]; [|done].
           simpl in Hk. rewrite Hk in Hsome. by destruct Hsome.
Qed.

Lemma mkdirAll_step dest tail perm t t' :
  mkdirAll E (rev (key_of dest ++ tail)) perm t = inl t' →
  fs_step dest t t'.
Proof.
  intros [_ Hch]%mkdirAll_changes. rewrite rev_involutive in Hch.
  split; [|split].
  - intros p m Hp. destruct (Hch p) as [->|(Hn & _)]; [done|congruence].
  - intros p m d Hp. destruct (Hch p) as [->|(Hn & _)]; [eauto|congruence].
  - intros Hdest p Hout.
    destruct (Hch p) as [->|(_ & _ & _ & Hanc)]; [done|].
    destruct Hout. apply Hanc; [by apply prefix_app_r|].
    destruct (t !! key_of dest); [by eexists|done].
Qed.

(** [OpenFile] with the flags [untar] passes: an existing file is opened
    as it is, with its content and its mode; a missing one is created
    empty in an existing directory. *)
Lemma os_OpenFile_untar name perm w :
  os_OpenFile E name (Z.lor O_CREATE O_RDWR) perm w =
  match fs w !! key_of name with
  | Some (Dir _) => (Ret (inr (PathError "open" name EISDIR)), w)
  | Some (File m d) =>
      (Ret (inl {| fd_key := key_of name; fd_name := name |}),
       set_open_files (key_of name :: open_files w) w)
  | None =>
      if is_dir (fs w !! removelast (key_of name))
      then (Ret (inl {| fd_key := key_of name; fd_name := name |}),
            set_open_files (key_of name :: open_files w)
              (set_fs (<[key_of name := File (create_mode E perm) []]> (fs w)) w))
      else (Ret (inr (PathError "open" name
                        (missing_errno (fs w) (key_of name)))), w)
  end.
Proof.
  unfold os_OpenFile.
  destruct (fs w !! key_of name) as [[m|m d]|] eqn:Hk; try done.
  change (has_flag (Z.lor O_CREATE O_RDWR) O_CREATE) with true.
  change (has_flag (Z.lor O_CREATE O_RDWR) O_EXCL) with false.
  change (has_flag (Z.lor O_CREATE O_RDWR) O_TRUNC) with false.
  simpl. rewrite insert_id by done. by rewrite set_fs_id.
Qed.

(** [OpenFile] with the flags of [os.Create]: an existing file is emptied. *)
Lemma os_Create_spec name w :
  os_Create E name w =
  match fs w !! key_of name with
  | Some (Dir _) => (Ret (inr (PathError "open" name EISDIR)), w)
  | Some (File m d) =>
      (Ret (inl {| fd_key := key_of name; fd_name := name |}),
       set_open_files (key_of name :: open_files w)
         (set_fs (<[key_of name := File m []]> (fs w)) w))
  | None =>
      if is_dir (fs w !! removelast (key_of name))
      then (Ret (inl {| fd_key := key_of name; fd_name := name |}),
            set_open_files (key_of name :: open_files w)
              (set_fs (<[key_of name := File (create_mode E 0x1b6) []]> (fs w)) w))
      else (Ret (inr (PathError "open" name
                        (missing_errno (fs w) (key_of name)))), w)
  end.
Proof.
  unfold os_Create, os_OpenFile.
  destruct (fs w !! key_of name) as [[m|m d]|] eqn:Hk; done.
Qed.

(** Copying into a file that was just opened and closing it. *)
Lemma copy_close key name data fault m old o w :
  fs w !! key = Some (File m old) →
  (let! err := io_Copy {| fd_key := key; fd_name := name |} data fault in
   file_Close {| fd_key := key; fd_name := name |} ;;;
   match err with
   | Some err => ret (Some err)
   | None => ret None
   end) (set_open_files (key :: o) w)
  = (Ret fault,
     set_open_files o (set_fs (<[key := File m (write_at0 data old)]> (fs w)) w)).
Proof.
  intros Hk. unfold io_Copy, bind, file_Write, file_Close, modify, ret.
  destruct w as [t0 o0 i n out sol]. simpl in *. rewrite Hk. simpl.
  rewrite decide_True by done. by destruct fault.
Qed.

End TreeLemmas.

(** ** The extractor, entry by entry *)

Section UntarLemmas.

Variable E : Env.

Lemma untar_entry_nil dest e w :
  entry_header e = None → untar_entry E dest e w = (Ret None, w).
Proof. unfold untar_entry. by intros ->. Qed.

Lemma untar_entry_skipped dest e h w :
  entry_header e = Some h →
  Byte.eqb (Typeflag h) tar_TypeDir = false →
  Byte.eqb (Typeflag h) tar_TypeReg = false →
  untar_entry E dest e w = (Ret None, w).
Proof. unfold untar_entry. by intros -> -> ->. Qed.

(** A directory entry whose target exists leaves everything as it is. *)
Lemma untar_entry_dir_exists dest e h w :
  entry_header e = Some h →
  Byte.eqb (Typeflag h) tar_TypeDir = true →
  is_Some (fs w !! key_of (securejoin.SecureJoin dest (Name h))) →
  untar_entry E dest e w = (Ret None, w).
Proof.
  unfold untar_entry. intros -> -> [n Hn].
  unfold bind, os_Stat. by rewrite Hn.
Qed.

(** A directory entry whose target is missing is [MkdirAll]. *)
Lemma untar_entry_dir_missing dest e h w :
  entry_header e = Some h →
  Byte.eqb (Typeflag h) tar_TypeDir = true →
  fs w !! key_of (securejoin.SecureJoin dest (Name h)) = None →
  untar_entry E dest e w =
  match mkdirAll E (rev (key_of (securejoin.SecureJoin dest (Name h)))) 0x1ed (fs w) with
  | inl t => (Ret None, set_fs t w)
  | inr err => (Ret (Some err), w)
  end.
Proof.
  unfold untar_entry. intros -> -> Hn.
  unfold bind, os_Stat, os_MkdirAll. rewrite Hn.
  by destruct (mkdirAll _ _ _ _).
Qed.

(** A regular-file entry: the file is opened without truncation, written
    from its start and closed. *)
Lemma untar_entry_reg dest e h w :
  entry_header e = Some h →
  Byte.eqb (Typeflag h) tar_TypeDir = false →
  Byte.eqb (Typeflag h) tar_TypeReg = true →
  let target := securejoin.SecureJoin dest (Name h) in
  untar_entry E dest e w =
  match fs w !! key_of target with
  | Some (Dir _) => (Ret (Some (PathError "open" target EISDIR)), w)
  | Some (File m old) =>
      (Ret (entry_fault e),
       set_fs (<[key_of target := File m (write_at0 (entry_data e) old)]> (fs w)) w)
  | None =>
      if is_dir (fs w !! removelast (key_of target))
      then (Ret (entry_fault e),
            set_fs (<[key_of target :=
                        File (create_mode E (os_FileMode (Mode h))) (entry_data e)]>
                      (fs w)) w)
      else (Ret (Some (PathError "open" target
                         (missing_errno (fs w) (key_of target)))), w)
  end.
Proof.
  intros Hh Hd Hr target. unfold untar_entry. rewrite Hh, Hd, Hr.
  fold target. unfold bind at 1. rewrite os_OpenFile_untar.
  destruct (fs w !! key_of target) as [[m|m old]|] eqn:Hk; [done| |].
  - cbv beta iota.
    rewrite (copy_close _ _ _ _ m old) by done.
    by destruct w.
  - destruct (is_dir _); [|done]. cbv beta iota.
    rewrite (copy_close _ _ _ _ (create_mode E (os_FileMode (Mode h))) [])
      by (rewrite fs_set_fs; apply lookup_insert_eq).
    rewrite fs_set_fs, insert_insert_eq. unfold write_at0.
    rewrite drop_nil, app_nil_r. by destruct w.
Qed.

(** One entry never panics, touches nothing but the file tree, and changes
    the tree by an [fs_step]. *)
Lemma untar_entry_step dest e w :
  ∃ r t', untar_entry E dest e w = (Ret r, set_fs t' w)
          ∧ fs_step dest (fs w) t'.
Proof.
  destruct (entry_header e) as [h|] eqn:Hh.
  2: { exists None, (fs w). rewrite set_fs_id.
       split; [by apply untar_entry_nil | apply fs_step_refl]. }
  destruct (key_of_SecureJoin dest (Name h)) as [tail Htail].
  destruct (Byte.eqb (Typeflag h) tar_TypeDir) eqn:Hdir.
  - destruct (fs w !! key_of (securejoin.SecureJoin dest (Name h))) as [n|] eqn:Hk.
    + exists None, (fs w). rewrite set_fs_id. split; [|apply fs_step_refl].
      eapply untar_entry_dir_exists; eauto.
    + rewrite (untar_entry_dir_missing dest e h w) by done.
      destruct (mkdirAll _ _ _ _) as [t|err] eqn:Hm.
      * exists None, t. split; [done|].
        rewrite Htail in Hm. by eapply mkdirAll_step.
      * exists (Some err), (fs w). rewrite set_fs_id.
        split; [done | apply fs_step_refl].
  - destruct (Byte.eqb (Typeflag h) tar_TypeReg) eqn:Hreg.
    2: { exists None, (fs w). rewrite set_fs_id. split; [|apply fs_step_refl].
         eapply untar_entry_skipped; eauto. }
    rewrite (untar_entry_reg dest e h w) by done. cbv zeta.
    assert (inside dest (key_of (securejoin.SecureJoin dest (Name h)))) as Hin.
    { rewrite Htail. by apply prefix_app_r. }
    destruct (fs w !! key_of (securejoin.SecureJoin dest (Name h)))
      as [[m|m old]|] eqn:Hk.
    + eexists _, (fs w). rewrite set_fs_id. split; [done | apply fs_step_refl].
    + eexists _, _. split; [done|].
      apply insert_file_step; [| |done]; rewrite Hk; congruence.
    + destruct (is_dir _).
      * eexists _, _. split; [done|].
        apply insert_file_step; [| |done]; rewrite Hk; congruence.
      * eexists _, (fs w). rewrite set_fs_id. split; [done | apply fs_step_refl].
Qed.

(** The loop over the entries: the same for a whole stream. *)
Lemma untar_entries_step dest es last w :
  ∃ r t', untar_entries E dest es last w = (Ret r, set_fs t' w)
          ∧ fs_step dest (fs w) t'.
Proof.
  revert w. induction es as [|e es IH]; intros w; simpl.
  - exists (match last with io_EOF => None | err => Some err end), (fs w).
    rewrite set_fs_id. split; [by destruct last | apply fs_step_refl].
  - unfold bind.
    destruct (untar_entry_step dest e w) as (r & t1 & -> & Hstep1).
    destruct r as [err|].
    + by exists (Some err), t1.
    + destruct (IH (set_fs t1 w)) as (r & t2 & -> & Hstep2).
      exists r, t2. rewrite set_fs_set_fs. split; [done|].
      rewrite fs_set_fs in Hstep2. by eapply fs_step_trans.
Qed.

Lemma untar_step dest r w :
  ∃ res t', untar E dest r w = (Ret res, set_fs t' w)
            ∧ fs_step dest (fs w) t'.
Proof.
  unfold untar. destruct (gzip_NewReader E r) as [err|].
  - exists (Some err), (fs w). rewrite set_fs_id.
    split; [done | apply fs_step_refl].
  - apply untar_entries_step.
Qed.

(** *** The extraction keeps the shape of the tree *)

Lemma wf_insert_file t key m d :
  wf_tree t → (∀ m', t !! key ≠ Some (Dir m')) →
  is_dir (t !! removelast key) = true →
  wf_tree (<[key := File m d]> t).
Proof.
  intros [Hroot Hwf] Hnd Hparent.
  assert (∀ q, is_dir (t !! q) = true → is_dir (<[key := File m d]> t !! q) = true)
    as Hkeep.
  { intros q Hq. rewrite lookup_insert_ne; [done|]. intros ->.
    destruct (t !! q) as [[m'|]|] eqn:Hk; try done. by eapply Hnd. }
  split; [by apply Hkeep|].
  intros p Hp. apply Hkeep. destruct (decide (key = p)) as [->|Hne]; [done|].
  rewrite lookup_insert_ne in Hp by done. by apply Hwf.
Qed.

Lemma wf_insert_dir t key m :
  wf_tree t → t !! key = None →
  is_dir (t !! removelast key) = true →
  wf_tree (<[key := Dir m]> t).
Proof.
  intros [Hroot Hwf] Hnone Hparent.
  assert (∀ q, is_dir (t !! q) = true → is_dir (<[key := Dir m]> t !! q) = true)
    as Hkeep.
  { intros q Hq. rewrite lookup_insert_ne; [done|]. intros ->.
    by rewrite Hnone in Hq. }
  split; [by apply Hkeep|].
  intros p Hp. apply Hkeep. destruct (decide (key = p)) as [->|Hne]; [done|].
  rewrite lookup_insert_ne in Hp by done. by apply Hwf.
Qed.

Lemma wf_mkdir key perm t t' :
  wf_tree t → mkdir E key perm t = inl t' → wf_tree t'.
Proof.
  unfold mkdir. intros Hwf.
  destruct (t !! key) eqn:Hk; [done|].
  destruct (is_dir (t !! removelast key)) eqn:Hp; [|done].
  intros [= <-]. by apply wf_insert_dir.
Qed.

Lemma wf_mkdirAll rkey perm t t' :
  wf_tree t → mkdirAll E rkey perm t = inl t' → wf_tree t'.
Proof.
  intros Hwf. revert t'. induction rkey as [|c rparent IH]; intros t';
    rewrite mkdirAll_unfold;
    destruct (t !! rev _) as [[m|m d]|]; try done; try (by intros [= <-]).
  - destruct (mkdir E (rev []) perm t) as [t''|] eqn:Hm; [|done].
    intros [= <-]. by eapply wf_mkdir.
  - destruct (mkdirAll E rparent perm t) as [t1|]; [|done].
    destruct (mkdir E (rev (c :: rparent)) perm t1) as [t''|] eqn:Hm; [|done].
    intros [= <-]. eapply wf_mkdir; [|exact Hm]. by apply IH.
Qed.

Lemma wf_untar_entry dest e w :
  wf_tree (fs w) → wf_tree (fs (untar_entry E dest e w).2).
Proof.
  intros Hwf. destruct (entry_header e) as [h|] eqn:Hh.
  2: { by rewrite untar_entry_nil. }
  destruct (Byte.eqb (Typeflag h) tar_TypeDir) eqn:Hdir.
  - destruct (fs w !! key_of (securejoin.SecureJoin dest (Name h))) as [n|] eqn:Hk.
    + by rewrite (untar_entry_dir_exists dest e h w).
    + rewrite (untar_entry_dir_missing dest e h w) by done.
      destruct (mkdirAll _ _ _ _) as [t|err] eqn:Hm; [|done].
      simpl. rewrite ?fs_set_fs. by eapply wf_mkdirAll.
  - destruct (Byte.eqb (Typeflag h) tar_TypeReg) eqn:Hreg.
    2: { by rewrite (untar_entry_skipped dest e h w). }
    rewrite (untar_entry_reg dest e h w) by done. cbv zeta.
    destruct (fs w !! key_of (securejoin.SecureJoin dest (Name h)))
      as [[m|m old]|] eqn:Hk; [done| |].
    + simpl. rewrite ?fs_set_fs. apply wf_insert_file; [done| |].
      * intros m'. by rewrite Hk.
      * apply Hwf. by rewrite Hk.
    + destruct (is_dir _) eqn:Hp; [|done].
      simpl. rewrite ?fs_set_fs. apply wf_insert_file; [done| |done].
      intros m'. by rewrite Hk.
Qed.

Lemma wf_untar_entries dest es last w :
  wf_tree (fs w) → wf_tree (fs (untar_entries E dest es last w).2).
Proof.
  revert w. induction es as [|e es IH]; intros w Hwf; simpl.
  - by destruct last.
  - unfold bind. pose proof (wf_untar_entry dest e w Hwf) as Hwf1.
    destruct (untar_entry E dest e w) as [[[err|]|msg] w1]; simpl in *; try done.
    by apply IH.
Qed.

(** [untar] keeps the shape of the file tree, which is what the
    operations of the model rely on. *)
Lemma wf_untar dest r w :
  wf_tree (fs w) → wf_tree (fs (untar E dest r w).2).
Proof.
  intros Hwf. unfold untar. destruct (gzip_NewReader E r); [done|].
  by apply wf_untar_entries.
Qed.

End UntarLemmas.

(** ** The extractor *)

(** C1, as the code has it.  Whatever names the entries of a stream carry,
    traversal segments and absolute names included, [untar] into an
    existing directory [dest] never panics and creates or changes nothing
    outside [dest]: every entry name resolves to a location inside [dest].
    The names are confined, not rejected, so the extraction need not
    fail. *)
Theorem untar_confined E dest r w :
  is_dir (fs w !! key_of dest) = true →
  (∀ name, inside dest (key_of (securejoin.SecureJoin dest name)))
  ∧ ∃ res t', untar E dest r w = (Ret res, set_fs t' w)
              ∧ ∀ p, ¬ inside dest p → t' !! p = fs w !! p.
Proof.
  intros Hdest. split.
  - intros name. destruct (key_of_SecureJoin dest name) as [tail ->].
    by apply prefix_app_r.
  - destruct (untar_step E dest r w) as (res & t' & Hrun & _ & _ & Hconf).
    exists res, t'. split; [done|]. by apply Hconf.
Qed.

Lemma untar_confined_witness :
  ∃ res t',
    untar (host (archive [dir_entry "/etc"; file_entry "../../passwd" 0x1a4 "root"]))
      "/ctx" gzip_stream (world_of tree0 [])
    = (Ret res, set_fs t' (world_of tree0 []))
    ∧ ∀ p, ¬ inside "/ctx" p → t' !! p = tree0 !! p.
Proof.
  apply (untar_confined
           (host (archive [dir_entry "/etc"; file_entry "../../passwd" 0x1a4 "root"]))
           "/ctx" gzip_stream (world_of tree0 [])).
  reflexivity.
Defined.

(** C1 as stated fails: a stream with an absolute directory name and a file
    name with traversal segments is extracted without error, into
    [/ctx/etc] and [/ctx/passwd]. *)
Lemma untar_traversal_not_rejected :
  filepath.IsAbs "/etc" = true
  ∧ has_traversal "../../passwd" = true
  ∧ untar (host (archive [dir_entry "/etc"; file_entry "../../passwd" 0x1a4 "root"]))
      "/ctx" gzip_stream (world_of tree0 [])
    = (Ret None,
       world_of (<[ ["ctx"; "passwd"] := File 0x1a4 (bytes_of "root") ]>
                   (<[ ["ctx"; "etc"] := Dir 0x1ed ]> tree0)) []).
Proof. split; [|split]; vm_compute; reflexivity. Qed.

Lemma DetectCompression_not_gzip source :
  DetectCompression source = Uncompressed → HasPrefix source [x1f; x8b; x08] = false.
Proof.
  unfold DetectCompression.
  destruct (HasPrefix source [x42; x5a; x68]); [done|].
  by destruct (HasPrefix source [x1f; x8b; x08]).
Qed.

(** C2, what the code does instead.  [untar] opens a gzip reader on every
    stream: a stream in which the classifier finds no compression
    envelope, an uncompressed tar archive in particular, is refused with
    [gzip: invalid header] before any tar entry is read, and nothing is
    extracted. *)
Theorem untar_rejects_uncompressed E dest r w :
  DetectCompression (rd_bytes r) = Uncompressed →
  (10 ≤ length (rd_bytes r))%nat →
  untar E dest r w = (Ret (Some gzip_ErrHeader), w).
Proof.
  intros Hplain%DetectCompression_not_gzip Hlen.
  unfold untar, gzip_NewReader. rewrite Hplain.
  destruct (Nat.ltb_spec (length (rd_bytes r)) 10); [lia | done].
Qed.

Lemma untar_rejects_uncompressed_witness :
  isArchive (host no_entries) (take 512 plain_tar) = true
  ∧ untar (host no_entries) "/ctx" (reader_of plain_tar) (world_of tree0 [])
    = (Ret (Some gzip_ErrHeader), world_of tree0 []).
Proof.
  split; [vm_compute; reflexivity|].
  apply (untar_rejects_uncompressed (host no_entries) "/ctx" (reader_of plain_tar)
           (world_of tree0 []));
    [vm_compute; reflexivity | vm_compute; lia].
Defined.

(** The same through [contextFromStdin]: the archive on stdin is taken
    for an archive and then refused by the extractor. *)
Example contextFromStdin_plain_tar :
  contextFromStdin (host no_entries) "" (world_of tree0 plain_tar)
  = (Ret ("/tmp/img-build-context-7", Some gzip_ErrHeader),
     mkWorld (<[ ["tmp"; "img-build-context-7"] := Dir 0x1c0 ]> tree0) []
       (reader_of []) 1 [] []).
Proof. vm_compute. reflexivity. Qed.

(** C3, what the code does instead.  A regular-file entry whose target is
    an existing file is written over the start of that file: the file is
    not truncated, so what the old content has beyond the length of the
    entry stays, and the mode of the file is not changed.  The handle is
    closed and the copy error, if any, is returned. *)
Theorem untar_keeps_old_tail E dest r w e h m old :
  gzip_NewReader E r = None →
  entries (tar_over_gzip E r) = [e] →
  last_error (tar_over_gzip E r) = io_EOF →
  entry_header e = Some h →
  Typeflag h = tar_TypeReg →
  fs w !! key_of (securejoin.SecureJoin dest (Name h)) = Some (File m old) →
  untar E dest r w =
  (Ret (entry_fault e),
   set_fs (<[key_of (securejoin.SecureJoin dest (Name h)) :=
               File m (entry_data e ++ drop (length (entry_data e)) old)]> (fs w)) w).
Proof.
  intros Hgz Hes Hlast Hh Hreg Hk.
  unfold untar. rewrite Hgz, Hes, Hlast. simpl. unfold bind.
  rewrite (untar_entry_reg E dest e h w Hh) by (by rewrite Hreg).
  cbv zeta. rewrite Hk. by destruct (entry_fault e).
Qed.

Lemma untar_keeps_old_tail_witness :
  untar (host (archive [file_entry "motd" 0x180 "hi"])) "/ctx" gzip_stream
    (world_of (<[ ["ctx"; "motd"] := File 0x1a4 (bytes_of "HELLO") ]> tree0) [])
  = (Ret None,
     world_of (<[ ["ctx"; "motd"] := File 0x1a4 (bytes_of "hiLLO") ]> tree0) []).
Proof.
  rewrite (untar_keeps_old_tail (host (archive [file_entry "motd" 0x180 "hi"]))
             "/ctx" gzip_stream _ (file_entry "motd" 0x180 "hi")
             {| Name := "motd"; Typeflag := tar_TypeReg; Mode := 0x180 |}
             0x1a4 (bytes_of "HELLO")); reflexivity.
Defined.

(** A new file gets exactly the content of the entry, and the permission
    bits of the entry less the umask. *)
Lemma untar_entry_new_file E dest e h w :
  entry_header e = Some h →
  Typeflag h = tar_TypeReg →
  fs w !! key_of (securejoin.SecureJoin dest (Name h)) = None →
  is_dir (fs w !! removelast (key_of (securejoin.SecureJoin dest (Name h)))) = true →
  untar_entry E dest e w =
  (Ret (entry_fault e),
   set_fs (<[key_of (securejoin.SecureJoin dest (Name h)) :=
               File (create_mode E (os_FileMode (Mode h))) (entry_data e)]> (fs w)) w).
Proof.
  intros Hh Hreg Hk Hparent.
  rewrite (untar_entry_reg E dest e h w Hh) by (by rewrite Hreg).
  cbv zeta. by rewrite Hk, Hparent.
Qed.

(** C7.  Directories that exist are never changed by an extraction
    (1); a directory entry whose target exists does nothing and does not
    fail (2); one whose target is missing adds it, with the missing
    directories above it, and changes nothing else (3); and an archive of
    directory entries that all exist is extracted without error and
    without any change (4). *)
Theorem untar_directories E dest r w :
  (∀ p m, fs w !! p = Some (Dir m) → fs (untar E dest r w).2 !! p = Some (Dir m))
  ∧ (∀ e h, entry_header e = Some h → Typeflag h = tar_TypeDir →
            is_Some (fs w !! key_of (securejoin.SecureJoin dest (Name h))) →
            untar_entry E dest e w = (Ret None, w))
  ∧ (∀ e h w', entry_header e = Some h → Typeflag h = tar_TypeDir →
               fs w !! key_of (securejoin.SecureJoin dest (Name h)) = None →
               untar_entry E dest e w = (Ret None, w') →
               is_dir (fs w' !! key_of (securejoin.SecureJoin dest (Name h))) = true
               ∧ ∀ p, fs w' !! p = fs w !! p
                      ∨ (fs w !! p = None
                         ∧ fs w' !! p = Some (Dir (create_mode E 0x1ed))
                         ∧ p `prefix_of` key_of (securejoin.SecureJoin dest (Name h))))
  ∧ (gzip_NewReader E r = None → last_error (tar_over_gzip E r) = io_EOF →
     Forall (dir_present dest (fs w)) (entries (tar_over_gzip E r)) →
     untar E dest r w = (Ret None, w)).
Proof.
  split; [|split; [|split]].
  - intros p m Hp.
    destruct (untar_step E dest r w) as (res & t' & -> & Hdirs & _).
    simpl. rewrite ?fs_set_fs. by apply Hdirs.
  - intros e h Hh Hdir Hsome.
    eapply untar_entry_dir_exists; eauto. by rewrite Hdir.
  - intros e h w' Hh Hdir Hnone.
    rewrite (untar_entry_dir_missing E dest e h w Hh) by (done || by rewrite Hdir).
    destruct (mkdirAll _ _ _ _) as [t|err] eqn:Hm; [|done].
    intros [= <-]. rewrite fs_set_fs.
    apply mkdirAll_changes in Hm as [Hd Hch]. rewrite rev_involutive in Hd, Hch.
    split; [done|]. intros p. destruct (Hch p) as [?|(? & ? & ? & _)]; auto.
  - intros Hgz Hlast Hall. unfold untar. rewrite Hgz, Hlast.
    induction Hall as [|e es (h & Hh & Hdir & Hsome) _ IH]; [done|].
    simpl. unfold bind.
    rewrite (untar_entry_dir_exists E dest e h w Hh); [done| |done].
    by rewrite Hdir.
Qed.

Lemma untar_directories_witness :
  untar (host (archive [dir_entry "tmp"; dir_entry "../ctx/"])) "/"
    gzip_stream (world_of tree0 [])
  = (Ret None, world_of tree0 [])
  ∧ fs (untar (host (archive [dir_entry "ctx/a/b"; file_entry "ctx" 0x1a4 "x"])) "/"
          gzip_stream (world_of tree0 [])).2 !! ["ctx"] = Some (Dir 0x1ed).
Proof.
  split.
  - apply (untar_directories (host (archive [dir_entry "tmp"; dir_entry "../ctx/"]))
             "/" gzip_stream (world_of tree0 [])); try reflexivity.
    repeat constructor; eexists; (split; [reflexivity|]);
      (split; [reflexivity|]); vm_compute; eauto.
  - apply (untar_directories
             (host (archive [dir_entry "ctx/a/b"; file_entry "ctx" 0x1a4 "x"]))
             "/" gzip_stream (world_of tree0 [])).
    reflexivity.
Defined.

(** ** The classifier and the stdin materializer *)

(** C6.  On a header shorter than the 512-byte window the classifier
    answers from the bytes it has: the tar reader cannot read a block, so
    the header is an archive exactly when it starts with the magic number
    of a compression envelope.  The empty header is not an archive.  And
    [Peek] on such a stream hands over all its bytes with [io.EOF], which
    [contextFromStdin] does not take for a failure. *)
Theorem isArchive_short_header E header :
  (length header < 512)%nat →
  isArchive E header = negb (is_Uncompressed (DetectCompression header))
  ∧ isArchive E [] = false
  ∧ ∀ w, stdin w = {| rd_bytes := header; rd_fault := None |} →
         bufio_Peek 512 w = (Ret (header, Some io_EOF), w).
Proof.
  intros Hlen. split; [|split].
  - unfold isArchive, tar_Next_first.
    destruct (is_Uncompressed (DetectCompression header)); [|done].
    destruct (Nat.ltb_spec (length header) 512); [done | lia].
  - reflexivity.
  - intros w Hw. unfold bufio_Peek. rewrite Hw. simpl.
    rewrite take_ge by lia.
    destruct (Nat.ltb_spec (length header) 512); [done | lia].
Qed.

Lemma isArchive_short_header_witness :
  isArchive (host no_entries) (bytes_of "FROM scratch") = false
  ∧ isArchive (host no_entries) [x1f; x8b; x08] = true
  ∧ isArchive (host no_entries) [] = false.
Proof.
  split; [|split].
  - rewrite (proj1 (isArchive_short_header (host no_entries)
                      (bytes_of "FROM scratch") ltac:(vm_compute; lia))).
    reflexivity.
  - rewrite (proj1 (isArchive_short_header (host no_entries)
                      [x1f; x8b; x08] ltac:(vm_compute; lia))).
    reflexivity.
  - apply (isArchive_short_header (host no_entries) [] ltac:(vm_compute; lia)).
Defined.

Section StdinLemmas.

Variable E : Env.

(** A temporary directory that [TempDir] returns was not there before,
    and making it is the only change. *)
Lemma TempDir_loop_fresh more dir prefix w name w1 :
  TempDir_loop E more dir prefix w = (Ret (name, None), w1) →
  ∃ n, fs w !! key_of name = None
       ∧ w1 = set_draws n
                (set_fs (<[key_of name := Dir (create_mode E 0x1c0)]> (fs w)) w).
Proof.
  revert w. induction more as [|more IH]; intros [t o i n out sol]; simpl;
    unfold bind, draw_suffix, os_Mkdir; simpl;
    destruct (mkdir E _ _ t) as [t'|errno] eqn:Hm; simpl.
  - intros [= <- <-]. apply mkdir_inl in Hm as [Hnone ->]. by exists (S n).
  - destruct errno; simpl; try done.
    unfold os_Stat, bind; simpl. destruct (t !! key_of dir); simpl; [done|].
    by destruct (missing_errno t (key_of dir)).
  - intros [= <- <-]. apply mkdir_inl in Hm as [Hnone ->]. by exists (S n).
  - destruct errno; simpl; try done.
    + unfold os_Stat, bind; simpl. destruct (t !! key_of dir); simpl; [done|].
      by destruct (missing_errno t (key_of dir)).
    + intros Hloop. apply IH in Hloop as (n' & Hnone & ->). simpl in *.
      by exists n'.
Qed.

Lemma ioutil_TempDir_fresh prefix w name w1 :
  ioutil_TempDir E prefix w = (Ret (name, None), w1) →
  ∃ n, fs w !! key_of name = None
       ∧ w1 = set_draws n
                (set_fs (<[key_of name := Dir (create_mode E 0x1c0)]> (fs w)) w).
Proof. apply TempDir_loop_fresh. Qed.

Lemma bind_Ret {A B} (m : M A) (k : A → M B) w a w' :
  m w = (Ret a, w') → bind m k w = k a w'.
Proof. unfold bind. by intros ->. Qed.

(** Copying stdin into a file that was just created and closing it. *)
Lemma copy_stdin_close key name (tmpDir : string) m o w :
  fs w !! key = Some (File m []) →
  defer (file_Close {| fd_key := key; fd_name := name |})
    (let! buf := drain_stdin in
     let! err := io_Copy {| fd_key := key; fd_name := name |}
                   (rd_bytes buf) (rd_fault buf) in
     ret (tmpDir, err)) (set_open_files (key :: o) w)
  = (Ret (tmpDir, rd_fault (stdin w)),
     set_open_files o
       (set_stdin {| rd_bytes := []; rd_fault := rd_fault (stdin w) |}
          (set_fs (<[key := File m (rd_bytes (stdin w))]> (fs w)) w))).
Proof.
  intros Hk.
  unfold defer, drain_stdin, io_Copy, file_Write, file_Close, modify, ret, bind.
  destruct w as [t o0 i n out sol]. simpl in *. rewrite Hk. simpl.
  rewrite decide_True by done. unfold write_at0.
  by rewrite drop_nil, app_nil_r.
Qed.

(** [contextFromStdin] once the temporary directory is made and the
    stream is classified as not an archive. *)
Lemma contextFromStdin_not_archive_eq dockerfileName w tmpDir w1 :
  let name := if String.eqb dockerfileName "" then defaultDockerfileName E
              else dockerfileName in
  let input := rd_bytes (stdin w1) in
  ioutil_TempDir E "img-build-context-" w = (Ret (tmpDir, None), w1) →
  ((length input < 512)%nat → default io_EOF (rd_fault (stdin w1)) = io_EOF) →
  isArchive E (take 512 input) = false →
  contextFromStdin E dockerfileName w =
  (if String.eqb name "-" then
     ret (tmpDir, Some (errors_New "build context is not an archive"))
   else
     let! created := os_Create E (securejoin.SecureJoin tmpDir name) in
     match created with
     | inr err => ret (tmpDir, Some err)
     | inl f =>
         defer (file_Close f)
           (let! buf := drain_stdin in
            let! err := io_Copy f (rd_bytes buf) (rd_fault buf) in
            ret (tmpDir, err))
     end) w1.
Proof.
  intros name input Htmp Hpeek Hnot.
  unfold contextFromStdin. fold name.
  rewrite (bind_Ret _ _ _ _ _ Htmp). cbv beta iota.
  erewrite bind_Ret by (unfold bufio_Peek; reflexivity).
  fold input. cbv beta iota.
  destruct (Nat.ltb_spec (length (take 512 input)) 512) as [Hlt|Hge].
  - rewrite Hpeek by (rewrite length_take in Hlt; lia). by rewrite Hnot.
  - by rewrite Hnot.
Qed.

(** C8, as the code has it.  With the temporary directory made and the
    stream classified as not an archive: a recipe name of [-] is refused
    with the error "build context is not an archive"; otherwise the
    recipe name (the default name for an empty one) is resolved inside the
    temporary directory, and when the file can be created there the whole
    stream is written to it and the directory is returned, with the read
    error of the stream if there is one; when the file cannot be created
    the directory is returned with that error and nothing is written.
    The file can be created, in a well-shaped tree, when the name resolves
    to one element, as the default name does. *)
Theorem contextFromStdin_not_archive dockerfileName w tmpDir w1 :
  let name := if String.eqb dockerfileName "" then defaultDockerfileName E
              else dockerfileName in
  let input := rd_bytes (stdin w1) in
  let target := securejoin.SecureJoin tmpDir name in
  ioutil_TempDir E "img-build-context-" w = (Ret (tmpDir, None), w1) →
  ((length input < 512)%nat → default io_EOF (rd_fault (stdin w1)) = io_EOF) →
  isArchive E (take 512 input) = false →
  fs w !! key_of tmpDir = None
  ∧ inside tmpDir (key_of target)
  ∧ (name = "-" →
     contextFromStdin E dockerfileName w
     = (Ret (tmpDir, Some (errors_New "build context is not an archive")), w1))
  ∧ (name ≠ "-" →
     match os_Create E target w1 with
     | (Ret (inl f), _) =>
         ∃ m, contextFromStdin E dockerfileName w
              = (Ret (tmpDir, rd_fault (stdin w1)),
                 set_stdin {| rd_bytes := []; rd_fault := rd_fault (stdin w1) |}
                   (set_fs (<[key_of target := File m input]> (fs w1)) w1))
     | (Ret (inr err), _) =>
         contextFromStdin E dockerfileName w = (Ret (tmpDir, Some err), w1)
     | (Panic _, _) => False
     end)
  ∧ (name ≠ "-" → wf_tree (fs w) → (∃ c, scoped_elems name = [c]) →
     contextFromStdin E dockerfileName w
     = (Ret (tmpDir, rd_fault (stdin w1)),
        set_stdin {| rd_bytes := []; rd_fault := rd_fault (stdin w1) |}
          (set_fs (<[key_of target := File (create_mode E 0x1b6) input]> (fs w1))
             w1))).
Proof.
  intros name input target Htmp Hpeek Hnot.
  pose proof (contextFromStdin_not_archive_eq dockerfileName w tmpDir w1
                Htmp Hpeek Hnot) as Heq.
  cbv zeta in Heq. fold name target in Heq.
  split; [|split; [|split; [|split]]].
  - by apply ioutil_TempDir_fresh in Htmp as (n & Hnone & _).
  - destruct (key_of_SecureJoin tmpDir name) as [tail Htail].
    unfold inside, target. rewrite Htail. by apply prefix_app_r.
  - intros Hname. rewrite Heq, Hname. reflexivity.
  - intros Hname%String.eqb_neq. rewrite Heq, Hname.
    destruct (os_Create E target w1) as [[[f|err]|msg] w2] eqn:Hc.
    + rewrite (bind_Ret _ _ _ _ _ Hc). rewrite os_Create_spec in Hc.
      assert (∃ m, f = {| fd_key := key_of target; fd_name := target |}
                   ∧ w2 = set_open_files (key_of target :: open_files w1)
                            (set_fs (<[key_of target := File m []]> (fs w1)) w1))
        as (m & -> & ->).
      { destruct (fs w1 !! key_of target) as [[m|m old]|]; [done| |].
        - injection Hc as <- <-. by exists m.
        - destruct (is_dir _); [|done]. injection Hc as <- <-. by eexists. }
      exists m.
      rewrite (copy_stdin_close _ _ _ m) by (rewrite fs_set_fs; apply lookup_insert_eq).
      rewrite fs_set_fs, insert_insert_eq. by destruct w1.
    + rewrite (bind_Ret _ _ _ _ _ Hc). rewrite os_Create_spec in Hc.
      destruct (fs w1 !! key_of target) as [[m|m old]|]; [|done|].
      * by injection Hc as <- <-.
      * destruct (is_dir _); [done|]. by injection Hc as <- <-.
    + rewrite os_Create_spec in Hc.
      destruct (fs w1 !! key_of target) as [[m|m old]|]; [done|done|].
      by destruct (is_dir _).
  - intros Hname%String.eqb_neq [_ Hwf] [c Hc]. rewrite Heq, Hname.
    apply ioutil_TempDir_fresh in Htmp as (n & Hnone & Hw1).
    assert (key_of target = key_of tmpDir ++ [c]) as Hkey.
    { unfold target. by rewrite key_of_SecureJoin_scoped, Hc. }
    assert (fs w1 = <[key_of tmpDir := Dir (create_mode E 0x1c0)]> (fs w)) as Hfs.
    { rewrite Hw1. by destruct w. }
    assert (fs w1 !! key_of target = None) as Hfree.
    { rewrite Hfs, Hkey. rewrite lookup_insert_ne.
      - destruct (fs w !! (key_of tmpDir ++ [c])) eqn:Hk; [|done].
        specialize (Hwf (key_of tmpDir ++ [c]) ltac:(by rewrite Hk)).
        rewrite removelast_last, Hnone in Hwf. done.
      - intros Heq'. apply (f_equal length) in Heq'.
        rewrite length_app in Heq'. simpl in Heq'. lia. }
    assert (is_dir (fs w1 !! removelast (key_of target)) = true) as Hparent.
    { by rewrite Hkey, removelast_last, Hfs, lookup_insert_eq. }
    erewrite bind_Ret
      by (rewrite os_Create_spec, Hfree, Hparent; reflexivity).
    cbv beta iota.
    rewrite (copy_stdin_close _ _ _ (create_mode E 0x1b6))
      by (rewrite fs_set_fs; apply lookup_insert_eq).
    rewrite fs_set_fs, insert_insert_eq. by destruct w1.
Qed.

End StdinLemmas.

Lemma contextFromStdin_not_archive_witness :
  let w0 := world_of tree0 (bytes_of "FROM scratch") in
  let w1 := mkWorld (<[ ["tmp"; "img-build-context-7"] := Dir 0x1c0 ]> tree0) []
              (reader_of (bytes_of "FROM scratch")) 1 [] [] in
  contextFromStdin (host no_entries) "-" w0
  = (Ret ("/tmp/img-build-context-7",
          Some (errors_New "build context is not an archive")), w1)
  ∧ ∃ m, contextFromStdin (host no_entries) "" w0
         = (Ret ("/tmp/img-build-context-7", None),
            set_stdin (reader_of [])
              (set_fs (<[ ["tmp"; "img-build-context-7"; "Dockerfile"] :=
                            File m (bytes_of "FROM scratch") ]> (fs w1)) w1)).
Proof.
  intros w0 w1. split.
  - apply (contextFromStdin_not_archive (host no_entries) "-" w0
             "/tmp/img-build-context-7" w1);
      [vm_compute; reflexivity | intros _; reflexivity
      | vm_compute; reflexivity | reflexivity].
  - eexists.
    apply (contextFromStdin_not_archive (host no_entries) "" w0
             "/tmp/img-build-context-7" w1);
      [vm_compute; reflexivity | intros _; reflexivity
      | vm_compute; reflexivity | discriminate | | by exists "Dockerfile"].
    split; [reflexivity|].
    intros p [n Hp]. unfold w0, world_of, tree0 in Hp. simpl in Hp.
    repeat (apply lookup_insert_Some in Hp as [[<- _]|[_ Hp]]; [reflexivity|]).
    by rewrite lookup_empty in Hp.
Defined.

(** C8 as stated fails: a recipe name with a directory part is not [-],
    the stream is not an archive, and nothing is written, because the
    directory of the name does not exist in the fresh directory. *)
Lemma contextFromStdin_subdirectory_name :
  isArchive (host no_entries) (bytes_of "FROM scratch") = false
  ∧ "sub/Dockerfile" ≠ "-"
  ∧ contextFromStdin (host no_entries) "sub/Dockerfile"
      (world_of tree0 (bytes_of "FROM scratch"))
    = (Ret ("/tmp/img-build-context-7",
            Some (PathError "open" "/tmp/img-build-context-7/sub/Dockerfile" ENOENT)),
       mkWorld (<[ ["tmp"; "img-build-context-7"] := Dir 0x1c0 ]> tree0) []
         (reader_of (bytes_of "FROM scratch")) 1 [] []).
Proof. split; [|split]; [vm_compute; reflexivity | discriminate | vm_compute; reflexivity]. Qed.

(** ** The request builder *)

Lemma SplitN2_no_eq s : contains "=" s = false → strings.SplitN2 s = [s].
Proof.
  induction s as [|c r IH]; simpl; [done|].
  intros [Hc Hr]%orb_false_iff. rewrite Hc, (IH Hr). done.
Qed.

(** [SplitN] cuts at the first [=]. *)
Lemma SplitN2_first_eq k v :
  contains "=" k = false → strings.SplitN2 (k +:+ "=" +:+ v) = [k; v].
Proof.
  induction k as [|c r IH]; [done|].
  intros [Hc Hr]%orb_false_iff. rewrite append_cons. simpl.
  rewrite Hc, (IH Hr). done.
Qed.

Lemma SplitN2_with_eq s :
  contains "=" s = true →
  ∃ k v, s = k +:+ "=" +:+ v ∧ contains "=" k = false
         ∧ strings.SplitN2 s = [k; v].
Proof.
  induction s as [|c r IH]; simpl; [done|].
  destruct (Ascii.eqb_spec c "=") as [->|Hc].
  - intros _. by exists "", r.
  - simpl. intros (k & v & -> & Hk & Hs)%IH. exists (String c k), v.
    repeat split.
    + simpl. apply orb_false_iff. split; [|done]. by apply Ascii.eqb_neq.
    + by rewrite Hs.
Qed.

Lemma Run_buildArgs_fail opts bad attrs :
  first_malformed opts = Some bad →
  Run_buildArgs opts attrs = inr (errorString ("invalid build-arg value " +:+ bad)).
Proof.
  unfold first_malformed. revert attrs.
  induction opts as [|opt opts IH]; intros attrs; simpl; [done|].
  destruct (contains "=" opt) eqn:Hopt; simpl.
  - destruct (SplitN2_with_eq opt Hopt) as (k & v & _ & _ & ->). apply IH.
  - intros [= ->]. by rewrite (SplitN2_no_eq bad Hopt).
Qed.

Lemma Run_labels_fail opts bad attrs :
  first_malformed opts = Some bad →
  Run_labels opts attrs = inr (errorString ("invalid label value " +:+ bad)).
Proof.
  unfold first_malformed. revert attrs.
  induction opts as [|opt opts IH]; intros attrs; simpl; [done|].
  destruct (contains "=" opt) eqn:Hopt; simpl.
  - destruct (SplitN2_with_eq opt Hopt) as (k & v & _ & _ & ->). apply IH.
  - intros [= ->]. by rewrite (SplitN2_no_eq bad Hopt).
Qed.

(** Without a malformed option the loop adds one key per option, under
    the prefix, and touches no other key. *)
Lemma Run_buildArgs_ok opts attrs :
  first_malformed opts = None →
  ∃ attrs', Run_buildArgs opts attrs = inl attrs'
            ∧ ∀ key, (∀ k, key ≠ "build-arg:" +:+ k) → attrs' !! key = attrs !! key.
Proof.
  unfold first_malformed. revert attrs.
  induction opts as [|opt opts IH]; intros attrs; simpl; [by eauto|].
  destruct (contains "=" opt) eqn:Hopt; simpl; [|done].
  destruct (SplitN2_with_eq opt Hopt) as (k & v & _ & _ & ->).
  intros Hrest. destruct (IH (<["build-arg:" +:+ k := v]> attrs) Hrest)
    as (attrs' & -> & Hother).
  exists attrs'. split; [done|]. intros key Hkey.
  rewrite Hother by done. rewrite lookup_insert_ne; [done|]. intros <-. by eapply Hkey.
Qed.

Lemma Run_labels_ok opts attrs :
  first_malformed opts = None →
  ∃ attrs', Run_labels opts attrs = inl attrs'
            ∧ ∀ key, (∀ k, key ≠ "label:" +:+ k) → attrs' !! key = attrs !! key.
Proof.
  unfold first_malformed. revert attrs.
  induction opts as [|opt opts IH]; intros attrs; simpl; [by eauto|].
  destruct (contains "=" opt) eqn:Hopt; simpl; [|done].
  destruct (SplitN2_with_eq opt Hopt) as (k & v & _ & _ & ->).
  intros Hrest. destruct (IH (<["label:" +:+ k := v]> attrs) Hrest)
    as (attrs' & -> & Hother).
  exists attrs'. split; [done|]. intros key Hkey.
  rewrite Hother by done. rewrite lookup_insert_ne; [done|]. intros <-. by eapply Hkey.
Qed.

Lemma Run_frontendAttrs_unfold cmd platforms :
  Run_frontendAttrs cmd platforms =
  match Run_buildArgs (buildArgs cmd) (base_attrs cmd platforms) with
  | inr err => inr err
  | inl attrs => Run_labels (labels cmd) attrs
  end.
Proof. unfold Run_frontendAttrs, base_attrs. by destruct (noCache cmd). Qed.

(** The result of the request builder, by the first malformed option. *)
Lemma Run_frontendAttrs_cases cmd platforms :
  match first_malformed (buildArgs cmd), first_malformed (labels cmd) with
  | Some bad, _ =>
      Run_frontendAttrs cmd platforms
      = inr (errorString ("invalid build-arg value " +:+ bad))
  | None, Some bad =>
      Run_frontendAttrs cmd platforms
      = inr (errorString ("invalid label value " +:+ bad))
  | None, None =>
      ∃ attrs, Run_frontendAttrs cmd platforms = inl attrs
               ∧ ∀ key, (∀ k, key ≠ "build-arg:" +:+ k) →
                        (∀ k, key ≠ "label:" +:+ k) →
                        attrs !! key = base_attrs cmd platforms !! key
  end.
Proof.
  rewrite Run_frontendAttrs_unfold.
  destruct (first_malformed (buildArgs cmd)) as [bad|] eqn:Hb.
  - by rewrite (Run_buildArgs_fail _ bad).
  - destruct (Run_buildArgs_ok _ (base_attrs cmd platforms) Hb) as (a1 & -> & H1).
    destruct (first_malformed (labels cmd)) as [bad|] eqn:Hl.
    + by rewrite (Run_labels_fail _ bad).
    + destruct (Run_labels_ok _ a1 Hl) as (a2 & -> & H2).
      exists a2. split; [done|]. intros key Hk1 Hk2. by rewrite H2, H1.
Qed.

Lemma base_attrs_lookup cmd platforms :
  base_attrs cmd platforms !! "filename" = Some (filepath.Base (dockerfilePath cmd))
  ∧ base_attrs cmd platforms !! "target" = Some (target cmd)
  ∧ base_attrs cmd platforms !! "platform" = Some platforms
  ∧ base_attrs cmd platforms !! "no-cache"
    = (if noCache cmd then Some "" else None).
Proof.
  unfold base_attrs. destruct (noCache cmd); repeat split;
    repeat (rewrite lookup_insert_ne by done); by rewrite ?lookup_insert_eq.
Qed.

(** The attributes of a request that was built: the three fixed keys are
    always there, [target] with the target given, empty or not, and
    [no-cache] is there, with an empty value, exactly when the cache is
    disabled. *)
Lemma Run_frontendAttrs_fixed cmd platforms attrs :
  Run_frontendAttrs cmd platforms = inl attrs →
  attrs !! "filename" = Some (filepath.Base (dockerfilePath cmd))
  ∧ attrs !! "target" = Some (target cmd)
  ∧ attrs !! "platform" = Some platforms
  ∧ attrs !! "no-cache" = (if noCache cmd then Some "" else None).
Proof.
  intros Hattrs. pose proof (Run_frontendAttrs_cases cmd platforms) as Hc.
  rewrite Hattrs in Hc.
  destruct (first_malformed (buildArgs cmd)); [done|].
  destruct (first_malformed (labels cmd)); [done|].
  destruct Hc as (attrs' & [= <-] & Hother).
  destruct (base_attrs_lookup cmd platforms) as (H1 & H2 & H3 & H4).
  rewrite <- H1, <- H2, <- H3, <- H4.
  repeat split; apply Hother; intros k; discriminate.
Qed.

(** ** Run: which requests it issues *)

Lemma keeps_ret {A} (a : A) : keeps_solves (ret a).
Proof. by intros w. Qed.

Lemma keeps_panic {A} msg : keeps_solves (@panic A msg).
Proof. by intros w. Qed.

Lemma keeps_bind {A B} (m : M A) (k : A → M B) :
  keeps_solves m → (∀ a, keeps_solves (k a)) → keeps_solves (bind m k).
Proof.
  intros Hm Hk w. unfold bind. specialize (Hm w).
  destruct (m w) as [[a|msg] w1]; simpl in *; [|done].
  by rewrite Hk.
Qed.

Lemma keeps_defer {A B} (f : M B) (rest : M A) :
  keeps_solves f → keeps_solves rest → keeps_solves (defer f rest).
Proof.
  intros Hf Hrest w. unfold defer. specialize (Hrest w).
  destruct (rest w) as [r w1]; simpl in *. by rewrite Hf.
Qed.

Create HintDb keeps.

Ltac keeps_step :=
  first
    [ solve [auto with keeps]
    | apply keeps_ret
    | apply keeps_panic
    | match goal with
      | |- keeps_solves (bind _ _) => apply keeps_bind; [|intros ?]
      | |- keeps_solves (defer _ _) => apply keeps_defer
      end
    | match goal with
      | |- keeps_solves (match ?x with _ => _ end) => destruct x
      | |- keeps_solves (if ?x then _ else _) => destruct x
      | |- keeps_solves (let (_, _) := ?x in _) => destruct x
      end ].

Ltac keeps_prim :=
  intros []; simpl; repeat case_match; simpl; done.

Section RunLemmas.

Variable E : Env.

Lemma keeps_os_Stat name : keeps_solves (os_Stat name).
Proof. unfold os_Stat. keeps_prim. Qed.

Lemma keeps_os_Mkdir name perm : keeps_solves (os_Mkdir E name perm).
Proof. unfold os_Mkdir. keeps_prim. Qed.

Lemma keeps_os_OpenFile name flag perm : keeps_solves (os_OpenFile E name flag perm).
Proof. unfold os_OpenFile. keeps_prim. Qed.

Lemma keeps_file_Write f data : keeps_solves (file_Write f data).
Proof. unfold file_Write. keeps_prim. Qed.

Lemma keeps_file_Close f : keeps_solves (file_Close f).
Proof. unfold file_Close, modify. keeps_prim. Qed.

Lemma keeps_os_RemoveAll name : keeps_solves (os_RemoveAll name).
Proof. unfold os_RemoveAll. keeps_prim. Qed.

Lemma keeps_ReadAll : keeps_solves ioutil_ReadAll_stdin.
Proof. unfold ioutil_ReadAll_stdin. keeps_prim. Qed.

Lemma keeps_draw_suffix : keeps_solves (draw_suffix E).
Proof. unfold draw_suffix. keeps_prim. Qed.

Lemma keeps_bufio_Peek n : keeps_solves (bufio_Peek n).
Proof. unfold bufio_Peek. keeps_prim. Qed.

Lemma keeps_drain_stdin : keeps_solves drain_stdin.
Proof. unfold drain_stdin. keeps_prim. Qed.

Lemma keeps_untar dest r : keeps_solves (untar E dest r).
Proof.
  intros w. destruct (untar_step E dest r w) as (res & t' & -> & _).
  by destruct w.
Qed.

Hint Resolve keeps_os_Stat keeps_os_Mkdir keeps_os_OpenFile keeps_file_Write
  keeps_file_Close keeps_os_RemoveAll keeps_ReadAll keeps_draw_suffix
  keeps_bufio_Peek keeps_drain_stdin keeps_untar : keeps.

Lemma keeps_io_Copy f data fault : keeps_solves (io_Copy f data fault).
Proof. unfold io_Copy. repeat keeps_step. Qed.

Lemma keeps_os_Create name : keeps_solves (os_Create E name).
Proof. unfold os_Create. auto with keeps. Qed.

Lemma keeps_TempDir_loop more dir prefix :
  keeps_solves (TempDir_loop E more dir prefix).
Proof. induction more as [|more IH]; simpl; repeat keeps_step. Qed.

Lemma keeps_TempFile_loop more dir prefix :
  keeps_solves (TempFile_loop E more dir prefix).
Proof. induction more as [|more IH]; simpl; repeat keeps_step. Qed.

Lemma keeps_ioutil_TempDir prefix : keeps_solves (ioutil_TempDir E prefix).
Proof. apply keeps_TempDir_loop. Qed.

Lemma keeps_ioutil_TempFile prefix : keeps_solves (ioutil_TempFile E prefix).
Proof. apply keeps_TempFile_loop. Qed.

Lemma keeps_file_Name f : keeps_solves (file_Name f).
Proof. by destruct f. Qed.

Hint Resolve keeps_io_Copy keeps_os_Create keeps_ioutil_TempDir
  keeps_ioutil_TempFile keeps_file_Name : keeps.

Lemma keeps_dockerfileFromStdin : keeps_solves (dockerfileFromStdin E).
Proof. unfold dockerfileFromStdin. repeat keeps_step. Qed.

Lemma keeps_contextFromStdin name : keeps_solves (contextFromStdin E name).
Proof. unfold contextFromStdin. repeat keeps_step. Qed.

End RunLemmas.

Section RunPost.

Variable E : Env.

Lemma Run_solve_post cmd initialTag attrs w :
  let out := Run_solve E cmd initialTag attrs w in
  (out.1 ≠ Ret None ∧ solves out.2 = solves w)
  ∨ (out.1 = Ret (errgroup_Wait E (request_of E cmd attrs))
     ∧ solves out.2 = solves w ++ [request_of E cmd attrs]).
Proof.
  unfold Run_solve, fmt_Print, modify, ret, bind. fold (request_of E cmd attrs).
  destruct w as [t o i n out sol]. simpl.
  destruct (client_Session E) as [err|]; simpl; [by left|].
  right. by destruct (errgroup_Wait E (request_of E cmd attrs)).
Qed.

Lemma Run_request_post cmd w : Run_post E cmd w (Run_request E cmd w).
Proof.
  unfold Run_request, Run_post.
  destruct (Run_tags E (tags cmd)) as [normalized|err] eqn:Htags; [|by left].
  set (cmd1 := with_tags normalized cmd).
  set (cmd2 := if String.eqb (dockerfilePath cmd1) ""
               then with_dockerfilePath _ cmd1 else cmd1).
  set (cmd3 := if (length (platforms cmd2) <? 1)%nat
               then with_platforms _ cmd2 else cmd2).
  assert (buildArgs cmd3 = buildArgs cmd ∧ labels cmd3 = labels cmd
          ∧ target cmd3 = target cmd ∧ noCache cmd3 = noCache cmd
          ∧ tags cmd3 = normalized) as (Hb & Hl & Ht & Hn & Htg).
  { unfold cmd3, cmd2, cmd1.
    destruct (length _ <? 1)%nat; destruct (String.eqb _ ""); done. }
  destruct (client_New E (getLocalDirs cmd3)) as [err|]; [by left|].
  destruct (Run_frontendAttrs cmd3 _) as [attrs|err] eqn:Hattrs; [|by left].
  destruct (Run_solve_post cmd3 (hd "" (tags cmd1)) attrs w) as [Hfail|[Hres Hsol]];
    [by left|].
  right. exists cmd3, (strings.Join (platforms cmd3) ","), attrs.
  rewrite Htg. done.
Qed.

Lemma Run_post_mono cmd cmd2 w w2 out :
  buildArgs cmd2 = buildArgs cmd → labels cmd2 = labels cmd →
  target cmd2 = target cmd → noCache cmd2 = noCache cmd →
  tags cmd2 = tags cmd → solves w2 = solves w →
  Run_post E cmd2 w2 out → Run_post E cmd w out.
Proof.
  unfold Run_post. intros <- <- <- <- <- <-. done.
Qed.

Lemma Run_post_defer {B} cmd cmd2 w w2 (f : M B) (rest : M (option error)) :
  buildArgs cmd2 = buildArgs cmd → labels cmd2 = labels cmd →
  target cmd2 = target cmd → noCache cmd2 = noCache cmd →
  tags cmd2 = tags cmd → solves w2 = solves w →
  keeps_solves f →
  Run_post E cmd2 w2 (rest w2) → Run_post E cmd w (defer f rest w2).
Proof.
  intros Hb Hl Ht Hn Htg Hs Hf Hpost.
  apply (Run_post_mono cmd cmd2 w w2); try done.
  unfold defer. destruct (rest w2) as [r w3]. unfold Run_post in *. simpl in *.
  by rewrite (Hf w3).
Qed.

Lemma Run_context_post cmd w : Run_post E cmd w (Run_context E cmd w).
Proof.
  unfold Run_context.
  destruct (String.eqb (contextDir cmd) ""); [by left|].
  destruct (String.eqb (contextDir cmd) "-"); [|apply Run_request_post].
  unfold bind. pose proof (keeps_contextFromStdin E (dockerfilePath cmd) w) as Hk.
  destruct (contextFromStdin E (dockerfilePath cmd) w) as [[[dir [err|]]|msg] w1];
    simpl in Hk; [by left| |by left].
  apply (Run_post_defer cmd (with_contextDir dir cmd)); try done;
    first [apply keeps_os_RemoveAll | apply Run_request_post].
Qed.

(** Every run of the command either ends without success and without a
    request, or issues the one request built from its options. *)
Lemma Run_post_Run cmd args w : Run_post E cmd w (Run E cmd args w).
Proof.
  unfold Run.
  destruct (length args <? 1)%nat; [by left|].
  destruct (length (tags cmd) <? 1)%nat; [by left|].
  destruct (installRuncIfDNE E); [by left|].
  set (cmd1 := with_contextDir (hd "" args) cmd).
  destruct (String.eqb (dockerfilePath cmd1) "-").
  - unfold bind. pose proof (keeps_dockerfileFromStdin E w) as Hk.
    destruct (dockerfileFromStdin E w) as [[[name [err|]]|msg] w1];
      simpl in Hk; [by left| |by left].
    apply (Run_post_defer cmd (with_dockerfilePath name cmd1)); try done;
      first [apply keeps_os_RemoveAll | apply Run_context_post].
  - apply (Run_post_mono cmd cmd1 w w); try done. apply Run_context_post.
Qed.

Lemma Run_issued cmd args w req :
  solves (Run E cmd args w).2 = solves w ++ [req] →
  ∃ cmd' platforms attrs,
    buildArgs cmd' = buildArgs cmd ∧ labels cmd' = labels cmd
    ∧ target cmd' = target cmd ∧ noCache cmd' = noCache cmd
    ∧ Run_tags E (tags cmd) = inl (tags cmd')
    ∧ Run_frontendAttrs cmd' platforms = inl attrs
    ∧ req = request_of E cmd' attrs.
Proof.
  intros Hsol.
  destruct (Run_post_Run cmd args w) as [[_ Hsame]|Hreq].
  - rewrite Hsame in Hsol. apply (f_equal length) in Hsol.
    rewrite length_app in Hsol. simpl in Hsol. lia.
  - destruct Hreq as (cmd' & platforms & attrs & Hb & Hl & Ht & Hn & Htg & Ha & _ & Hs).
    rewrite Hs in Hsol. apply app_inv_head in Hsol as [= <-].
    by exists cmd', platforms, attrs.
Qed.

End RunPost.

Lemma append_nil_r s : s +:+ "" = s.
Proof. induction s as [|c s IH]; [done|]. by rewrite append_cons, IH. Qed.

Lemma first_malformed_elem opts bad :
  bad ∈ opts → contains "=" bad = false → is_Some (first_malformed opts).
Proof.
  intros Hin Hbad. unfold first_malformed.
  destruct (find _ opts) as [x|] eqn:Hfind; [by eexists|].
  eapply find_none in Hfind; [|by apply list_elem_of_In].
  by rewrite Hbad in Hfind.
Qed.

(** C5, as the code has it.  In the attributes of every request that
    [Run] issues, [target] is always present and carries the target given,
    the empty string when none was given; [filename] and [platform] are
    always present; and [no-cache] is present, with an empty value, exactly
    when the cache is disabled. *)
Theorem Run_request_attributes E cmd args w req :
  solves (Run E cmd args w).2 = solves w ++ [req] →
  FrontendAttrs req !! "target" = Some (target cmd)
  ∧ is_Some (FrontendAttrs req !! "filename")
  ∧ is_Some (FrontendAttrs req !! "platform")
  ∧ FrontendAttrs req !! "no-cache" = (if noCache cmd then Some "" else None).
Proof.
  intros (cmd' & platforms & attrs & _ & _ & Ht & Hn & _ & Ha & ->)%Run_issued.
  apply Run_frontendAttrs_fixed in Ha as (H1 & H2 & H3 & H4). simpl.
  rewrite H1, H2, H3, H4, Ht, Hn. eauto.
Qed.

Lemma Run_request_attributes_witness :
  ∃ req,
    FrontendAttrs req !! "target" = Some ""
    ∧ is_Some (FrontendAttrs req !! "filename")
    ∧ is_Some (FrontendAttrs req !! "platform")
    ∧ FrontendAttrs req !! "no-cache" = None.
Proof.
  eexists.
  apply (Run_request_attributes (host no_entries) (build_cmd ["myapp"] [] [])
           ["."] (world_of tree0 [])).
  vm_compute. reflexivity.
Defined.

(** C5 as stated fails: a command without a target issues a request whose
    attributes hold the key [target] with an empty value. *)
Lemma Run_empty_target_present :
  target (build_cmd ["myapp"] [] []) = ""
  ∧ match solves (Run (host no_entries) (build_cmd ["myapp"] [] []) ["."]
                    (world_of tree0 [])).2 with
    | [req] => FrontendAttrs req !! "target" = Some ""
    | _ => False
    end.
Proof. split; vm_compute; reflexivity. Qed.

Lemma base_attrs_keys cmd platforms key :
  is_Some (base_attrs cmd platforms !! key) →
  key ∈ ["filename"; "target"; "platform"; "no-cache"].
Proof.
  unfold base_attrs. intros [v Hv].
  destruct (noCache cmd);
    repeat (apply lookup_insert_Some in Hv as [[<- _]|[_ Hv]];
            [set_solver|]);
    by rewrite lookup_empty in Hv.
Qed.

(** C9.  A build-arg or label option is cut at its first [=] (1).  With
    the build args [FOO=bar] and the labels [color=red] the attributes
    are the fixed ones and [build-arg:FOO] = [bar], [label:color] = [red],
    nothing else (2, 3).  An option without [=] makes the request
    building fail with an error that names it: the first such build arg,
    or else the first such label (4, 5); [Run] then issues no request and
    does not succeed (6). *)
Theorem Run_key_value_options E cmd platforms :
  (∀ k v, contains "=" k = false → strings.SplitN2 (k +:+ "=" +:+ v) = [k; v])
  ∧ (buildArgs cmd = ["FOO=bar"] → labels cmd = ["color=red"] →
     Run_frontendAttrs cmd platforms
     = inl (<["label:color" := "red"]>
              (<["build-arg:FOO" := "bar"]> (base_attrs cmd platforms))))
  ∧ (∀ key, is_Some (base_attrs cmd platforms !! key) →
            key ∈ ["filename"; "target"; "platform"; "no-cache"])
  ∧ (∀ bad, first_malformed (buildArgs cmd) = Some bad →
            Run_frontendAttrs cmd platforms
            = inr (errorString ("invalid build-arg value " +:+ bad)))
  ∧ (∀ bad, first_malformed (buildArgs cmd) = None →
            first_malformed (labels cmd) = Some bad →
            Run_frontendAttrs cmd platforms
            = inr (errorString ("invalid label value " +:+ bad)))
  ∧ (∀ args w bad, bad ∈ buildArgs cmd ++ labels cmd →
                   contains "=" bad = false →
                   (Run E cmd args w).1 ≠ Ret None
                   ∧ solves (Run E cmd args w).2 = solves w).
Proof.
  split; [|split; [|split; [|split; [|split]]]].
  - apply SplitN2_first_eq.
  - intros Hb Hl. rewrite Run_frontendAttrs_unfold, Hb, Hl. reflexivity.
  - apply base_attrs_keys.
  - intros bad Hbad. pose proof (Run_frontendAttrs_cases cmd platforms) as Hc.
    by rewrite Hbad in Hc.
  - intros bad Hnone Hbad.
    pose proof (Run_frontendAttrs_cases cmd platforms) as Hc.
    by rewrite Hnone, Hbad in Hc.
  - intros args w bad Hin Hbad.
    destruct (Run_post_Run E cmd args w) as [Hfail|Hreq]; [done|].
    destruct Hreq as (cmd' & platforms' & attrs & Hb & Hl & _ & _ & _ & Ha & _).
    pose proof (Run_frontendAttrs_cases cmd' platforms') as Hc.
    rewrite Ha, Hb, Hl in Hc.
    apply elem_of_app in Hin as [Hin|Hin];
      destruct (first_malformed_elem _ _ Hin Hbad) as [x Hx];
      rewrite Hx in Hc; [done|].
    by destruct (first_malformed (buildArgs cmd)).
Qed.

Lemma Run_key_value_options_witness :
  Run_frontendAttrs (build_cmd ["myapp"] ["FOO=bar"] ["color=red"]) "linux/amd64"
  = inl (<["label:color" := "red"]>
           (<["build-arg:FOO" := "bar"]>
              (<["platform" := "linux/amd64"]>
                 (<["target" := ""]> (<["filename" := "."]> ∅)))))
  ∧ Run_frontendAttrs (build_cmd ["myapp"] ["FOO=bar"; "BAZ"] ["color=red"])
      "linux/amd64"
    = inr (errorString "invalid build-arg value BAZ")
  ∧ (Run (host no_entries) (build_cmd ["myapp"] ["FOO=bar"] ["color"]) ["."]
       (world_of tree0 [])).1 ≠ Ret None.
Proof.
  split; [|split].
  - apply (Run_key_value_options (host no_entries)
             (build_cmd ["myapp"] ["FOO=bar"] ["color=red"]) "linux/amd64");
      reflexivity.
  - apply (Run_key_value_options (host no_entries)
             (build_cmd ["myapp"] ["FOO=bar"; "BAZ"] ["color=red"]) "linux/amd64").
    reflexivity.
  - refine (proj1 (proj2 (proj2 (proj2 (proj2 (proj2
              (Run_key_value_options (host no_entries)
                 (build_cmd ["myapp"] ["FOO=bar"] ["color"]) "linux/amd64")))))
              ["."] (world_of tree0 []) "color" _ _)).
    + apply elem_of_app. right. apply list_elem_of_singleton. reflexivity.
    + reflexivity.
Defined.

Section Tags.

Variable E : Env.

Lemma Run_tags_Forall2 tags normalized :
  Run_tags E tags = inl normalized → Forall2 (normalized_tag E) tags normalized.
Proof.
  revert normalized. induction tags as [|tag rest IH]; intros normalized; simpl.
  - intros [= <-]. constructor.
  - destruct (reference_ParseNormalizedNamed E tag) as [named|err] eqn:Hp; [|done].
    destruct (Run_tags E rest) as [rest'|err]; [|done].
    intros [= <-]. constructor; [|by apply IH].
    exists named. split; [done|]. split; [done|].
    intros Hname. unfold reference_TagNameOnly. rewrite Hname.
    unfold reference_IsNameOnly in Hname.
    apply andb_true_iff in Hname as [_ Hd%String.eqb_eq].
    unfold Named_String, reference_WithTag, Named_Name. simpl.
    rewrite Hd. simpl. by rewrite append_nil_r.
Qed.

End Tags.

(** C10.  Without a tag [Run] returns an error and does nothing (1).
    The loop over the tags replaces every tag by the string of its parsed
    reference, with the tag [latest] added when the reference has neither
    tag nor digest (2); for [myapp], which the reference library parses
    to the repository [library/myapp] of [docker.io], that is
    [docker.io/library/myapp:latest] (3).  The request that [Run] issues
    names the normalized tags, joined by commas (4). *)
Theorem Run_tags_normalized E cmd :
  (∀ args w, tags cmd = [] → ∃ err, Run E cmd args w = (Ret (Some err), w))
  ∧ (∀ normalized, Run_tags E (tags cmd) = inl normalized →
                   Forall2 (normalized_tag E) (tags cmd) normalized)
  ∧ (reference_ParseNormalizedNamed E "myapp"
     = inl {| ref_domain := "docker.io"; ref_path := "library/myapp";
              ref_tag := ""; ref_digest := "" |} →
     tags cmd = ["myapp"] →
     Run_tags E (tags cmd) = inl ["docker.io/library/myapp:latest"])
  ∧ (∀ args w req, solves (Run E cmd args w).2 = solves w ++ [req] →
                   ∃ normalized,
                     Run_tags E (tags cmd) = inl normalized
                     ∧ ExporterAttrs req !! "name"
                       = Some (strings.Join normalized ",")).
Proof.
  split; [|split; [|split]].
  - intros args w Htags. unfold Run. rewrite Htags.
    destruct (length args <? 1)%nat; eauto.
  - apply Run_tags_Forall2.
  - intros Hparse ->. simpl. by rewrite Hparse.
  - intros args w req
      (cmd' & platforms & attrs & _ & _ & _ & _ & Htags & _ & ->)%Run_issued.
    exists (tags cmd'). split; [done|]. simpl. apply lookup_insert_eq.
Qed.

Lemma Run_tags_normalized_witness :
  Run_tags (host no_entries) ["myapp"] = inl ["docker.io/library/myapp:latest"]
  ∧ (∃ err, Run (host no_entries) (build_cmd [] [] []) ["."] (world_of tree0 [])
            = (Ret (Some err), world_of tree0 []))
  ∧ ∃ req normalized,
      Run_tags (host no_entries) ["myapp"] = inl normalized
      ∧ ExporterAttrs req !! "name" = Some (strings.Join normalized ",").
Proof.
  split; [|split].
  - apply (Run_tags_normalized (host no_entries) (build_cmd ["myapp"] [] []));
      reflexivity.
  - apply (Run_tags_normalized (host no_entries) (build_cmd [] [] [])).
    reflexivity.
  - eexists.
    apply (proj2 (proj2 (proj2
             (Run_tags_normalized (host no_entries) (build_cmd ["myapp"] [] []))))
             ["."] (world_of tree0 [])).
    vm_compute. reflexivity.
Defined.

(** * Further properties *)

(** ** The extractor *)

Lemma untar_entry_touches E dest e w p :
  (∀ h, entry_header e = Some h →
        ¬ p `prefix_of` key_of (securejoin.SecureJoin dest (Name h))) →
  fs (untar_entry E dest e w).2 !! p = fs w !! p.
Proof.
  intros Hp. destruct (entry_header e) as [h|] eqn:Hh.
  2: { by rewrite untar_entry_nil. }
  specialize (Hp h eq_refl).
  destruct (Byte.eqb (Typeflag h) tar_TypeDir) eqn:Hdir.
  - destruct (fs w !! key_of (securejoin.SecureJoin dest (Name h))) as [n|] eqn:Hk.
    + by rewrite (untar_entry_dir_exists E dest e h w).
    + rewrite (untar_entry_dir_missing E dest e h w) by done.
      destruct (mkdirAll _ _ _ _) as [t|err] eqn:Hm; [|done].
      simpl. rewrite ?fs_set_fs.
      apply mkdirAll_changes in Hm as [_ Hch]. rewrite rev_involutive in Hch.
      destruct (Hch p) as [?|(_ & _ & Hpre & _)]; done.
  - destruct (Byte.eqb (Typeflag h) tar_TypeReg) eqn:Hreg.
    2: { by rewrite (untar_entry_skipped E dest e h w). }
    rewrite (untar_entry_reg E dest e h w) by done. cbv zeta.
    assert (key_of (securejoin.SecureJoin dest (Name h)) ≠ p) as Hne
      by (by intros <-).
    destruct (fs w !! key_of (securejoin.SecureJoin dest (Name h)))
      as [[m|m old]|]; [done| |].
    + simpl. rewrite ?fs_set_fs. by rewrite lookup_insert_ne.
    + destruct (is_dir _); [|done].
      simpl. rewrite ?fs_set_fs. by rewrite lookup_insert_ne.
Qed.

(** [untar] touches only what its entries name: a location that is
    neither the target of an entry nor above one is left as it is, there
    or not. *)
Theorem untar_touches_only_targets E dest r w p :
  ¬ targets dest (entries (tar_over_gzip E r)) p →
  fs (untar E dest r w).2 !! p = fs w !! p.
Proof.
  unfold untar. destruct (gzip_NewReader E r); [done|].
  generalize (last_error (tar_over_gzip E r)) as last.
  generalize (entries (tar_over_gzip E r)) as es. intros es last. revert w.
  induction es as [|e es IH]; intros w Hnot; simpl.
  - by destruct last.
  - unfold bind.
    assert (fs (untar_entry E dest e w).2 !! p = fs w !! p) as He.
    { apply untar_entry_touches. intros h Hh Hpre. apply Hnot.
      exists e, h. split; [by left|done]. }
    destruct (untar_entry E dest e w) as [[[err|]|msg] w1]; simpl in *; try done.
    rewrite IH; [done|]. intros (e' & h & Hin & Hh & Hpre). apply Hnot.
    exists e', h. split; [by right|done].
Qed.

Lemma untar_touches_only_targets_witness :
  fs (untar (host (archive [dir_entry "a/b"; file_entry "a/b/motd" 0x1a4 "hi"]))
        "/ctx" gzip_stream (world_of tree0 [])).2 !! ["ctx"; "c"]
  = tree0 !! ["ctx"; "c"].
Proof.
  apply (untar_touches_only_targets
           (host (archive [dir_entry "a/b"; file_entry "a/b/motd" 0x1a4 "hi"]))
           "/ctx" gzip_stream (world_of tree0 []) ["ctx"; "c"]).
  intros (e & h & Hin & Hh & Hpre). simpl in Hin.
  apply elem_of_cons in Hin as [->|Hin];
    [|apply list_elem_of_singleton in Hin as ->];
    injection Hh as <-; vm_compute in Hpre; destruct Hpre as [k Hk];
    discriminate Hk.
Defined.

(** [untar] never removes a file, never puts a directory in its place and
    never changes its mode: at most its content changes. *)
Theorem untar_keeps_files E dest r w p m d :
  fs w !! p = Some (File m d) →
  ∃ d', fs (untar E dest r w).2 !! p = Some (File m d').
Proof.
  intros Hp. destruct (untar_step E dest r w) as (res & t' & -> & _ & Hfiles & _).
  simpl. rewrite ?fs_set_fs. by eapply Hfiles.
Qed.

Lemma untar_keeps_files_witness :
  ∃ d', fs (untar (host (archive [dir_entry "motd"; file_entry "motd" 0x1ff "hi"]))
              "/ctx" gzip_stream
              (world_of (<[ ["ctx"; "motd"] := File 0x100 (bytes_of "HELLO") ]> tree0)
                 [])).2 !! ["ctx"; "motd"]
        = Some (File 0x100 d').
Proof.
  apply (untar_keeps_files
           (host (archive [dir_entry "motd"; file_entry "motd" 0x1ff "hi"]))
           "/ctx" gzip_stream _ ["ctx"; "motd"] 0x100 (bytes_of "HELLO")).
  reflexivity.
Defined.

(** Whatever the archive and whatever the outcome, [untar] does not
    panic, leaves no file open and prints nothing. *)
Theorem untar_leaves_nothing_open E dest r w :
  ∃ res, (untar E dest r w).1 = Ret res
         ∧ open_files (untar E dest r w).2 = open_files w
         ∧ stdout (untar E dest r w).2 = stdout w.
Proof.
  destruct (untar_step E dest r w) as (res & t' & -> & _).
  exists res. by destruct w.
Qed.

(** The loop is sequential: entries that were extracted without error
    stay extracted, and the extraction goes on from the state they
    left. *)
Lemma untar_entries_app_ok E dest es1 es2 last w w1 :
  untar_entries E dest es1 io_EOF w = (Ret None, w1) →
  untar_entries E dest (es1 ++ es2) last w = untar_entries E dest es2 last w1.
Proof.
  revert w. induction es1 as [|e es1 IH]; intros w; simpl.
  - by intros [= <-].
  - unfold bind.
    destruct (untar_entry E dest e w) as [[[err|]|msg] wa]; try done.
    apply IH.
Qed.

(** The first entry that fails ends the extraction with its error: the
    entries after it are not looked at, whatever they are, and what was
    extracted before it stays (nothing is rolled back). *)
Theorem untar_stops_at_first_error E dest r w es1 e es2 w1 err w2 :
  gzip_NewReader E r = None →
  entries (tar_over_gzip E r) = es1 ++ e :: es2 →
  untar_entries E dest es1 io_EOF w = (Ret None, w1) →
  untar_entry E dest e w1 = (Ret (Some err), w2) →
  untar E dest r w = (Ret (Some err), w2).
Proof.
  intros Hgz Hes Hok Hfail. unfold untar. rewrite Hgz, Hes.
  rewrite (untar_entries_app_ok _ _ _ _ _ _ _ Hok). simpl. unfold bind.
  by rewrite Hfail.
Qed.

Lemma untar_stops_at_first_error_witness :
  untar (host (archive [file_entry "a" 0x1a4 "one"; file_entry "tmp" 0x1a4 "two";
                        file_entry "b" 0x1a4 "three"]))
    "/" gzip_stream (world_of tree0 [])
  = (Ret (Some (PathError "open" "/tmp" EISDIR)),
     world_of (<[ ["a"] := File 0x1a4 (bytes_of "one") ]> tree0) []).
Proof.
  apply (untar_stops_at_first_error
           (host (archive [file_entry "a" 0x1a4 "one"; file_entry "tmp" 0x1a4 "two";
                           file_entry "b" 0x1a4 "three"]))
           "/" gzip_stream (world_of tree0 [])
           [file_entry "a" 0x1a4 "one"] (file_entry "tmp" 0x1a4 "two")
           [file_entry "b" 0x1a4 "three"]
           (world_of (<[ ["a"] := File 0x1a4 (bytes_of "one") ]> tree0) []));
    vm_compute; reflexivity.
Defined.

(** A stream that ends with an error other than [io.EOF] (a truncated or
    corrupt archive) makes [untar] return that error, after the entries
    before it were extracted as from a complete archive. *)
Theorem untar_truncated_stream E dest r w w1 :
  gzip_NewReader E r = None →
  last_error (tar_over_gzip E r) ≠ io_EOF →
  untar_entries E dest (entries (tar_over_gzip E r)) io_EOF w = (Ret None, w1) →
  untar E dest r w = (Ret (Some (last_error (tar_over_gzip E r))), w1).
Proof.
  intros Hgz Hlast Hok. unfold untar. rewrite Hgz.
  rewrite <- (app_nil_r (entries (tar_over_gzip E r))).
  rewrite (untar_entries_app_ok _ _ _ [] _ _ _ Hok). simpl.
  by destruct (last_error (tar_over_gzip E r)).
Qed.

Lemma untar_truncated_stream_witness :
  untar (host {| entries := [file_entry "a" 0x1a4 "one"];
                 last_error := io_ErrUnexpectedEOF |})
    "/ctx" gzip_stream (world_of tree0 [])
  = (Ret (Some io_ErrUnexpectedEOF),
     world_of (<[ ["ctx"; "a"] := File 0x1a4 (bytes_of "one") ]> tree0) []).
Proof.
  apply (untar_truncated_stream
           (host {| entries := [file_entry "a" 0x1a4 "one"];
                    last_error := io_ErrUnexpectedEOF |})
           "/ctx" gzip_stream (world_of tree0 []));
    [reflexivity | discriminate | vm_compute; reflexivity].
Defined.




Lemma HasPrefix_take s m n :
  (length m ≤ n)%nat → HasPrefix (take n s) m = HasPrefix s m.
Proof.
  revert s n. induction m as [|b m IH]; intros s n Hn.
  { by destruct (take n s), s. }
  destruct n as [|n]; [simpl in Hn; lia|].
  destruct s as [|c s]; [done|]. simpl. rewrite IH; [done|]. simpl in Hn. lia.
Qed.

Lemma DetectCompression_take s :
  DetectCompression (take 512 s) = DetectCompression s.
Proof.
  unfold DetectCompression. by rewrite !HasPrefix_take by (simpl; lia).
Qed.

Lemma DetectCompression_gzip source :
  HasPrefix source [x1f; x8b; x08] = true → DetectCompression source = Gzip.
Proof.
  intros Hgz. unfold DetectCompression. rewrite Hgz.
  destruct source as [|b s]; [done|]. simpl in *.
  apply andb_true_iff in Hgz as [->%byte_dec_bl _]. done.
Qed.

(** [untar] reads gzip and nothing else: a stream in which the classifier
    does not find the gzip envelope is refused by [gzip.NewReader], and
    nothing is extracted. *)
Lemma untar_only_gzip E dest r w :
  DetectCompression (rd_bytes r) ≠ Gzip →
  ∃ err, untar E dest r w = (Ret (Some err), w).
Proof.
  intros Hnot. unfold untar, gzip_NewReader.
  destruct (length (rd_bytes r) <? 10)%nat; [by eexists|].
  destruct (HasPrefix (rd_bytes r) [x1f; x8b; x08]) eqn:Hgz; [|by eexists].
  by apply DetectCompression_gzip in Hgz.
Qed.

Lemma wf_tree0 : wf_tree tree0.
Proof.
  split; [reflexivity|].
  intros p [n Hp]. unfold tree0 in Hp.
  repeat (apply lookup_insert_Some in Hp as [[<- _]|[_ Hp]]; [reflexivity|]).
  by rewrite lookup_empty in Hp.
Qed.

(** ** The stdin materializers *)

(** Every outcome of the loop of [TempDir]: a directory that was not
    there is made and returned, or an error is returned with an empty name
    and the file tree as it was. *)
Lemma TempDir_loop_outcome E more dir prefix w :
  ∃ name err n,
    TempDir_loop E more dir prefix w
    = (Ret (name, err),
       set_draws n
         (match err with
          | None => set_fs (<[key_of name := Dir (create_mode E 0x1c0)]> (fs w)) w
          | Some _ => w
          end))
    ∧ (err = None → fs w !! key_of name = None).
Proof.
  revert w. induction more as [|more IH]; intros [t o i n out sol]; simpl;
    unfold bind, draw_suffix, os_Mkdir; simpl;
    destruct (mkdir E _ _ t) as [t'|errno] eqn:Hm; simpl.
  - apply mkdir_inl in Hm as [Hnone ->]. by eexists _, None, (S n).
  - destruct errno; simpl; try (by eexists "", (Some _), (S n)).
    unfold os_Stat, bind; simpl. destruct (t !! key_of dir); simpl;
      [by eexists "", (Some _), (S n)|].
    destruct (missing_errno t (key_of dir)); by eexists "", (Some _), (S n).
  - apply mkdir_inl in Hm as [Hnone ->]. by eexists _, None, (S n).
  - destruct errno; simpl; try (by eexists "", (Some _), (S n)).
    + unfold os_Stat, bind; simpl. destruct (t !! key_of dir); simpl;
        [by eexists "", (Some _), (S n)|].
      destruct (missing_errno t (key_of dir)); by eexists "", (Some _), (S n).
    + destruct (IH (mkWorld t o i (S n) out sol)) as (name & err & n' & Heq & Hfresh).
      exists name, err, n'. split; [|done].
      etrans; [exact Heq|]. by destruct err.
Qed.

Lemma bind_Peek {A} n (k : list byte * option error → M A) w :
  bind (bufio_Peek n) k w
  = k (take n (rd_bytes (stdin w)),
       if (length (take n (rd_bytes (stdin w))) <? n)%nat
       then Some (default io_EOF (rd_fault (stdin w))) else None) w.
Proof. reflexivity. Qed.

(** [contextFromStdin] never panics and leaves no file open.  Either it
    fails without any change to the file tree, or it returns a temporary
    directory that did not exist before, and whatever it read from stdin,
    an archive with any entry names or a recipe with any name, it created
    or changed nothing outside that directory. *)
Theorem contextFromStdin_confined E dockerfileName w :
  ∃ dir err w',
    contextFromStdin E dockerfileName w = (Ret (dir, err), w')
    ∧ open_files w' = open_files w
    ∧ ((err ≠ None ∧ fs w' = fs w)
       ∨ (fs w !! key_of dir = None
          ∧ ∀ p, ¬ inside dir p → fs w' !! p = fs w !! p)).
Proof.
  unfold contextFromStdin, ioutil_TempDir.
  set (name := if String.eqb dockerfileName "" then _ else _).
  destruct (TempDir_loop_outcome E (Z.to_nat 9999) (os_TempDir E)
              "img-build-context-" w) as (dir & terr & n & Htmp & Hfresh).
  rewrite (bind_Ret _ _ _ _ _ Htmp). cbv beta iota.
  destruct terr as [terr|].
  { eexists _, _, _. split; [reflexivity|]. split; [by destruct w|].
    left. split; [done|]. by destruct w. }
  specialize (Hfresh eq_refl).
  set (w1 := set_draws n (set_fs _ w)).
  assert (open_files w1 = open_files w) as Hopen by by destruct w.
  assert (fs w1 = <[key_of dir := Dir (create_mode E 0x1c0)]> (fs w)) as Hfs
    by by destruct w.
  assert (∀ t' : gmap path node,
            (∀ p, ¬ inside dir p → t' !! p = fs w1 !! p) →
            ∀ p, ¬ inside dir p → t' !! p = fs w !! p) as Hout.
  { intros t' Ht' p Hp. rewrite Ht', Hfs by done.
    apply lookup_insert_ne. intros <-. apply Hp. by unfold inside. }
  assert (∀ (err : option error) (w' : world),
            open_files w' = open_files w →
            (∀ p, ¬ inside dir p → fs w' !! p = fs w1 !! p) →
            open_files w' = open_files w
            ∧ ((err ≠ None ∧ fs w' = fs w)
               ∨ (fs w !! key_of dir = None
                  ∧ ∀ p, ¬ inside dir p → fs w' !! p = fs w !! p))) as Hpost.
  { intros err w' Ho Hf. split; [done|]. right. split; [done|]. by apply Hout. }
  assert (∀ m : Z,
            ∀ p, ¬ inside dir p →
                 <[key_of (securejoin.SecureJoin dir name) :=
                     File m (rd_bytes (stdin w1))]> (fs w1) !! p = fs w1 !! p)
    as Hfile.
  { intros m p Hp. apply lookup_insert_ne. intros <-. apply Hp.
    destruct (key_of_SecureJoin dir name) as [tail Htail].
    unfold inside. rewrite Htail. by apply prefix_app_r. }
  rewrite bind_Peek.
  set (magic := take 512 (rd_bytes (stdin w1))).
  assert (∃ err w',
            (if isArchive E magic
             then let! buf := drain_stdin in
                  let! err := untar E dir buf in ret (dir, err)
             else if String.eqb name "-"
                  then ret (dir, Some (errors_New "build context is not an archive"))
                  else let! created := os_Create E (securejoin.SecureJoin dir name) in
                       match created with
                       | inr err => ret (dir, Some err)
                       | inl f =>
                           defer (file_Close f)
                             (let! buf := drain_stdin in
                              let! err := io_Copy f (rd_bytes buf) (rd_fault buf) in
                              ret (dir, err))
                       end) w1 = (Ret (dir, err), w')
            ∧ open_files w' = open_files w
            ∧ ((err ≠ None ∧ fs w' = fs w)
               ∨ (fs w !! key_of dir = None
                  ∧ ∀ p, ¬ inside dir p → fs w' !! p = fs w !! p))) as Hmain.
  { destruct (isArchive E magic).
    - unfold bind at 1, drain_stdin.
      set (w2 := set_stdin _ w1).
      destruct (untar_step E dir (stdin w1) w2) as (res & t' & Hrun & _ & _ & Hconf).
      rewrite (bind_Ret _ _ _ _ _ Hrun). eexists _, _. split; [reflexivity|].
      apply Hpost; [by destruct w1|]. rewrite fs_set_fs. intros p Hp.
      replace (fs w1) with (fs w2) by by destruct w1.
      apply Hconf; [|done]. replace (fs w2) with (fs w1) by by destruct w1.
      by rewrite Hfs, lookup_insert_eq.
    - destruct (String.eqb name "-").
      { eexists _, _. split; [reflexivity|]. by apply Hpost. }
      unfold bind at 1. rewrite os_Create_spec.
      destruct (fs w1 !! key_of (securejoin.SecureJoin dir name))
        as [[m|m old]|] eqn:Hk.
      + eexists _, _. split; [reflexivity|]. by apply Hpost.
      + rewrite (copy_stdin_close _ _ _ m)
          by (rewrite fs_set_fs; apply lookup_insert_eq).
        eexists _, _. split; [reflexivity|].
        apply Hpost; [by destruct w1|].
        replace (fs _) with
          (<[key_of (securejoin.SecureJoin dir name) :=
               File m (rd_bytes (stdin w1))]> (fs w1))
          by (destruct w1; simpl; by rewrite insert_insert_eq).
        apply Hfile.
      + destruct (is_dir _).
        * rewrite (copy_stdin_close _ _ _ (create_mode E 0x1b6))
            by (rewrite fs_set_fs; apply lookup_insert_eq).
          eexists _, _. split; [reflexivity|].
          apply Hpost; [by destruct w1|].
          replace (fs _) with
            (<[key_of (securejoin.SecureJoin dir name) :=
                 File (create_mode E 0x1b6) (rd_bytes (stdin w1))]> (fs w1))
            by (destruct w1; simpl; by rewrite insert_insert_eq).
          apply Hfile.
        * eexists _, _. split; [reflexivity|]. by apply Hpost. }
  destruct Hmain as (err & w' & Hrun & Hrest).
  destruct (if (length magic <? 512)%nat
            then Some (default io_EOF (rd_fault (stdin w1))) else None)
    as [[]|]; try (eexists _, _, _; split; [reflexivity|]; by apply Hpost).
  all: by exists dir, err, w'.
Qed.

(** A context on stdin is extracted only from a gzip stream.  What
    [isArchive] takes for an archive without the gzip magic number, a
    bzip2 or xz stream or an uncompressed tar, is handed to [untar] and
    refused there: [contextFromStdin] returns an error, and apart from the
    temporary directory it made nothing is created. *)
Theorem contextFromStdin_only_gzip E dockerfileName w :
  isArchive E (take 512 (rd_bytes (stdin w))) = true →
  DetectCompression (rd_bytes (stdin w)) ≠ Gzip →
  ∃ dir err w',
    contextFromStdin E dockerfileName w = (Ret (dir, Some err), w')
    ∧ ∀ p, p ≠ key_of dir → fs w' !! p = fs w !! p.
Proof.
  intros Harch Hkind. unfold contextFromStdin, ioutil_TempDir.
  destruct (TempDir_loop_outcome E (Z.to_nat 9999) (os_TempDir E)
              "img-build-context-" w) as (dir & terr & n & Htmp & Hfresh).
  rewrite (bind_Ret _ _ _ _ _ Htmp). cbv beta iota.
  destruct terr as [terr|].
  { eexists _, _, _. split; [reflexivity|]. by destruct w. }
  set (w1 := set_draws n (set_fs _ w)).
  assert (stdin w1 = stdin w) as Hin by by destruct w.
  assert (∀ p, p ≠ key_of dir → fs w1 !! p = fs w !! p) as Hout.
  { intros p Hp. destruct w. simpl. by apply lookup_insert_ne. }
  rewrite bind_Peek, Hin, Harch. cbv iota.
  assert (∃ err w',
            (let! buf := drain_stdin in
             let! err := untar E dir buf in ret (dir, err)) w1
            = (Ret (dir, Some err), w')
            ∧ ∀ p, p ≠ key_of dir → fs w' !! p = fs w !! p) as (err & w' & Hrun & Hout').
  { unfold bind at 1, drain_stdin. set (w2 := set_stdin _ w1).
    destruct (untar_only_gzip E dir (stdin w1) w2) as [err Herr].
    { by rewrite Hin. }
    rewrite (bind_Ret _ _ _ _ _ Herr). eexists _, _. split; [reflexivity|].
    intros p Hp. rewrite <- (Hout p Hp). by destruct w1. }
  destruct (if (length _ <? 512)%nat then _ else None) as [[]|];
    first [by exists dir, err, w' | by eexists dir, _, w1].
Qed.

Lemma contextFromStdin_only_gzip_witness :
  ∃ dir err w',
    contextFromStdin (host no_entries) "Dockerfile" (world_of tree0 plain_tar)
    = (Ret (dir, Some err), w')
    ∧ ∀ p, p ≠ key_of dir → fs w' !! p = tree0 !! p.
Proof.
  apply (contextFromStdin_only_gzip (host no_entries) "Dockerfile"
           (world_of tree0 plain_tar));
    [vm_compute; reflexivity | discriminate].
Defined.

(** When stdin holds an archive, the recipe name plays no part in
    [contextFromStdin]: it is neither looked for in the archive nor
    refused when it is [-]. *)
Theorem contextFromStdin_archive_any_name E name1 name2 w :
  isArchive E (take 512 (rd_bytes (stdin w))) = true →
  contextFromStdin E name1 w = contextFromStdin E name2 w.
Proof.
  intros Harch. unfold contextFromStdin, ioutil_TempDir.
  destruct (TempDir_loop_outcome E (Z.to_nat 9999) (os_TempDir E)
              "img-build-context-" w) as (dir & terr & n & Htmp & Hfresh).
  rewrite !(bind_Ret _ _ _ _ _ Htmp). cbv beta iota.
  destruct terr as [terr|]; [done|].
  set (w1 := set_draws n (set_fs _ w)).
  assert (stdin w1 = stdin w) as Hin by by destruct w.
  rewrite !bind_Peek. rewrite Hin, Harch. cbv beta iota. reflexivity.
Qed.

Lemma contextFromStdin_archive_any_name_witness :
  contextFromStdin (host (archive [file_entry "Dockerfile" 0x1a4 "FROM scratch"]))
    "-" (world_of tree0 gzip_header)
  = contextFromStdin (host (archive [file_entry "Dockerfile" 0x1a4 "FROM scratch"]))
      "recipes/app" (world_of tree0 gzip_header).
Proof.
  apply (contextFromStdin_archive_any_name
           (host (archive [file_entry "Dockerfile" 0x1a4 "FROM scratch"]))
           "-" "recipes/app" (world_of tree0 gzip_header)).
  reflexivity.
Defined.



(** Every outcome of the loop of [TempFile]: an empty file that was not
    there is created, opened and returned, or an error is returned with
    the file tree and the open files as they were. *)
Lemma TempFile_loop_outcome E more dir prefix w :
  ∃ res n,
    TempFile_loop E more dir prefix w
    = (Ret res,
       set_draws n
         (match res with
          | inl f =>
              set_open_files (fd_key f :: open_files w)
                (set_fs (<[fd_key f := File (create_mode E 0x180) []]> (fs w)) w)
          | inr _ => w
          end))
    ∧ ∀ f, res = inl f →
           fs w !! fd_key f = None
           ∧ fd_key f = key_of (fd_name f)
           ∧ is_dir (fs w !! removelast (fd_key f)) = true
           ∧ ∃ k, fd_name f = filepath.Join2 dir (prefix +:+ nextSuffix E k).
Proof.
  revert w. induction more as [|more IH]; intros [t o i n out sol]; simpl;
    unfold bind, draw_suffix, os_OpenFile; simpl;
    destruct (t !! key_of _) as [[m|m d]|] eqn:Hk; simpl.
  - by eexists (inr _), (S n).
  - change (has_flag _ O_CREATE && has_flag _ O_EXCL) with true. simpl.
    by eexists (inr _), (S n).
  - change (has_flag _ O_CREATE) with true. simpl.
    destruct (is_dir _) eqn:Hdir; simpl.
    + eexists (inl {| fd_key := _; fd_name := _ |}), (S n).
      split; [reflexivity|]. intros f [= <-]. simpl.
      split; [done|]. split; [done|]. split; [done|]. by exists n.
    + unfold missing_errno. destruct (t !! removelast _) as [[]|];
        simpl in Hdir; try discriminate Hdir; simpl; by eexists (inr _), (S n).
  - by eexists (inr _), (S n).
  - change (has_flag _ O_CREATE && has_flag _ O_EXCL) with true. simpl.
    destruct (IH (mkWorld t o i (S n) out sol)) as (res & n' & Heq & Hfresh).
    exists res, n'. split; [|done]. etrans; [exact Heq|]. by destruct res.
  - change (has_flag _ O_CREATE) with true. simpl.
    destruct (is_dir _) eqn:Hdir; simpl.
    + eexists (inl {| fd_key := _; fd_name := _ |}), (S n).
      split; [reflexivity|]. intros f [= <-]. simpl.
      split; [done|]. split; [done|]. split; [done|]. by exists n.
    + unfold missing_errno. destruct (t !! removelast _) as [[]|];
        simpl in Hdir; try discriminate Hdir; simpl; by eexists (inr _), (S n).
Qed.

(** What [dockerfileFromStdin] does, case by case.  It leaves no file
    open.  A read fault on stdin is returned and nothing is written.
    Otherwise either a file that did not exist is created with mode 0600
    less the umask, holds exactly the bytes of stdin, and its name is
    returned with a nil error; or the temporary file could not be created
    and the call panics on [f.Name()] of a nil file, so the error it
    prepared for that case is never returned. *)
Theorem dockerfileFromStdin_outcome E w :
  ∃ w',
    open_files w' = open_files w
    ∧ match rd_fault (stdin w) with
      | Some err =>
          dockerfileFromStdin E w
          = (Ret ("", Some (fmt_Errorf "reading from stdin failed: " err)), w')
          ∧ fs w' = fs w
      | None =>
          (∃ name,
              dockerfileFromStdin E w = (Ret (name, None), w')
              ∧ fs w !! key_of name = None
              ∧ fs w' = <[key_of name :=
                            File (create_mode E 0x180) (rd_bytes (stdin w))]> (fs w))
          ∨ (∃ msg, dockerfileFromStdin E w = (Panic msg, w') ∧ fs w' = fs w)
      end.
Proof.
  unfold dockerfileFromStdin. destruct w as [t o i d out sol].
  erewrite bind_Ret by (unfold ioutil_ReadAll_stdin; reflexivity).
  cbn [fs open_files stdin rd_fault]. cbv beta iota.
  destruct (rd_fault i) as [err|] eqn:Hfault.
  { eexists. split; [|split; [reflexivity|]]; done. }
  set (w0 := set_stdin _ _). unfold ioutil_TempFile.
  destruct (TempFile_loop_outcome E (Z.to_nat 9999) (os_TempDir E)
              "img-build-dockerfile-" w0) as (res & n & Hrun & Hfresh).
  rewrite (bind_Ret _ _ _ _ _ Hrun). clear Hrun. subst w0.
  destruct res as [f|err].
  - destruct (Hfresh f eq_refl) as (Hnone & Hkey & _). simpl in Hnone.
    eexists. split; [|left; exists (fd_name f); split; [|split]].
    2:{ unfold defer, bind, file_Write, file_Close, modify, ret. simpl.
        rewrite lookup_insert_eq. simpl. reflexivity. }
    + simpl. by rewrite decide_True.
    + by rewrite <- Hkey.
    + rewrite <- Hkey. simpl.
      rewrite insert_insert_eq. unfold write_at0. by rewrite drop_nil, app_nil_r.
  - eexists. split; [|right; eexists; split; [reflexivity|]]; done.
Qed.

Lemma dockerfileFromStdin_written :
  dockerfileFromStdin (host no_entries) (world_of tree0 (bytes_of "FROM scratch"))
  = (Ret ("/tmp/img-build-dockerfile-7", None),
     set_draws 1
       (set_fs (<[ ["tmp"; "img-build-dockerfile-7"] :=
                     File 0x180 (bytes_of "FROM scratch") ]> tree0)
          (world_of tree0 []))).
Proof. vm_compute. reflexivity. Qed.

Lemma dockerfileFromStdin_no_tempdir :
  dockerfileFromStdin (host no_entries)
    (world_of (delete ["tmp"] tree0) (bytes_of "FROM scratch"))
  = (Panic "invalid memory address or nil pointer dereference",
     set_draws 1 (world_of (delete ["tmp"] tree0) [])).
Proof. vm_compute. reflexivity. Qed.

(** ** Names and locations *)

Lemma append_assoc_s (a b c : string) : (a +:+ b) +:+ c = a +:+ (b +:+ c).
Proof. induction a as [|x a IH]; [done|]. by rewrite !append_cons, IH. Qed.

(** The scan of [Clean] over the elements of [a/b]. *)
Lemma clean_fold_slash a b :
  fold_left (filepath.clean_step true) (strings.Split (a +:+ String "/" b)) []
  = fold_left (filepath.clean_step true) (strings.Split b)
      (fold_left (filepath.clean_step true) (strings.Split a) []).
Proof. by rewrite Split_app_slash, fold_left_app. Qed.

Lemma Join_plain_not_empty cs :
  cs ≠ [] → Forall (fun c => plain c = true) cs → strings.Join cs "/" ≠ "".
Proof.
  intros Hne Hall. destruct cs as [|c cs]; [done|].
  apply Forall_cons in Hall as [(Hc & _)%plain_spec _].
  unfold strings.Join. simpl. destruct c as [|x c]; [done|].
  by destruct cs.
Qed.

(** A rooted path cleans to [/] exactly when it resolves to the root. *)
Lemma Clean_root x :
  String.eqb (filepath.Clean ("/" +:+ x)) "/" = true ↔ key_of ("/" +:+ x) = [].
Proof.
  unfold filepath.Clean. change (filepath.IsAbs ("/" +:+ x)) with true. cbv iota.
  fold (key_of ("/" +:+ x)). pose proof (key_of_plain ("/" +:+ x)) as Hplain.
  destruct (key_of ("/" +:+ x)) as [|c cs] eqn:Hk; [done|].
  split; [|done]. intros Heq%String.eqb_eq.
  pose proof (Join_plain_not_empty (c :: cs) ltac:(done) Hplain) as Hne.
  change ("/" +:+ strings.Join (c :: cs) "/")
    with (String "/" (strings.Join (c :: cs) "/")) in Heq.
  by injection Heq.
Qed.

(** One iteration of [SecureJoin] is one step of the scan of [Clean] on a
    rooted path. *)
Lemma securejoin_step_clean scoped p :
  contains "/" p = false →
  scoped = "" ∨ (∃ s, scoped = s +:+ "/") →
  (securejoin.step scoped p = "" ∨ ∃ s, securejoin.step scoped p = s +:+ "/")
  ∧ fold_left (filepath.clean_step true)
      (strings.Split ("/" +:+ securejoin.step scoped p)) []
    = filepath.clean_step true
        (fold_left (filepath.clean_step true) (strings.Split ("/" +:+ scoped)) []) p.
Proof.
  intros Hp Hs.
  assert (fold_left (filepath.clean_step true)
            (strings.Split ("/" +:+ scoped +:+ p)) []
          = filepath.clean_step true
              (fold_left (filepath.clean_step true)
                 (strings.Split ("/" +:+ scoped)) []) p) as Hstep.
  { destruct Hs as [-> | [s ->]].
    - change ("/" +:+ "" +:+ p) with ("" +:+ String "/" p).
      rewrite clean_fold_slash, (Split_one p Hp). reflexivity.
    - rewrite (append_assoc_s s "/" p), <- (append_assoc_s "/" s ("/" +:+ p)).
      change ("/" +:+ p) with (String "/" p).
      rewrite clean_fold_slash, (Split_one p Hp).
      rewrite <- (append_assoc_s "/" s "/").
      change (("/" +:+ s) +:+ "/") with (("/" +:+ s) +:+ String "/" "").
      by rewrite clean_fold_slash. }
  unfold securejoin.step.
  destruct (String.eqb (filepath.Clean ("/" +:+ scoped +:+ p)) "/") eqn:Hroot.
  - split; [by left|]. apply Clean_root in Hroot.
    unfold key_of, filepath.clean_elems in Hroot. rewrite Hstep in Hroot.
    rewrite <- Hstep. rewrite Hstep.
    apply (f_equal (@rev string)) in Hroot. rewrite rev_involutive in Hroot.
    by rewrite Hroot.
  - split; [right; exists (scoped +:+ p); by rewrite append_assoc_s|].
    rewrite <- Hstep.
    rewrite <- (append_assoc_s scoped p "/"), <- (append_assoc_s "/" (scoped +:+ p) "/").
    change (("/" +:+ scoped +:+ p) +:+ "/")
      with (("/" +:+ scoped +:+ p) +:+ String "/" "").
    by rewrite clean_fold_slash.
Qed.

Lemma securejoin_fold_clean ps scoped :
  Forall (fun c => contains "/" c = false) ps →
  scoped = "" ∨ (∃ s, scoped = s +:+ "/") →
  fold_left (filepath.clean_step true)
    (strings.Split ("/" +:+ fold_left securejoin.step ps scoped)) []
  = fold_left (filepath.clean_step true) ps
      (fold_left (filepath.clean_step true) (strings.Split ("/" +:+ scoped)) []).
Proof.
  intros Hps. revert scoped. induction Hps as [|p ps Hp _ IH]; intros scoped Hs.
  { done. }
  destruct (securejoin_step_clean scoped p Hp Hs) as [Hs' Hstep].
  change (fold_left securejoin.step (p :: ps) scoped)
    with (fold_left securejoin.step ps (securejoin.step scoped p)).
  rewrite IH by done. by rewrite Hstep.
Qed.

(** The pieces of a path are its elements, less an empty last one. *)
Lemma pieces_clean unsafePath out :
  Forall (fun c => contains "/" c = false) (securejoin.pieces unsafePath)
  ∧ fold_left (filepath.clean_step true) (securejoin.pieces unsafePath) out
    = fold_left (filepath.clean_step true) (strings.Split unsafePath) out.
Proof.
  unfold securejoin.pieces. pose proof (Split_contains unsafePath) as Hall.
  destruct (String.eqb_spec unsafePath "") as [->|Hne]; [done|].
  destruct (rev (strings.Split unsafePath)) as [|l r] eqn:Hrev.
  { done. }
  assert (strings.Split unsafePath = rev r ++ [l]) as Hsplit.
  { by rewrite <- (rev_involutive (strings.Split unsafePath)), Hrev. }
  destruct l as [|x l]; [|done].
  rewrite Hsplit in Hall |- *. apply Forall_app in Hall as [Hr _].
  split; [done|]. by rewrite fold_left_app.
Qed.

(** [SecureJoin] resolves the unsafe path as if the root were the root of
    the file system: the location is the one of the root followed by the
    elements the unsafe path has when it is cleaned from [/], so a [..]
    that would leave the root is dropped and a leading slash changes
    nothing. *)
Lemma SecureJoin_chroot root unsafePath :
  key_of (securejoin.SecureJoin root unsafePath)
  = key_of root ++ key_of unsafePath.
Proof.
  rewrite key_of_SecureJoin_scoped. f_equal.
  unfold scoped_elems, key_of, filepath.clean_elems. f_equal.
  destruct (pieces_clean unsafePath []) as [Hps Hfold].
  rewrite securejoin_fold_clean; [|done|by left]. exact Hfold.
Qed.

(** Where [untar] puts a regular file that is new: at the location of
    the destination followed by the elements of the entry name cleaned
    from [/], whatever [..] elements or leading slash the name has; the
    file holds the bytes of the entry and has its permission bits less
    the umask. *)
Theorem untar_places_file E dest e h w :
  entry_header e = Some h →
  Typeflag h = tar_TypeReg →
  fs w !! (key_of dest ++ key_of (Name h)) = None →
  is_dir (fs w !! removelast (key_of dest ++ key_of (Name h))) = true →
  untar_entry E dest e w =
  (Ret (entry_fault e),
   set_fs (<[key_of dest ++ key_of (Name h) :=
               File (create_mode E (os_FileMode (Mode h))) (entry_data e)]> (fs w)) w).
Proof.
  rewrite <- SecureJoin_chroot. apply untar_entry_new_file.
Qed.

Lemma untar_places_file_witness :
  untar_entry (host no_entries) "/ctx" (file_entry "../../tmp/../motd" 0x1ff "hi")
    (world_of tree0 [])
  = (Ret None,
     world_of (<[ ["ctx"; "motd"] := File 0x1ed (bytes_of "hi") ]> tree0) []).
Proof.
  rewrite (untar_places_file (host no_entries) "/ctx"
             (file_entry "../../tmp/../motd" 0x1ff "hi")
             {| Name := "../../tmp/../motd"; Typeflag := tar_TypeReg; Mode := 0x1ff |}
             (world_of tree0 [])); reflexivity.
Defined.

Lemma Split_last p :
  ∃ xs l, strings.Split p = xs ++ [l]
          ∧ Forall (fun c => contains "/" c = false) xs
          ∧ contains "/" l = false.
Proof.
  pose proof (Split_contains p) as Hall. pose proof (Split_not_nil p) as Hne.
  destruct (rev (strings.Split p)) as [|l r] eqn:Hrev.
  { apply (f_equal (@rev string)) in Hrev. by rewrite rev_involutive in Hrev. }
  assert (strings.Split p = rev r ++ [l]) as Hsplit.
  { by rewrite <- (rev_involutive (strings.Split p)), Hrev. }
  exists (rev r), l. rewrite Hsplit in Hall.
  apply Forall_app in Hall as [Hr Hl%Forall_inv]. by repeat split.
Qed.

Lemma Split_empty p : strings.Split p = [""] → p = "".
Proof.
  destruct p as [|c p]; [done|]. simpl.
  destruct (Ascii.eqb c "/"); [|by destruct (strings.Split p)].
  intros [= Hp]. by apply Split_not_nil in Hp.
Qed.

(** [Base] of a path gives its last element when that is not empty. *)
Lemma Base_last p xs l :
  strings.Split p = xs ++ [l] → l ≠ "" → filepath.Base p = l.
Proof.
  intros Hsplit Hl. unfold filepath.Base.
  destruct (String.eqb_spec p "") as [->|Hp].
  { destruct xs as [|x [|y xs]]; simpl in Hsplit; congruence. }
  rewrite Hsplit, rev_app_distr. simpl. by destruct l.
Qed.

(** [getLocalDirs] and the [filename] attribute split the recipe path in
    two, and the two halves put together name the recipe again. *)
Lemma Dir_Base_key p xs l :
  strings.Split p = xs ++ [l] → l ≠ "" →
  key_of (filepath.Dir p +:+ "/" +:+ filepath.Base p) = key_of p.
Proof.
  intros Hsplit Hl. rewrite (Base_last p xs l Hsplit Hl).
  pose proof (Split_contains p) as Hall. rewrite Hsplit in Hall.
  apply Forall_app in Hall as [Hxs Hlc%Forall_inv].
  change ("/" +:+ l) with (String "/" l).
  unfold key_of at 1, filepath.clean_elems.
  rewrite clean_fold_slash, (Split_one l Hlc).
  unfold key_of, filepath.clean_elems. rewrite Hsplit, fold_left_app. f_equal.
  simpl. f_equal.
  unfold filepath.Dir. rewrite Hsplit, rev_app_distr. simpl.
  destruct (rev xs) as [|x r] eqn:Hrev.
  { apply (f_equal (@rev string)) in Hrev. rewrite rev_involutive in Hrev.
    by subst xs. }
  rewrite <- Hrev, rev_involutive.
  assert (xs ≠ []) as Hne by (intros ->; done).
  pose proof (key_of_Clean (strings.Join xs "/" +:+ "/")) as Hclean.
  unfold key_of, filepath.clean_elems in Hclean.
  apply (f_equal (@rev string)) in Hclean. rewrite !rev_involutive in Hclean.
  rewrite Hclean.
  change (strings.Join xs "/" +:+ "/") with (strings.Join xs "/" +:+ String "/" "").
  rewrite clean_fold_slash, Split_Join by done. reflexivity.
Qed.

(** [Base] of a cleaned path whose last element is a plain name is that
    name. *)
Lemma Base_Clean_last s xs d :
  strings.Split s = xs ++ [d] → plain d = true →
  filepath.Base (filepath.Clean s) = d.
Proof.
  intros Hsplit Hd. pose proof Hd as (Hne & Hdot & Hdots & Hslash)%plain_spec.
  pose proof (Split_contains s) as Hall. rewrite Hsplit in Hall.
  apply Forall_app in Hall as [Hxs _].
  unfold filepath.Clean, filepath.clean_elems. rewrite Hsplit, fold_left_app.
  simpl. rewrite clean_step_plain by done. simpl.
  set (out := fold_left _ xs []).
  assert (Forall (fun c => contains "/" c = false) (rev out ++ [d])) as Hout.
  { apply Forall_app. split; [|by apply Forall_singleton].
    apply Forall_rev. subst out. destruct (filepath.IsAbs s).
    - apply plain_contains, clean_fold_rooted_plain; done.
    - apply clean_relative_contains; done. }
  assert (rev out ++ [d] ≠ []) as Hnil by (by destruct (rev out)).
  destruct (filepath.IsAbs s).
  - apply (Base_last _ ("" :: rev out) d); [|done].
    change ("/" +:+ strings.Join (rev out ++ [d]) "/")
      with ("" +:+ String "/" (strings.Join (rev out ++ [d]) "/")).
    rewrite Split_app_slash, Split_Join by done. reflexivity.
  - destruct (rev out ++ [d]) as [|c cs] eqn:Hcs; [done|]. rewrite <- Hcs.
    apply (Base_last _ (rev out) d); [|done].
    rewrite Split_Join; [done | by rewrite Hcs | by rewrite Hcs].
Qed.

(** The default recipe: [SecureJoin] of a context directory and a plain
    name ends in that name. *)
Lemma Base_SecureJoin root d :
  plain d = true → filepath.Base (securejoin.SecureJoin root d) = d.
Proof.
  intros Hd. pose proof Hd as (Hne & Hdot & Hdots & Hslash)%plain_spec.
  unfold securejoin.SecureJoin.
  assert (filepath.Clean ("/" +:+ fold_left securejoin.step (securejoin.pieces d) "")
          = String "/" d) as ->.
  { assert (key_of ("/" +:+ fold_left securejoin.step (securejoin.pieces d) "")
            = [d]) as Hk.
    { change (key_of ("/" +:+ fold_left securejoin.step (securejoin.pieces d) ""))
        with (scoped_elems d).
      pose proof (SecureJoin_chroot "" d) as Hc.
      rewrite key_of_SecureJoin_scoped in Hc. simpl in Hc. rewrite Hc.
      unfold key_of. rewrite (Split_one d Hslash).
      apply clean_elems_plain. by apply Forall_singleton. }
    unfold filepath.Clean.
    change (filepath.IsAbs ("/" +:+ ?x)) with true. cbv iota.
    fold (key_of ("/" +:+ fold_left securejoin.step (securejoin.pieces d) "")).
    rewrite Hk. unfold strings.Join. simpl. reflexivity. }
  apply (Base_Clean_last _ (strings.Split root) d); [|done].
  by rewrite Split_app_slash, (Split_one d Hslash).
Qed.

(** ** The command *)

Lemma solves_grown {A} (l : list A) x : l = l ++ [x] → False.
Proof.
  intros H. apply (f_equal length) in H. rewrite length_app in H. simpl in H. lia.
Qed.

(** What a request that [Run_request] issued holds. *)
Lemma Run_request_issue E cmd w req :
  solves (Run_request E cmd w).2 = solves w ++ [req] →
  ∃ tags',
    Run_tags E (tags cmd) = inl tags'
    ∧ ExporterAttrs req = <["name" := strings.Join tags' ","]> ∅
    ∧ FrontendAttrs req !! "platform"
      = Some (if (length (platforms cmd) <? 1)%nat then platforms_DefaultString E
              else strings.Join (platforms cmd) ",")
    ∧ FrontendAttrs req !! "filename"
      = Some (filepath.Base
                (if String.eqb (dockerfilePath cmd) ""
                 then securejoin.SecureJoin (contextDir cmd) (defaultDockerfileName E)
                 else dockerfilePath cmd)).
Proof.
  unfold Run_request.
  destruct (Run_tags E (tags cmd)) as [tags'|err] eqn:Htags;
    [|by intros ?%solves_grown].
  set (cmd1 := with_tags tags' cmd).
  set (cmd2 := if String.eqb (dockerfilePath cmd1) ""
               then with_dockerfilePath _ cmd1 else cmd1).
  set (cmd3 := if (length (platforms cmd2) <? 1)%nat
               then with_platforms _ cmd2 else cmd2).
  destruct (client_New E (getLocalDirs cmd3)); [by intros ?%solves_grown|].
  destruct (Run_frontendAttrs cmd3 _) as [attrs|err] eqn:Hattrs;
    [|by intros ?%solves_grown].
  intros Hsol.
  destruct (Run_solve_post E cmd3 (hd "" (tags cmd1)) attrs w) as [[_ Hs]|[_ Hs]];
    rewrite Hs in Hsol; [by apply solves_grown in Hsol|].
  apply app_inv_head in Hsol as [= <-].
  apply Run_frontendAttrs_fixed in Hattrs as (Hf & _ & Hp & _).
  exists tags'. split; [done|]. simpl.
  assert (platforms cmd2 = platforms cmd) as Hp2.
  { subst cmd2 cmd1. by destruct (String.eqb _ _). }
  assert (dockerfilePath cmd2
          = if String.eqb (dockerfilePath cmd) ""
            then securejoin.SecureJoin (contextDir cmd) (defaultDockerfileName E)
            else dockerfilePath cmd) as Hd2.
  { subst cmd2 cmd1. simpl. by destruct (String.eqb _ _). }
  assert (tags cmd2 = tags') as Ht2.
  { subst cmd2 cmd1. by destruct (String.eqb _ _). }
  assert (tags cmd3 = tags') as ->.
  { subst cmd3. by destruct (_ <? _)%nat. }
  assert (platforms cmd3
          = if (length (platforms cmd) <? 1)%nat
            then [platforms_DefaultString E] else platforms cmd) as Hp3.
  { subst cmd3. rewrite Hp2. by destruct (length (platforms cmd) <? 1)%nat. }
  assert (dockerfilePath cmd3 = dockerfilePath cmd2) as Hd3.
  { subst cmd3. by destruct (_ <? _)%nat. }
  split; [done|]. rewrite Hf, Hp, Hp3, Hd3, Hd2. split; [|done].
  by destruct (length (platforms cmd) <? 1)%nat.
Qed.

Lemma defer_result {A B} (f : M B) (rest : M A) w :
  (defer f rest w).1 = (rest w).1 ∧ (defer f rest w).2 = (f (rest w).2).2.
Proof. unfold defer. by destruct (rest w). Qed.

Lemma defer_solves {A B} (f : M B) (rest : M A) w :
  keeps_solves f → solves (defer f rest w).2 = solves (rest w).2.
Proof. intros Hf. destruct (defer_result f rest w) as [_ ->]. apply Hf. Qed.

(** A request that [Run] issued was issued by [Run_request], for a
    command that has the options of the one given; the recipe path and the
    context directory are the ones given unless they were [-]. *)
Lemma Run_to_request E cmd args w req :
  solves (Run E cmd args w).2 = solves w ++ [req] →
  ∃ cmd1 w1,
    solves (Run_request E cmd1 w1).2 = solves w1 ++ [req]
    ∧ platforms cmd1 = platforms cmd ∧ tags cmd1 = tags cmd
    ∧ (dockerfilePath cmd ≠ "-" → dockerfilePath cmd1 = dockerfilePath cmd)
    ∧ (hd "" args ≠ "-" → contextDir cmd1 = hd "" args).
Proof.
  assert (∀ c w0,
            solves (Run_context E c w0).2 = solves w0 ++ [req] →
            ∃ cmd1 w1,
              solves (Run_request E cmd1 w1).2 = solves w1 ++ [req]
              ∧ platforms cmd1 = platforms c ∧ tags cmd1 = tags c
              ∧ dockerfilePath cmd1 = dockerfilePath c
              ∧ (contextDir c ≠ "-" → contextDir cmd1 = contextDir c)) as Hctx.
  { intros c w0. unfold Run_context.
    destruct (String.eqb (contextDir c) ""); [by intros ?%solves_grown|].
    destruct (String.eqb_spec (contextDir c) "-") as [Hc|Hc].
    2:{ intros Hsol. by exists c, w0. }
    unfold bind. pose proof (keeps_contextFromStdin E (dockerfilePath c) w0) as Hk.
    destruct (contextFromStdin E (dockerfilePath c) w0) as [[[dir [err|]]|msg] w1];
      simpl in Hk; simpl; try (rewrite Hk; by intros ?%solves_grown).
    rewrite defer_solves by apply keeps_os_RemoveAll. rewrite <- Hk.
    intros Hsol. by exists (with_contextDir dir c), w1. }
  unfold Run.
  destruct (length args <? 1)%nat; [by intros ?%solves_grown|].
  destruct (length (tags cmd) <? 1)%nat; [by intros ?%solves_grown|].
  destruct (installRuncIfDNE E); [by intros ?%solves_grown|].
  set (cmd0 := with_contextDir (hd "" args) cmd).
  destruct (String.eqb_spec (dockerfilePath cmd0) "-") as [Hd|Hd].
  - unfold bind. pose proof (keeps_dockerfileFromStdin E w) as Hk.
    destruct (dockerfileFromStdin E w) as [[[name [err|]]|msg] w1];
      simpl in Hk; simpl; try (rewrite Hk; by intros ?%solves_grown).
    rewrite defer_solves by apply keeps_os_RemoveAll. rewrite <- Hk.
    intros (cmd1 & w2 & Hsol & Hp & Ht & _ & Hc)%Hctx.
    exists cmd1, w2. by repeat split.
  - intros (cmd1 & w2 & Hsol & Hp & Ht & Hdf & Hc)%Hctx.
    exists cmd1, w2. by repeat split.
Qed.

(** The [platform] attribute of a request: the platforms given, joined
    by commas, and the default platform of the host when none was
    given. *)
Theorem Run_platform_attribute E cmd args w req :
  solves (Run E cmd args w).2 = solves w ++ [req] →
  FrontendAttrs req !! "platform"
  = Some (match platforms cmd with
          | [] => platforms_DefaultString E
          | _ => strings.Join (platforms cmd) ","
          end).
Proof.
  intros (cmd1 & w1 & Hsol & Hp & _)%Run_to_request.
  apply Run_request_issue in Hsol as (_ & _ & _ & -> & _).
  rewrite Hp. by destruct (platforms cmd).
Qed.

Lemma Run_platform_attribute_witness :
  ∃ req,
    FrontendAttrs req !! "platform" = Some "linux/amd64".
Proof.
  eexists.
  apply (Run_platform_attribute (host no_entries) (build_cmd ["myapp"] [] [])
           ["."] (world_of tree0 [])).
  vm_compute. reflexivity.
Defined.





(** What a run comes to: it issues at most one request; it returns nil
    only if it issued one and the three tasks of the request ended
    without error; and a run that issued none does not return nil.  A
    request is always for the frontend [dockerfile.v0] and the exporter
    [image]. *)
Theorem Run_outcome E cmd args w :
  ((Run E cmd args w).1 ≠ Ret None ∧ solves (Run E cmd args w).2 = solves w)
  ∨ ∃ req,
      (Run E cmd args w).1 = Ret (errgroup_Wait E req)
      ∧ solves (Run E cmd args w).2 = solves w ++ [req]
      ∧ Frontend req = "dockerfile.v0" ∧ Exporter req = "image"
      ∧ Ref req = identity_NewID E ∧ Session req = session_ID E.
Proof.
  destruct (Run_post_Run E cmd args w) as [Hfail|Hreq]; [by left|right].
  destruct Hreq as (cmd' & platforms & attrs & _ & _ & _ & _ & _ & _ & Hres & Hsol).
  by exists (request_of E cmd' attrs).
Qed.

(** ** Temporary files of a run *)

Lemma os_RemoveAll_gone name w p :
  inside name p → fs (os_RemoveAll name w).2 !! p = None.
Proof.
  intros Hin. unfold os_RemoveAll. destruct w as [t o i n out sol]. simpl.
  apply map_lookup_filter_None. right. intros x _ Hnot. by apply Hnot.
Qed.

(** A context read from stdin is removed when the run ends, however it
    ends: after a run that got its context from stdin nothing is left at
    or below the temporary directory, also when the build failed or
    panicked. *)
Theorem Run_removes_stdin_context E cmd args w dir w1 :
  hd "" args = "-" →
  tags cmd ≠ [] →
  installRuncIfDNE E = None →
  dockerfilePath cmd ≠ "-" →
  contextFromStdin E (dockerfilePath cmd) w = (Ret (dir, None), w1) →
  ∀ p, inside dir p → fs (Run E cmd args w).2 !! p = None.
Proof.
  intros Hctx Htags Hrunc Hdf Hstdin p Hp. unfold Run.
  destruct args as [|a args]; [done|]. simpl in Hctx. subst a.
  destruct (tags cmd) as [|tag tags] eqn:Ht; [done|].
  cbn [length Nat.ltb Nat.leb]. rewrite Hrunc.
  set (cmd0 := with_contextDir _ cmd).
  destruct (String.eqb_spec (dockerfilePath cmd0) "-") as [Heq|_]; [done|].
  unfold Run_context. change (contextDir cmd0) with "-".
  change (String.eqb "-" "") with false. change (String.eqb "-" "-") with true.
  cbv iota. change (dockerfilePath cmd0) with (dockerfilePath cmd).
  rewrite (bind_Ret _ _ _ _ _ Hstdin). cbv beta iota.
  destruct (defer_result (os_RemoveAll (contextDir (with_contextDir dir cmd0)))
              (Run_request E (with_contextDir dir cmd0)) w1) as [_ ->].
  by apply os_RemoveAll_gone.
Qed.

Lemma Run_removes_stdin_context_witness :
  fs (Run (host no_entries) (build_cmd ["myapp"] [] []) ["-"]
        (world_of tree0 (bytes_of "FROM scratch"))).2
    !! ["tmp"; "img-build-context-7"; "Dockerfile"] = None.
Proof.
  apply (Run_removes_stdin_context (host no_entries) (build_cmd ["myapp"] [] [])
           ["-"] (world_of tree0 (bytes_of "FROM scratch"))
           "/tmp/img-build-context-7"
           (set_draws 1
              (set_fs (<[ ["tmp"; "img-build-context-7"; "Dockerfile"] :=
                            File 0x1a4 (bytes_of "FROM scratch") ]>
                         (<[ ["tmp"; "img-build-context-7"] := Dir 0x1c0 ]> tree0))
                 (world_of tree0 []))));
    [reflexivity | discriminate | reflexivity | discriminate | | ].
  - vm_compute. reflexivity.
  - exists ["Dockerfile"]. reflexivity.
Defined.

(** A recipe read from stdin is removed when the run ends, however it
    ends. *)
Theorem Run_removes_stdin_dockerfile E cmd args w name w1 :
  args ≠ [] →
  tags cmd ≠ [] →
  installRuncIfDNE E = None →
  dockerfilePath cmd = "-" →
  dockerfileFromStdin E w = (Ret (name, None), w1) →
  ∀ p, inside name p → fs (Run E cmd args w).2 !! p = None.
Proof.
  intros Hargs Htags Hrunc Hdf Hstdin p Hp. unfold Run.
  destruct args as [|a args]; [done|].
  destruct (tags cmd) as [|tag tags] eqn:Ht; [done|].
  cbn [length Nat.ltb Nat.leb]. rewrite Hrunc.
  set (cmd0 := with_contextDir _ cmd).
  change (dockerfilePath cmd0) with (dockerfilePath cmd). rewrite Hdf.
  change (String.eqb "-" "-") with true. cbv iota.
  rewrite (bind_Ret _ _ _ _ _ Hstdin). cbv beta iota.
  destruct (defer_result (os_RemoveAll (dockerfilePath (with_dockerfilePath name cmd0)))
              (Run_context E (with_dockerfilePath name cmd0)) w1) as [_ ->].
  by apply os_RemoveAll_gone.
Qed.

Lemma Run_removes_stdin_dockerfile_witness :
  fs (Run (host no_entries)
        (with_dockerfilePath "-" (build_cmd ["myapp"] [] [])) ["/ctx"]
        (world_of tree0 (bytes_of "FROM scratch"))).2
    !! ["tmp"; "img-build-dockerfile-7"] = None.
Proof.
  apply (Run_removes_stdin_dockerfile (host no_entries)
           (with_dockerfilePath "-" (build_cmd ["myapp"] [] [])) ["/ctx"]
           (world_of tree0 (bytes_of "FROM scratch"))
           "/tmp/img-build-dockerfile-7"
           (set_draws 1
              (set_fs (<[ ["tmp"; "img-build-dockerfile-7"] :=
                            File 0x180 (bytes_of "FROM scratch") ]> tree0)
                 (world_of tree0 []))));
    [discriminate | discriminate | reflexivity | reflexivity | | ].
  - vm_compute. reflexivity.
  - exists []. reflexivity.
Defined.



(** ** Recipe and context both from stdin *)

(** What a successful [dockerfileFromStdin] leaves. *)
Lemma dockerfileFromStdin_ok E w name w1 :
  dockerfileFromStdin E w = (Ret (name, None), w1) →
  rd_bytes (stdin w1) = []
  ∧ fs w1 = <[key_of name := File (create_mode E 0x180) (rd_bytes (stdin w))]> (fs w)
  ∧ fs w !! key_of name = None
  ∧ is_dir (fs w !! removelast (key_of name)) = true
  ∧ ∃ k, name = filepath.Join2 (os_TempDir E)
                  ("img-build-dockerfile-" +:+ nextSuffix E k).
Proof.
  unfold dockerfileFromStdin. destruct w as [t o i d out sol].
  erewrite bind_Ret by (unfold ioutil_ReadAll_stdin; reflexivity).
  cbn [fs open_files stdin rd_fault]. cbv beta iota.
  destruct (rd_fault i) as [err|] eqn:Hfault; [done|].
  set (w0 := set_stdin _ _). unfold ioutil_TempFile.
  destruct (TempFile_loop_outcome E (Z.to_nat 9999) (os_TempDir E)
              "img-build-dockerfile-" w0) as (res & n & Hrun & Hfresh).
  rewrite (bind_Ret _ _ _ _ _ Hrun). clear Hrun. subst w0.
  destruct res as [f|err]; [|done].
  destruct (Hfresh f eq_refl) as (Hnone & Hkey & Hparent & k & Hname).
  simpl in Hnone, Hparent.
  unfold defer, bind, file_Write, file_Close, modify, ret. simpl.
  rewrite lookup_insert_eq. simpl. intros [= <- <-]. simpl.
  rewrite <- Hkey, insert_insert_eq. unfold write_at0.
  rewrite drop_nil, app_nil_r. eauto 10.
Qed.

Lemma wf_below_missing t p q :
  wf_tree t → t !! p = None → t !! (p ++ q) = None.
Proof.
  intros [_ Hwf] Hp. induction q as [|a q IH] using rev_ind.
  { by rewrite app_nil_r. }
  destruct (t !! (p ++ q ++ [a])) as [n|] eqn:Hq; [|done].
  assert (is_dir (t !! removelast (p ++ q ++ [a])) = true) as Hdir
    by (apply Hwf; by rewrite Hq).
  by rewrite app_assoc, removelast_last, IH in Hdir.
Qed.

(** The location of [Join(dir, name)] for a plain name. *)
Lemma key_of_Join2 dir x :
  plain x = true → key_of (filepath.Join2 dir x) = key_of dir ++ [x].
Proof.
  intros Hx. pose proof Hx as (Hne & _ & _ & Hslash)%plain_spec.
  assert (key_of x = [x]) as Hkx.
  { unfold key_of. rewrite (Split_one x Hslash).
    apply clean_elems_plain. by apply Forall_singleton. }
  unfold filepath.Join2.
  destruct (String.eqb_spec dir "") as [->|Hdir];
    destruct (String.eqb_spec x "") as [|_]; try done.
  { by rewrite key_of_Clean. }
  rewrite key_of_Clean. change ("/" +:+ x) with (String "/" x).
  unfold key_of, filepath.clean_elems.
  rewrite clean_fold_slash, (Split_one x Hslash). simpl.
  by rewrite clean_step_plain.
Qed.

(** With nothing left on stdin and a recipe name that lies in a
    directory, [contextFromStdin] does not succeed: the empty input is
    not an archive, and the recipe it would write has no directory to go
    to in the new context. *)
Lemma contextFromStdin_empty_stdin E name k x w dir w1 :
  wf_tree (fs w) →
  rd_bytes (stdin w) = [] →
  key_of name = k ++ [x] → k ≠ [] →
  contextFromStdin E name w ≠ (Ret (dir, None), w1).
Proof.
  intros Hwf Hempty Hname Hk.
  assert (name ≠ "") as Hne by (intros ->; by destruct k).
  assert (name ≠ "-") as Hdash.
  { intros ->. destruct k as [|a [|b k]]; [done| |]; by vm_compute in Hname. }
  unfold contextFromStdin, ioutil_TempDir.
  destruct (TempDir_loop_outcome E (Z.to_nat 9999) (os_TempDir E)
              "img-build-context-" w) as (tmp & terr & n & Htmp & Hfresh).
  rewrite (bind_Ret _ _ _ _ _ Htmp). cbv beta iota. clear Htmp.
  destruct terr as [terr|]; [done|]. specialize (Hfresh eq_refl).
  set (w0 := set_draws n (set_fs _ w)).
  assert (stdin w0 = stdin w) as Hin by by destruct w.
  assert (fs w0 = <[key_of tmp := Dir (create_mode E 0x1c0)]> (fs w)) as Hfs
    by by destruct w.
  rewrite bind_Peek, Hin, Hempty. cbn [take length Nat.ltb Nat.leb].
  destruct (default io_EOF (rd_fault (stdin w))); try done.
  change (isArchive E []) with false. cbv iota.
  apply String.eqb_neq in Hne, Hdash. rewrite Hne, Hdash.
  unfold bind. rewrite os_Create_spec, SecureJoin_chroot, Hname, Hfs.
  assert (∀ q, q ≠ [] →
               <[key_of tmp := Dir (create_mode E 0x1c0)]> (fs w) !! (key_of tmp ++ q)
               = None) as Hbelow.
  { intros q Hq. rewrite lookup_insert_ne.
    - by apply wf_below_missing.
    - intros Heq. apply Hq. apply (app_inv_head (key_of tmp)).
      by rewrite app_nil_r. }
  rewrite Hbelow by (by destruct k).
  rewrite app_assoc, removelast_last, Hbelow by done. done.
Qed.

(** With both the recipe and the context taken from stdin a run builds
    nothing: it issues no request and does not return nil.  The recipe is
    read first and takes all of the input, so the context finds stdin
    empty, which is not an archive, and the recipe it then tries to write
    goes under the path of the temporary recipe file, which does not exist
    in the new context directory.  This holds when the temporary directory
    of the host is not the root and the random suffixes have no slash. *)
Theorem Run_both_from_stdin E cmd args w :
  dockerfilePath cmd = "-" →
  hd "" args = "-" →
  wf_tree (fs w) →
  key_of (os_TempDir E) ≠ [] →
  (∀ n, contains "/" (nextSuffix E n) = false) →
  (Run E cmd args w).1 ≠ Ret None
  ∧ solves (Run E cmd args w).2 = solves w.
Proof.
  intros Hdf Hctx Hwf Htmp Hsfx.
  assert (solves (Run E cmd args w).2 = solves w) as Hsame.
  2:{ split; [|done].
      destruct (Run_post_Run E cmd args w) as [[Hres _]|Hreq]; [done|].
      destruct Hreq as (c & ps & attrs & _ & _ & _ & _ & _ & _ & _ & Hsol).
      rewrite Hsame in Hsol. by apply solves_grown in Hsol. }
  unfold Run.
  destruct (length args <? 1)%nat; [done|].
  destruct (length (tags cmd) <? 1)%nat; [done|].
  destruct (installRuncIfDNE E); [done|].
  rewrite Hctx. set (cmd0 := with_contextDir "-" cmd).
  change (dockerfilePath cmd0) with (dockerfilePath cmd). rewrite Hdf.
  change (String.eqb "-" "-") with true. cbv iota.
  unfold bind at 1. pose proof (keeps_dockerfileFromStdin E w) as Hk.
  destruct (dockerfileFromStdin E w) as [[[name [err|]]|msg] w1] eqn:Hread;
    simpl in Hk; [done| |done].
  apply dockerfileFromStdin_ok in Hread
    as (Hempty & Hfs & Hnone & Hparent & n & Hname).
  rewrite defer_solves by apply keeps_os_RemoveAll. rewrite <- Hk.
  set (cmd1 := with_dockerfilePath name cmd0).
  unfold Run_context. change (contextDir cmd1) with "-".
  change (String.eqb "-" "") with false. change (String.eqb "-" "-") with true.
  cbv iota. change (dockerfilePath cmd1) with name.
  unfold bind. pose proof (keeps_contextFromStdin E name w1) as Hk1.
  destruct (contextFromStdin E name w1) as [[[dir [err|]]|msg] w2] eqn:Hcontext;
    simpl in Hk1; [done| |done].
  exfalso. revert Hcontext.
  apply (contextFromStdin_empty_stdin E name (key_of (os_TempDir E))
           ("img-build-dockerfile-" +:+ nextSuffix E n)); try done.
  - rewrite Hfs. apply wf_insert_file; [done| |done].
    intros m. by rewrite Hnone.
  - rewrite Hname. apply key_of_Join2. apply plain_spec.
    repeat split; try done. simpl. apply Hsfx.
Qed.

Lemma host_suffix_no_slash ts n : contains "/" (nextSuffix (host ts) n) = false.
Proof.
  simpl. induction n as [|n IH]; [done|].
  change (replicate (S (S n)) "7") with ("7" :: replicate (S n) "7").
  change (String.concat "" ("7" :: replicate (S n) "7"))
    with ("7" +:+ "" +:+ String.concat "" (replicate (S n) "7")).
  exact IH.
Qed.

Lemma Run_both_from_stdin_witness :
  (Run (host no_entries) (with_dockerfilePath "-" (build_cmd ["myapp"] [] []))
     ["-"] (world_of tree0 (bytes_of "FROM scratch"))).1 ≠ Ret None
  ∧ solves (Run (host no_entries)
              (with_dockerfilePath "-" (build_cmd ["myapp"] [] []))
              ["-"] (world_of tree0 (bytes_of "FROM scratch"))).2 = [].
Proof.
  apply (Run_both_from_stdin (host no_entries)
           (with_dockerfilePath "-" (build_cmd ["myapp"] [] []))
           ["-"] (world_of tree0 (bytes_of "FROM scratch")));
    [reflexivity | reflexivity | apply wf_tree0 | discriminate
    | apply host_suffix_no_slash].
Defined.

(** The run of the example: the error is the one of the recipe file that
    could not be created in the context directory. *)
Example Run_both_from_stdin_example :
  (Run (host no_entries) (with_dockerfilePath "-" (build_cmd ["myapp"] [] []))
     ["-"] (world_of tree0 (bytes_of "FROM scratch"))).1
  = Ret (Some (fmt_Errorf "reading context from stdin failed: "
                 (PathError "open"
                    "/tmp/img-build-context-77/tmp/img-build-dockerfile-7" ENOENT))).
Proof. vm_compute. reflexivity. Qed.

(** ** Entries that are neither directories nor regular files *)

(** [untar] extracts directories and regular files and nothing else: an
    entry of any other type, a symbolic or hard link, a device, a fifo, is
    passed over without error, so an archive of such entries is extracted
    with success and leaves no trace. *)
Theorem untar_skips_other_types E dest r w :
  gzip_NewReader E r = None →
  last_error (tar_over_gzip E r) = io_EOF →
  Forall (fun e => ∀ h, entry_header e = Some h →
                        Typeflag h ≠ tar_TypeDir ∧ Typeflag h ≠ tar_TypeReg)
    (entries (tar_over_gzip E r)) →
  untar E dest r w = (Ret None, w).
Proof.
  intros Hgz Hlast Hall. unfold untar. rewrite Hgz, Hlast.
  induction Hall as [|e es He _ IH]; [done|].
  simpl. unfold bind.
  assert (untar_entry E dest e w = (Ret None, w)) as ->; [|exact IH].
  destruct (entry_header e) as [h|] eqn:Hh; [|by apply untar_entry_nil].
  destruct (He h eq_refl) as [Hdir Hreg].
  apply (untar_entry_skipped E dest e h w Hh).
  - destruct (Byte.eqb (Typeflag h) tar_TypeDir) eqn:Heq; [|done].
    by apply Byte.byte_dec_bl in Heq.
  - destruct (Byte.eqb (Typeflag h) tar_TypeReg) eqn:Heq; [|done].
    by apply Byte.byte_dec_bl in Heq.
Qed.

Lemma untar_skips_other_types_witness :
  untar (host (archive
                 [ {| entry_header :=
                        Some {| Name := "etc/passwd"; Typeflag := x32; Mode := 0x1ff |};
                      entry_data := []; entry_fault := None |};
                   {| entry_header := None; entry_data := []; entry_fault := None |} ]))
    "/ctx" gzip_stream (world_of tree0 [])
  = (Ret None, world_of tree0 []).
Proof.
  apply (untar_skips_other_types
           (host (archive
                    [ {| entry_header :=
                           Some {| Name := "etc/passwd"; Typeflag := x32; Mode := 0x1ff |};
                         entry_data := []; entry_fault := None |};
                      {| entry_header := None; entry_data := []; entry_fault := None |} ]))
           "/ctx" gzip_stream (world_of tree0 []));
    [reflexivity | reflexivity |].
  constructor; [intros h [= <-]; split; discriminate|].
  constructor; [intros h [=]|]. constructor.
Defined.

(** ** What a run prints *)


Lemma quiet_ret {A} (a : A) : keeps_stdout (ret a).
Proof. by intros w. Qed.

Lemma quiet_panic {A} msg : keeps_stdout (@panic A msg).
Proof. by intros w. Qed.

Lemma quiet_bind {A B} (m : M A) (k : A → M B) :
  keeps_stdout m → (∀ a, keeps_stdout (k a)) → keeps_stdout (bind m k).
Proof.
  intros Hm Hk w. unfold bind. specialize (Hm w).
  destruct (m w) as [[a|msg] w1]; simpl in *; [|done].
  by rewrite Hk.
Qed.

Lemma quiet_defer {A B} (f : M B) (rest : M A) :
  keeps_stdout f → keeps_stdout rest → keeps_stdout (defer f rest).
Proof.
  intros Hf Hrest w. unfold defer. specialize (Hrest w).
  destruct (rest w) as [r w1]; simpl in *. by rewrite Hf.
Qed.

Create HintDb quiet.

Ltac quiet_step :=
  first
    [ solve [auto with quiet]
    | apply quiet_ret
    | apply quiet_panic
    | match goal with
      | |- keeps_stdout (bind _ _) => apply quiet_bind; [|intros ?]
      | |- keeps_stdout (defer _ _) => apply quiet_defer
      end
    | match goal with
      | |- keeps_stdout (match ?x with _ => _ end) => destruct x
      | |- keeps_stdout (if ?x then _ else _) => destruct x
      | |- keeps_stdout (let (_, _) := ?x in _) => destruct x
      end ].

Section Quiet.

Variable E : Env.

Lemma quiet_os_Stat name : keeps_stdout (os_Stat name).
Proof. unfold os_Stat. keeps_prim. Qed.

Lemma quiet_os_Mkdir name perm : keeps_stdout (os_Mkdir E name perm).
Proof. unfold os_Mkdir. keeps_prim. Qed.

Lemma quiet_os_OpenFile name flag perm : keeps_stdout (os_OpenFile E name flag perm).
Proof. unfold os_OpenFile. keeps_prim. Qed.

Lemma quiet_file_Write f data : keeps_stdout (file_Write f data).
Proof. unfold file_Write. keeps_prim. Qed.

Lemma quiet_file_Close f : keeps_stdout (file_Close f).
Proof. unfold file_Close, modify. keeps_prim. Qed.

Lemma quiet_os_RemoveAll name : keeps_stdout (os_RemoveAll name).
Proof. unfold os_RemoveAll. keeps_prim. Qed.

Lemma quiet_ReadAll : keeps_stdout ioutil_ReadAll_stdin.
Proof. unfold ioutil_ReadAll_stdin. keeps_prim. Qed.

Lemma quiet_draw_suffix : keeps_stdout (draw_suffix E).
Proof. unfold draw_suffix. keeps_prim. Qed.

Lemma quiet_bufio_Peek n : keeps_stdout (bufio_Peek n).
Proof. unfold bufio_Peek. keeps_prim. Qed.

Lemma quiet_drain_stdin : keeps_stdout drain_stdin.
Proof. unfold drain_stdin. keeps_prim. Qed.

Lemma quiet_untar dest r : keeps_stdout (untar E dest r).
Proof.
  intros w. destruct (untar_step E dest r w) as (res & t' & -> & _).
  by destruct w.
Qed.

Hint Resolve quiet_os_Stat quiet_os_Mkdir quiet_os_OpenFile quiet_file_Write
  quiet_file_Close quiet_os_RemoveAll quiet_ReadAll quiet_draw_suffix
  quiet_bufio_Peek quiet_drain_stdin quiet_untar : quiet.

Lemma quiet_io_Copy f data fault : keeps_stdout (io_Copy f data fault).
Proof. unfold io_Copy. repeat quiet_step. Qed.

Lemma quiet_os_Create name : keeps_stdout (os_Create E name).
Proof. unfold os_Create. auto with quiet. Qed.

Lemma quiet_TempDir_loop more dir prefix :
  keeps_stdout (TempDir_loop E more dir prefix).
Proof. induction more as [|more IH]; simpl; repeat quiet_step. Qed.

Lemma quiet_TempFile_loop more dir prefix :
  keeps_stdout (TempFile_loop E more dir prefix).
Proof. induction more as [|more IH]; simpl; repeat quiet_step. Qed.

Lemma quiet_ioutil_TempDir prefix : keeps_stdout (ioutil_TempDir E prefix).
Proof. apply quiet_TempDir_loop. Qed.

Lemma quiet_ioutil_TempFile prefix : keeps_stdout (ioutil_TempFile E prefix).
Proof. apply quiet_TempFile_loop. Qed.

Lemma quiet_file_Name f : keeps_stdout (file_Name f).
Proof. by destruct f. Qed.

Hint Resolve quiet_io_Copy quiet_os_Create quiet_ioutil_TempDir
  quiet_ioutil_TempFile quiet_file_Name : quiet.

Lemma quiet_dockerfileFromStdin : keeps_stdout (dockerfileFromStdin E).
Proof. unfold dockerfileFromStdin. repeat quiet_step. Qed.

Lemma quiet_contextFromStdin name : keeps_stdout (contextFromStdin E name).
Proof. unfold contextFromStdin. repeat quiet_step. Qed.

End Quiet.

Lemma Run_solve_prints E cmd tags' attrs w :
  let out := Run_solve E cmd (hd "" tags') attrs w in
  (out.1 ≠ Ret None ∧ stdout out.2 = stdout w ++ lines_before tags')
  ∨ (out.1 = Ret None
     ∧ stdout out.2 = stdout w ++ lines_before tags' ++ [line_after tags']).
Proof.
  unfold Run_solve, fmt_Print, modify, ret, bind, lines_before, line_after.
  destruct w as [t o i n out sol]. simpl.
  destruct (client_Session E) as [err|]; simpl.
  { left. split; [done|]. by rewrite <- app_assoc. }
  destruct (errgroup_Wait E _) as [err|]; simpl.
  - left. split; [done|]. by rewrite <- app_assoc.
  - right. split; [done|]. by rewrite <- !app_assoc.
Qed.

Lemma Run_request_prints E cmd w : Run_prints E cmd w (Run_request E cmd w).
Proof.
  unfold Run_request, Run_prints.
  destruct (Run_tags E (tags cmd)) as [tags'|err] eqn:Htags; [|by left].
  set (cmd1 := with_tags tags' cmd).
  set (cmd2 := if String.eqb (dockerfilePath cmd1) ""
               then with_dockerfilePath _ cmd1 else cmd1).
  set (cmd3 := if (length (platforms cmd2) <? 1)%nat
               then with_platforms _ cmd2 else cmd2).
  destruct (client_New E (getLocalDirs cmd3)); [by left|].
  destruct (Run_frontendAttrs cmd3 _) as [attrs|err]; [|by left].
  right. exists tags'. split; [done|].
  apply (Run_solve_prints E cmd3 tags' attrs w).
Qed.

Lemma Run_prints_defer {B} E cmd cmd2 w w2 (f : M B) (rest : M (option error)) :
  tags cmd2 = tags cmd → stdout w2 = stdout w → keeps_stdout f →
  Run_prints E cmd2 w2 (rest w2) → Run_prints E cmd w (defer f rest w2).
Proof.
  intros Htg Hs Hf Hpost. unfold Run_prints in *. rewrite <- Htg, <- Hs.
  unfold defer. destruct (rest w2) as [r w3]. simpl in *. by rewrite (Hf w3).
Qed.

Lemma Run_context_prints E cmd w : Run_prints E cmd w (Run_context E cmd w).
Proof.
  unfold Run_context.
  destruct (String.eqb (contextDir cmd) ""); [by left|].
  destruct (String.eqb (contextDir cmd) "-"); [|apply Run_request_prints].
  unfold bind. pose proof (quiet_contextFromStdin E (dockerfilePath cmd) w) as Hk.
  destruct (contextFromStdin E (dockerfilePath cmd) w) as [[[dir [err|]]|msg] w1];
    simpl in Hk; [by left| |by left].
  apply (Run_prints_defer E cmd (with_contextDir dir cmd)); try done;
    first [apply quiet_os_RemoveAll | apply Run_request_prints].
Qed.

Lemma Run_prints_Run E cmd args w : Run_prints E cmd w (Run E cmd args w).
Proof.
  unfold Run.
  destruct (length args <? 1)%nat; [by left|].
  destruct (length (tags cmd) <? 1)%nat; [by left|].
  destruct (installRuncIfDNE E); [by left|].
  set (cmd1 := with_contextDir (hd "" args) cmd).
  destruct (String.eqb (dockerfilePath cmd1) "-").
  - unfold bind. pose proof (quiet_dockerfileFromStdin E w) as Hk.
    destruct (dockerfileFromStdin E w) as [[[name [err|]]|msg] w1];
      simpl in Hk; [by left| |by left].
    apply (Run_prints_defer E cmd (with_dockerfilePath name cmd1)); try done;
      first [apply quiet_os_RemoveAll | apply Run_context_prints].
  - apply (Run_context_prints E cmd1 w).
Qed.



(** The lines of the example. *)
Example Run_messages_example :
  stdout (Run (host no_entries) (build_cmd ["myapp"] [] []) ["."]
            (world_of tree0 [])).2
  = [ "Building docker.io/library/myapp:latest" +:+ LF;
      "Setting up the rootfs... this may take a bit." +:+ LF;
      "Successfully built docker.io/library/myapp:latest" +:+ LF ].
Proof. vm_compute. reflexivity. Qed.
